(** * InsightCord analytics: a shallow embedding of the scoring engine

    The development follows the Python modules of the bot one by one:

    - [AiAnalysis]     : [ai_analysis.py]     (toxicity fusion, rebuild)
    - [RankSystem]     : [rank_system.py]     (min-max normalisation, tiers)
    - [UserEngagement] : [user_engagement.py] (streak, engagement score,
                                               mention counters)
    - [UserProfile]    : [user_profile.py]    (7-day trend)
    - [AdminCommands]  : [admin_commands.py]  (toxicity alerts)

    Conventions of the embedding.

    - A Python [float] is an exact rational ([Q]) wherever a statement is
      an order or a range, which the rounding of binary64 arithmetic keeps;
      equality of such values is [Qeq] ([==]).  Where a statement names a
      stored value, the same expression is also given over the binary64
      floats of the kernel (the definitions named [..._f64], module [F64]),
      and the value is the one computed there.
    - A Python [int] is a [Z].
    - A table with a unique key is a [gmap] from the key to the row.
    - A SQLAlchemy session is a private working copy: attribute writes stay
      in the session until [commit], and another session only ever reads
      committed rows ([db.py] builds the sessions with [autoflush=False]).
    - Wall-clock reads ([datetime.now], SQL [NOW()]) are inputs.
    - In [Activity] and [MessageLog] a statement that the database refuses
      (foreign key, integer out of range, float8 out of range, division by
      zero) makes the function return [None]: its transaction is rolled
      back and stores nothing. *)

From Stdlib Require Import ZArith QArith Qminmax Qround Lia Lra Lqa Ascii String List.
From Corelib Require Import PrimFloat.
From Stdlib Require Import Floats.FloatOps Uint63.
From stdpp Require Import gmap strings list fin_maps.

Set Warnings "-inexact-float".

(** ** Python built-ins used by the modules *)

Module Py.

Local Open Scope Q_scope.

(** [min(a, b)] keeps the first argument unless the second is strictly
    smaller; [max(a, b)] keeps the first unless the second is strictly
    larger. *)
Definition min (a b : Q) : Q := if Qlt_le_dec b a then b else a.
Definition max (a b : Q) : Q := if Qlt_le_dec a b then b else a.

(** [min(values)] and [max(values)] for the non-empty list [v :: vs]: the
    first element, replaced whenever a later one is strictly smaller
    (strictly larger). *)
Definition min_of (v : Q) (vs : list Q) : Q := fold_left min vs v.
Definition max_of (v : Q) (vs : list Q) : Q := fold_left max vs v.

(** Characters removed by [str.strip()] among the code points below 256. *)
Definition is_space (c : ascii) : bool :=
  let n := nat_of_ascii c in
  ((9 <=? n) && (n <=? 13) || (28 <=? n) && (n <=? 32)
   || (n =? 133) || (n =? 160))%nat.

Fixpoint lstrip (s : string) : string :=
  match s with
  | String c s' => if is_space c then lstrip s' else s
  | EmptyString => EmptyString
  end.

Fixpoint rstrip (s : string) : string :=
  match s with
  | String c s' =>
      match rstrip s' with
      | EmptyString => if is_space c then EmptyString else String c EmptyString
      | r => String c r
      end
  | EmptyString => EmptyString
  end.

Definition strip (s : string) : string := rstrip (lstrip s).

Lemma min_spec a b : (b < a -> min a b = b) /\ (a <= b -> min a b = a).
Proof.
  unfold min. destruct (Qlt_le_dec b a) as [H|H]; split; intros H'; try reflexivity.
  - exfalso. apply (Qlt_not_le _ _ H H').
  - exfalso. apply (Qlt_not_le _ _ H' H).
Qed.

Lemma max_spec a b : (a < b -> max a b = b) /\ (b <= a -> max a b = a).
Proof.
  unfold max. destruct (Qlt_le_dec a b) as [H|H]; split; intros H'; try reflexivity.
  - exfalso. apply (Qlt_not_le _ _ H H').
  - exfalso. apply (Qlt_not_le _ _ H' H).
Qed.

Lemma min_le_l a b : min a b <= a.
Proof. unfold min. destruct (Qlt_le_dec b a); lra. Qed.

Lemma min_le_r a b : min a b <= b.
Proof. unfold min. destruct (Qlt_le_dec b a); lra. Qed.

Lemma min_glb a b c : c <= a -> c <= b -> c <= min a b.
Proof. unfold min. destruct (Qlt_le_dec b a); lra. Qed.

Lemma max_ge_l a b : a <= max a b.
Proof. unfold max. destruct (Qlt_le_dec a b); lra. Qed.

Lemma max_ge_r a b : b <= max a b.
Proof. unfold max. destruct (Qlt_le_dec a b); lra. Qed.

Lemma max_lub a b c : a <= c -> b <= c -> max a b <= c.
Proof. unfold max. destruct (Qlt_le_dec a b); lra. Qed.

Lemma min_cases a b : min a b = a \/ min a b = b.
Proof. unfold min. destruct (Qlt_le_dec b a); auto. Qed.

Lemma max_cases a b : max a b = a \/ max a b = b.
Proof. unfold max. destruct (Qlt_le_dec a b); auto. Qed.

End Py.

(** ** Binary64 floats *)

Module F64.

(** [float(z)] for an integer below [2^63] in absolute value. *)
Definition of_Z (z : Z) : float :=
  if (z <? 0)%Z then (- of_uint63 (Uint63.of_Z (- z)))%float
  else of_uint63 (Uint63.of_Z z).

(** [min(a, b)] and [max(a, b)] of Python on floats. *)
Definition min (a b : float) : float := if (b <? a)%float then b else a.
Definition max (a b : float) : float := if (a <? b)%float then b else a.

(** [min(values)] and [max(values)] for the non-empty list [v :: vs]. *)
Definition min_of (v : float) (vs : list float) : float := fold_left min vs v.
Definition max_of (v : float) (vs : list float) : float := fold_left max vs v.

(** The rational a finite float stands for (0 for the others), and its
    sign bit. *)
Definition to_Q (x : float) : Q :=
  match Prim2SF x with
  | SpecFloat.S754_finite s m e =>
      ((if s then -1 else 1) * inject_Z (Z.pos m) * 2 ^ e)%Q
  | _ => 0%Q
  end.

Definition sign (x : float) : bool :=
  match Prim2SF x with
  | SpecFloat.S754_finite s _ _ => s
  | SpecFloat.S754_zero s => s
  | SpecFloat.S754_infinity s => s
  | SpecFloat.S754_nan => false
  end.

End F64.

(** ** [ai_analysis.py]: content signals *)

Module AiAnalysis.

Local Open Scope Q_scope.

(** The tuple returned by [analyze_text]:
    [(sent_score, sent_label, tox, topics_counts, style)]. *)
Record Analysis := mkAnalysis {
  sent_score : Q;
  sent_label : string;
  tox : Q;
  topics_add : gmap string Z;
  style : string
}.

(** A row of [user_ai_analysis] (class [UserAIAnalysis] of [create_db.py]);
    the key [(user_id, guild_id)] is the key of the table below. *)
Record UserAIAnalysis := mkAI {
  dominant_sentiment : option string;
  topics_of_interest : option (gmap string Z);
  communication_style : option string;
  toxicity_level : option Q;
  last_analysis : Z
}.

(** A row of [messages]. *)
Record Message := mkMessage {
  msg_user_id : Z;
  msg_guild_id : Z;
  message_content : option string;
  timestamp : Z
}.

(** The committed tables read and written by the module.  Of [guilds] and
    [users] only the keys matter here. *)
Record DB := mkDB {
  guilds : gset Z;
  users : gset (Z * Z);
  user_ai_analysis : gmap (Z * Z) UserAIAnalysis;
  messages : list Message
}.

(** A mapped object held by a session: the row as the session loaded it
    ([None] when the session created the object itself) and the present
    values of its attributes. *)
Record Tracked := mkTracked {
  snapshot : option UserAIAnalysis;
  obj : UserAIAnalysis
}.

(** The object built by [get_or_create_ai] when no row exists. *)
Definition new_ai (now : Z) : UserAIAnalysis :=
  {| dominant_sentiment := Some "neutral"%string;
     topics_of_interest := Some ∅;
     communication_style := None;
     toxicity_level := Some 0;
     last_analysis := now |}.

Definition get_or_create_ai (db : DB) (user_id guild_id now : Z) : Tracked :=
  match user_ai_analysis db !! (user_id, guild_id) with
  | Some ai => {| snapshot := Some ai; obj := ai |}
  | None => {| snapshot := None; obj := new_ai now |}
  end.

(** [ensure_guild_and_user]: the rows the session adds when they are
    missing. *)
Definition ensure_guild_and_user (db : DB) (user_id guild_id : Z) : DB :=
  {| guilds := {[guild_id]} ∪ guilds db;
     users := {[(user_id, guild_id)]} ∪ users db;
     user_ai_analysis := user_ai_analysis db;
     messages := messages db |}.

(** [old_topics[k] = int(old_topics.get(k, 0)) + int(v)] for every item of
    [topics_add]. *)
Definition merge_topics (old_topics add : gmap string Z) : gmap string Z :=
  map_fold (fun k v acc => <[k := (default 0 (acc !! k) + v)%Z]> acc) old_topics add.

(** Lines 312-318 of [analyze_and_update]: the fused toxicity. *)
Definition fuse_toxicity (prev_tox tox : Q) : Q :=
  let delta := tox - prev_tox in
  if Qlt_le_dec 0 delta
  then Py.min 1 (prev_tox + delta * 1.8)
  else Py.max 0 (prev_tox + delta * 0.3).

(** The same lines in binary64, as Python evaluates them. *)
Definition fuse_toxicity_f64 (prev_tox tox : float) : float :=
  let delta := (tox - prev_tox)%float in
  if (0 <? delta)%float
  then F64.min 1.0%float (prev_tox + delta * 1.8)%float
  else F64.max 0.0%float (prev_tox + delta * 0.3)%float.

(** Lines 312-334: the attribute writes on the loaded object. *)
Definition update_ai (ai : UserAIAnalysis) (a : Analysis) (now : Z) : UserAIAnalysis :=
  let prev_tox := default 0 (toxicity_level ai) in
  {| toxicity_level := Some (fuse_toxicity prev_tox (tox a));
     dominant_sentiment := Some (sent_label a);
     topics_of_interest :=
       Some (merge_topics (default ∅ (topics_of_interest ai)) (topics_add a));
     communication_style := Some (style a);
     last_analysis := now |}.

(** Equality of two float columns. *)
Definition float_eqb (a b : option Q) : bool :=
  match a, b with
  | Some x, Some y => Qeq_bool x y
  | None, None => true
  | _, _ => false
  end.

(** The UPDATE emitted when a session flushes a loaded object: a column is
    written only when its value differs from the loaded one; the other
    columns keep what the table holds at that moment. *)
Definition write_changes (old cur row : UserAIAnalysis) : UserAIAnalysis :=
  {| dominant_sentiment :=
       if decide (dominant_sentiment cur = dominant_sentiment old)
       then dominant_sentiment row else dominant_sentiment cur;
     topics_of_interest :=
       if decide (topics_of_interest cur = topics_of_interest old)
       then topics_of_interest row else topics_of_interest cur;
     communication_style :=
       if decide (communication_style cur = communication_style old)
       then communication_style row else communication_style cur;
     toxicity_level :=
       if float_eqb (toxicity_level cur) (toxicity_level old)
       then toxicity_level row else toxicity_level cur;
     last_analysis :=
       if decide (last_analysis cur = last_analysis old)
       then last_analysis row else last_analysis cur |}.

(** [session.commit()] for a session holding the tracked object [t] under
    [key]: an INSERT for an object the session created, an UPDATE of the
    changed columns otherwise.  [None] is the [SQLAlchemyError] raised when
    the INSERT meets a committed row with the same key, or the UPDATE finds
    no row. *)
Definition commit_ai (db : DB) (key : Z * Z) (t : Tracked) : option DB :=
  match snapshot t, user_ai_analysis db !! key with
  | None, None =>
      Some {| guilds := guilds db; users := users db;
              user_ai_analysis := <[key := obj t]> (user_ai_analysis db);
              messages := messages db |}
  | Some old, Some row =>
      Some {| guilds := guilds db; users := users db;
              user_ai_analysis :=
                <[key := write_changes old (obj t) row]> (user_ai_analysis db);
              messages := messages db |}
  | _, _ => None
  end.

(** The short-circuit of [analyze_and_update]:
    [not content or len(content.strip()) < 2]. *)
Definition too_short (content : string) : bool :=
  (String.length (Py.strip content) <? 2)%nat.

(** [ORDER BY timestamp ASC], as a stable insertion sort. *)
Fixpoint insert_by_timestamp (m : Message) (l : list Message) : list Message :=
  match l with
  | [] => [m]
  | x :: l' =>
      if (timestamp m <? timestamp x)%Z then m :: l
      else x :: insert_by_timestamp m l'
  end.

Definition order_by_timestamp (l : list Message) : list Message :=
  fold_left (fun acc m => insert_by_timestamp m acc) l [].

(** The reset of [rebuild_ai_for_user] (lines 355-358). *)
Definition reset_ai (ai : UserAIAnalysis) : UserAIAnalysis :=
  {| toxicity_level := Some 0;
     dominant_sentiment := Some "neutral"%string;
     topics_of_interest := Some ∅;
     communication_style := None;
     last_analysis := last_analysis ai |}.

Section WithClassifier.

(** The text classifier selected by [AI_MODE]. *)
Variable analyze_text : string -> Analysis.

(** [analyze_and_update(user_id, guild_id, content)], run at time [now] on
    the committed tables [db].  The function opens a session of its own,
    and commits it. *)
Definition analyze_and_update (db : DB) (user_id guild_id : Z)
    (content : string) (now : Z) : DB :=
  if too_short content then db
  else
    let db1 := ensure_guild_and_user db user_id guild_id in
    let a := analyze_text content in
    let t := get_or_create_ai db1 user_id guild_id now in
    let t' := {| snapshot := snapshot t; obj := update_ai (obj t) a now |} in
    match commit_ai db1 (user_id, guild_id) t' with
    | Some db2 => db2
    | None => db
    end.

(** The loop of [rebuild_ai_for_user]: one [analyze_and_update] per message,
    the [i]-th of them run at time [clock i]. *)
Fixpoint replay (db : DB) (user_id guild_id : Z) (msgs : list Message)
    (clock : nat -> Z) (i : nat) : DB :=
  match msgs with
  | [] => db
  | m :: msgs' =>
      replay
        (analyze_and_update db user_id guild_id
           (default EmptyString (message_content m)) (clock i))
        user_id guild_id msgs' clock (S i)
  end.

(** [rebuild_ai_for_user(user_id, guild_id)].

    The outer session loads (or creates) the object and resets its four
    attributes in memory; nothing is flushed before its final [commit].
    Every [analyze_and_update] of the loop works in a session of its own,
    on the committed tables.

    When the outer session had to insert the guild, the user or the analysis
    row, that INSERT is flushed but uncommitted while the loop runs, and an
    inner session that gets past the short-circuit inserts the same key: the
    outcome is then left to the database and is not modelled ([None]). *)
Definition rebuild_ai_for_user (db : DB) (user_id guild_id : Z)
    (now : Z) (clock : nat -> Z) : option DB :=
  let db1 := ensure_guild_and_user db user_id guild_id in
  let t := get_or_create_ai db1 user_id guild_id now in
  let ai := reset_ai (obj t) in
  let msgs :=
    order_by_timestamp
      (filter (fun m => msg_user_id m = user_id /\ msg_guild_id m = guild_id)
              (messages db)) in
  let pending_insert :=
    negb (bool_decide (guild_id ∈ guilds db))
    || negb (bool_decide ((user_id, guild_id) ∈ users db))
    || negb (bool_decide (is_Some (snapshot t))) in
  if pending_insert
     && existsb (fun m => negb (too_short (default EmptyString (message_content m)))) msgs
  then None
  else
    let db2 := replay db user_id guild_id msgs clock 0 in
    let db3 := ensure_guild_and_user db2 user_id guild_id in
    match commit_ai db3 (user_id, guild_id) {| snapshot := snapshot t; obj := ai |} with
    | Some db4 => Some db4
    | None => Some db2
    end.

End WithClassifier.

(** *** Vocabulary of the statements *)

(** The toxicity a new analysis is fused with:
    [float(ai.toxicity_level or 0.0)] on the loaded or created object. *)
Definition previous_toxicity (db : DB) (user_id guild_id : Z) : Q :=
  match user_ai_analysis db !! (user_id, guild_id) with
  | Some ai => default 0 (toxicity_level ai)
  | None => 0
  end.

(** The toxicity stored for a user, when there is one. *)
Definition stored_toxicity (db : DB) (user_id guild_id : Z) : option Q :=
  user_ai_analysis db !! (user_id, guild_id) ≫= toxicity_level.

(** *** Example data *)

(** A classifier for the examples: on every text, the tuple the local
    analyser gives for the one-word insult of the lexicon (no sentiment word,
    one toxic hit in one word, no topic, a short text without question
    mark). *)
Definition insult_classifier (_ : string) : Analysis :=
  {| sent_score := 0; sent_label := "neutral"; tox := 1;
     topics_add := ∅; style := "concise" |}.

(** A classifier that reports toxicity 0.9 on every text. *)
Definition tox09_classifier (_ : string) : Analysis :=
  {| sent_score := 0; sent_label := "neutral"; tox := 0.9;
     topics_add := ∅; style := "concise" |}.

(** A database with one guild, one user, one message of that user and
    the given rows of [user_ai_analysis]. *)
Definition one_user_db (rows : gmap (Z * Z) UserAIAnalysis) : DB :=
  {| guilds := {[1%Z]};
     users := {[(7%Z, 1%Z)]};
     user_ai_analysis := rows;
     messages := [ mkMessage 7 1 (Some "merde"%string) 10 ] |}.

(** The user's analysis row holding toxicity 0.2. *)
Definition calm_db : DB :=
  one_user_db
    {[ (7%Z, 1%Z) :=
         {| dominant_sentiment := Some "neutral"%string;
            topics_of_interest := Some ∅;
            communication_style := Some "balanced"%string;
            toxicity_level := Some 0.2;
            last_analysis := 0 |} ]}.

(** The tables once the bot has analysed the user's message, at time 11,
    starting without any analysis row. *)
Definition live_db : DB :=
  analyze_and_update insult_classifier (one_user_db ∅) 7 1 "merde" 11.

(** *** Facts about [analyze_and_update] *)

Lemma analyze_and_update_toxicity analyze_text db user_id guild_id content now :
  too_short content = false ->
  exists t,
    stored_toxicity (analyze_and_update analyze_text db user_id guild_id content now)
      user_id guild_id = Some t
    /\ t == fuse_toxicity (previous_toxicity db user_id guild_id)
                          (tox (analyze_text content)).
Proof.
  intros Hshort. unfold analyze_and_update, stored_toxicity, previous_toxicity.
  rewrite Hshort. unfold get_or_create_ai, commit_ai. simpl.
  destruct (user_ai_analysis db !! (user_id, guild_id)) as [ai|] eqn:Hrow; simpl.
  - rewrite lookup_insert_eq. simpl.
    destruct (toxicity_level ai) as [y|]; simpl.
    + destruct (Qeq_bool _ y) eqn:Heq.
      * exists y. split; [reflexivity|]. symmetry. now apply Qeq_bool_iff.
      * eexists. split; reflexivity.
    + eexists. split; reflexivity.
  - rewrite lookup_insert_eq. simpl. eexists. split; reflexivity.
Qed.

Lemma fuse_toxicity_range prev new :
  0 <= prev <= 1 -> 0 <= new <= 1 -> 0 <= fuse_toxicity prev new <= 1.
Proof.
  intros [Hp0 Hp1] [Hn0 Hn1]. unfold fuse_toxicity. cbv zeta.
  destruct (Qlt_le_dec 0 (new - prev)) as [Hd|Hd].
  - split.
    + apply Py.min_glb; [lra|]. nra.
    + apply Py.min_le_l.
  - split.
    + apply Py.max_ge_l.
    + apply Py.max_lub; [lra|]. nra.
Qed.

(** C1, as the code has it.  Whenever [analyze_and_update] gets past its
    short-circuit, the toxicity it stores is the asymmetric smoothing of the
    previous value [prev] and the classifier's value [new], both in [0,1]:
    with [delta = new - prev], it is [min(1, prev + delta*1.8)] when
    [delta > 0] and [max(0, prev + delta*0.3)] otherwise, and it stays in
    [0,1].  In particular 0.2 and 0.9 give 1.0; 0.8 and 0.1 give, in
    binary64, the float 0.5900000000000001, which is within [2^-52] of
    0.59. *)
Theorem toxicity_fusion_asymmetric
    (analyze_text : string -> Analysis) (db : DB) (user_id guild_id : Z)
    (content : string) (now : Z) :
  let prev := previous_toxicity db user_id guild_id in
  let new := tox (analyze_text content) in
  too_short content = false ->
  0 <= prev <= 1 ->
  0 <= new <= 1 ->
  (exists t,
      stored_toxicity (analyze_and_update analyze_text db user_id guild_id content now)
        user_id guild_id = Some t
      /\ (0 < new - prev -> t == Py.min 1 (prev + (new - prev) * 1.8))
      /\ (~ 0 < new - prev -> t == Py.max 0 (prev + (new - prev) * 0.3))
      /\ 0 <= t <= 1
      /\ (prev == 0.2 -> new == 0.9 -> t == 1))
  /\ fuse_toxicity_f64 0.2 0.9 = 1.0%float
  /\ fuse_toxicity_f64 0.8 0.1 = 0.5900000000000001%float
  /\ - (1 # 4503599627370496)
     <= F64.to_Q (fuse_toxicity_f64 0.8 0.1) - 0.59
     <= 1 # 4503599627370496.
Proof.
  intros prev new Hshort Hprev Hnew.
  destruct (analyze_and_update_toxicity analyze_text db user_id guild_id content now Hshort)
    as (t & Hstored & Ht).
  fold prev new in Ht.
  assert (Hrange : 0 <= t <= 1).
  { rewrite Ht. now apply fuse_toxicity_range. }
  assert (Hup : 0 < new - prev -> t == Py.min 1 (prev + (new - prev) * 1.8)).
  { intros Hd. rewrite Ht. unfold fuse_toxicity. cbv zeta.
    destruct (Qlt_le_dec 0 (new - prev)) as [_|Hle]; [reflexivity|lra]. }
  assert (Hdown : ~ 0 < new - prev -> t == Py.max 0 (prev + (new - prev) * 0.3)).
  { intros Hd. rewrite Ht. unfold fuse_toxicity. cbv zeta.
    destruct (Qlt_le_dec 0 (new - prev)) as [Hlt|_]; [contradiction|reflexivity]. }
  split.
  - exists t. repeat apply conj; try assumption; try apply Hrange.
    intros Hp Hn. rewrite Hup by lra.
    unfold Py.min. destruct (Qlt_le_dec _ 1); lra.
  - vm_compute. repeat apply conj; try reflexivity; discriminate.
Qed.

Lemma toxicity_fusion_asymmetric_witness :
  exists t,
    stored_toxicity
      (analyze_and_update tox09_classifier calm_db 7 1 "merde" 5) 7 1
    = Some t /\ t == 1.
Proof.
  destruct (toxicity_fusion_asymmetric tox09_classifier calm_db 7 1 "merde" 5)
    as [(t & Ht & _ & _ & _ & Hex) _].
  - reflexivity.
  - vm_compute. split; discriminate.
  - vm_compute. split; discriminate.
  - exists t. split; [exact Ht|]. apply Hex; reflexivity.
Defined.

(** With 0.8 stored and a reading of 0.1, the float stored is
    0.5900000000000001: it is not the float 0.59, and Python's [==] tells
    them apart. *)
Lemma fusion_of_0_8_and_0_1_is_not_0_59 :
  fuse_toxicity_f64 0.8 0.1 = 0.5900000000000001%float
  /\ fuse_toxicity_f64 0.8 0.1 <> 0.59%float
  /\ (fuse_toxicity_f64 0.8 0.1 =? 0.59)%float = false.
Proof.
  vm_compute. repeat apply conj; try reflexivity. discriminate.
Qed.

Lemma analyze_and_update_keeps_row analyze_text db user_id guild_id content now :
  is_Some (user_ai_analysis db !! (user_id, guild_id)) ->
  is_Some (user_ai_analysis
             (analyze_and_update analyze_text db user_id guild_id content now)
           !! (user_id, guild_id)).
Proof.
  intros [ai Hai]. unfold analyze_and_update.
  destruct (too_short content); [by exists ai|].
  unfold get_or_create_ai, commit_ai. simpl. rewrite Hai. simpl.
  rewrite lookup_insert_eq. by eexists.
Qed.

Lemma replay_keeps_row analyze_text msgs : forall db user_id guild_id clock i,
  is_Some (user_ai_analysis db !! (user_id, guild_id)) ->
  is_Some (user_ai_analysis (replay analyze_text db user_id guild_id msgs clock i)
           !! (user_id, guild_id)).
Proof.
  induction msgs as [|m msgs IH]; intros db user_id guild_id clock i Hrow; simpl.
  - exact Hrow.
  - apply IH. now apply analyze_and_update_keeps_row.
Qed.

(** Whatever the messages, a rebuild that starts from a stored toxicity
    other than 0 ends with toxicity 0: the reset is written by the final
    commit of the outer session, over what the loop has committed. *)
Lemma rebuild_reset_written_last analyze_text db user_id guild_id now clock ai t0 :
  guild_id ∈ guilds db ->
  (user_id, guild_id) ∈ users db ->
  user_ai_analysis db !! (user_id, guild_id) = Some ai ->
  toxicity_level ai = Some t0 ->
  ~ t0 == 0 ->
  exists db',
    rebuild_ai_for_user analyze_text db user_id guild_id now clock = Some db'
    /\ stored_toxicity db' user_id guild_id = Some 0.
Proof.
  intros Hg Hu Hai Ht0 Hne. unfold rebuild_ai_for_user, get_or_create_ai. simpl.
  rewrite Hai. simpl.
  rewrite (bool_decide_eq_true_2 _ Hg), (bool_decide_eq_true_2 _ Hu). simpl.
  match goal with |- context [replay ?a ?d ?u ?g ?m ?c ?i] =>
    destruct (replay_keeps_row a m d u g c i) as [row Hrow]; [by eexists|];
    set (db2 := replay a d u g m c i) in *
  end.
  unfold commit_ai. simpl. rewrite Hrow.
  eexists. split; [reflexivity|].
  unfold stored_toxicity. simpl. rewrite lookup_insert_eq. simpl.
  rewrite Ht0. simpl.
  destruct (Qeq_bool 0 t0) eqn:Heq; [|reflexivity].
  apply Qeq_bool_iff in Heq. exfalso. apply Hne. now symmetry.
Qed.

(** The lemma at work on the tables left by the analysis of the message. *)
Example rebuild_after_analysis_ends_at_zero :
  exists db',
    rebuild_ai_for_user insult_classifier live_db 7 1 100 (fun i => 101 + Z.of_nat i)%Z
    = Some db'
    /\ stored_toxicity db' 7 1 = Some 0.
Proof.
  eapply (rebuild_reset_written_last insult_classifier live_db 7 1 100 _ _ 1).
  - apply (bool_decide_unpack _). vm_compute. exact I.
  - apply (bool_decide_unpack _). vm_compute. exact I.
  - vm_compute. reflexivity.
  - reflexivity.
  - discriminate.
Qed.

(** C4.  Two rebuilds over the same one-message history do not end in the
    same state.  Before them, the analysis of the message has stored
    toxicity 1 and the style concise.  The first rebuild loads that row and
    resets it in its own session; the loop stores toxicity 1 and concise
    again; the final commit of the rebuild then writes toxicity 0 and no
    style over them.  The second rebuild loads the row at its defaults: its
    reset changes no attribute, so its commit writes nothing and the result
    of the loop stays. *)
Theorem rebuild_twice_differs :
  let clock1 := fun i : nat => (101 + Z.of_nat i)%Z in
  let clock2 := fun i : nat => (201 + Z.of_nat i)%Z in
  let run1 := rebuild_ai_for_user insult_classifier live_db 7 1 100 clock1 in
  let run2 := run1 ≫= fun db => rebuild_ai_for_user insult_classifier db 7 1 200 clock2 in
  user_ai_analysis live_db !! (7%Z, 1%Z)
  = Some {| dominant_sentiment := Some "neutral"%string;
            topics_of_interest := Some ∅;
            communication_style := Some "concise"%string;
            toxicity_level := Some 1;
            last_analysis := 11 |}
  /\ (messages <$> run1) = Some (messages live_db)
  /\ (messages <$> run2) = Some (messages live_db)
  /\ ((fun db => user_ai_analysis db !! (7%Z, 1%Z)) <$> run1)
     = Some (Some {| dominant_sentiment := Some "neutral"%string;
                     topics_of_interest := Some ∅;
                     communication_style := None;
                     toxicity_level := Some 0;
                     last_analysis := 101 |})
  /\ ((fun db => user_ai_analysis db !! (7%Z, 1%Z)) <$> run2)
     = Some (Some {| dominant_sentiment := Some "neutral"%string;
                     topics_of_interest := Some ∅;
                     communication_style := Some "concise"%string;
                     toxicity_level := Some 1;
                     last_analysis := 201 |}).
Proof. vm_compute. repeat split. Qed.

End AiAnalysis.

(** ** [rank_system.py]: normalisation, composite score and tiers *)

Module RankSystem.

Local Open Scope Q_scope.

Record Tier := mkTier {
  name : string;
  min_score : Q;
  color : Z;
  emoji : string
}.

Definition TIERS : list Tier :=
  [ mkTier "Mythic"   90 0x9b59b6 "🌌";
    mkTier "Diamond"  80 0x00d2ff "💎";
    mkTier "Platinum" 70 0x7fdbff "🔷";
    mkTier "Gold"     60 0xf1c40f "🥇";
    mkTier "Silver"   45 0xbdc3c7 "🥈";
    mkTier "Bronze"    0 0xcd7f32 "🥉" ].

(** [TIERS[-1]]. *)
Definition last_tier : Tier := mkTier "Bronze" 0 0xcd7f32 "🥉".

(** The [for] loop of [pick_tier]: the first tier, in the order of
    [TIERS], with [score >= t.min_score]. *)
Fixpoint first_reached (tiers : list Tier) (score : Q) : option Tier :=
  match tiers with
  | [] => None
  | t :: tiers' =>
      if Qle_bool (min_score t) score then Some t
      else first_reached tiers' score
  end.

Definition pick_tier (score : Q) : Tier :=
  default last_tier (first_reached TIERS score).

Definition _minmax_norm (values : list Q) (x : Q) : Q :=
  match values with
  | [] => 0.0
  | v :: vs =>
      let vmin := Py.min_of v vs in
      let vmax := Py.max_of v vs in
      if Qle_bool vmax vmin then 50.0
      else Py.max 0.0 (Py.min 100.0 ((x - vmin) * 100.0 / (vmax - vmin)))
  end.


Definition _score_combined (eng_norm_0_100 tox_0_1 : Q) : Q :=
  let positivity := Py.max 0 (Py.min 1 (1 - tox_0_1)) * 100 in
  0.7 * eng_norm_0_100 + 0.3 * positivity.

(** The loop of [cmd_rank] over [TIERS] that keeps the last tier with
    [score_user < t.min_score]. *)
Definition next_tier_in (tiers : list Tier) (score_user : Q) : option Tier :=
  fold_left
    (fun next_tier t =>
       if Qlt_le_dec score_user (min_score t) then Some t else next_tier)
    tiers None.

Definition next_tier (score_user : Q) : option Tier := next_tier_in TIERS score_user.

(** The text of the field [Prochain rang], without its formatting. *)
Inductive NextHint :=
| MaxRank
| NextRank (t : Tier) (delta : Q).

Definition next_hint (score_user : Q) : NextHint :=
  match next_tier score_user with
  | None => MaxRank
  | Some t => NextRank t (Py.max 0 (min_score t - score_user))
  end.

(** [combined_all.sort(key=lambda x: x[1], reverse=True)]: a stable sort by
    decreasing score. *)
Fixpoint insert_desc (p : Z * Q) (l : list (Z * Q)) : list (Z * Q) :=
  match l with
  | [] => [p]
  | q :: l' =>
      if Qle_bool (snd q) (snd p) then p :: l
      else q :: insert_desc p l'
  end.

Definition sort_desc (l : list (Z * Q)) : list (Z * Q) :=
  foldr insert_desc [] l.

(** Index of the first entry of [l] for [user_id]. *)
Fixpoint index_of (user_id : Z) (l : list (Z * Q)) (i : nat) : option nat :=
  match l with
  | [] => None
  | (uid, _) :: l' => if decide (uid = user_id) then Some i else index_of user_id l' (S i)
  end.

(** What [cmd_rank] puts in its embed. *)
Record RankEmbed := mkRankEmbed {
  embed_score : Q;
  embed_tier : Tier;
  embed_position : nat;
  embed_total : nat;
  embed_eng_norm : Q;
  embed_positivity_pct : Q;
  embed_next : NextHint
}.

(** A dictionary built by a comprehension over [profiles]: the last entry
    of a key wins. *)
Definition dict_of (l : list (Z * Q)) : gmap Z Q :=
  fold_left (fun m p => <[fst p := snd p]> m) l ∅.

(** [cmd_rank] on the rows [(user_id, engagement_score, toxicity_level)] of
    the guild; [None] is the message sent when there is no row. *)
Definition cmd_rank (profiles : list (Z * Q * Q)) (user_id : Z) : option RankEmbed :=
  match profiles with
  | [] => None
  | _ =>
      let eng_values := map (fun p => snd (fst p)) profiles in
      let eng_map := dict_of (map (fun p => (fst (fst p), snd (fst p))) profiles) in
      let tox_map := dict_of (map (fun p => (fst (fst p), snd p)) profiles) in
      let eng_user := default 0 (eng_map !! user_id) in
      let tox_user := default 0 (tox_map !! user_id) in
      let eng_norm := _minmax_norm eng_values eng_user in
      let score_user := _score_combined eng_norm tox_user in
      let combined_all :=
        sort_desc
          (map (fun p => (fst (fst p),
                          _score_combined (_minmax_norm eng_values (snd (fst p))) (snd p)))
               profiles) in
      let position :=
        (1 + default (length combined_all - 1) (index_of user_id combined_all 0))%nat in
      Some {| embed_score := score_user;
              embed_tier := pick_tier score_user;
              embed_position := position;
              embed_total := length combined_all;
              embed_eng_norm := eng_norm;
              embed_positivity_pct := Py.max 0 (Py.min 100 ((1 - tox_user) * 100));
              embed_next := next_hint score_user |}
  end.

(** *** Facts about the minimum and the maximum of a list *)





Lemma Qle_bool_false a b : Qle_bool a b = false -> b < a.
Proof.
  intros H. apply Qnot_le_lt. intros Hle.
  apply Qle_bool_iff in Hle. congruence.
Qed.

Lemma minmax_norm_range values x : 0 <= _minmax_norm values x <= 100.
Proof.
  unfold _minmax_norm. destruct values as [|v vs]; [split; discriminate|].
  cbv zeta. destruct (Qle_bool _ _); [split; discriminate|].
  unfold Py.max, Py.min.
  destruct (Qlt_le_dec _ 100.0); destruct (Qlt_le_dec 0.0 _); lra.
Qed.

Lemma score_combined_range eng tox :
  0 <= eng <= 100 -> 0 <= _score_combined eng tox <= 100.
Proof.
  intros [H0 H1]. unfold _score_combined. cbv zeta.
  pose proof (Py.max_ge_l 0 (Py.min 1 (1 - tox))) as Hp0.
  assert (Hp1 : Py.max 0 (Py.min 1 (1 - tox)) <= 1).
  { apply Py.max_lub; [lra|apply Py.min_le_l]. }
  split; nra.
Qed.

(** *** Normalisation *)






(** *** Tiers *)

Ltac tier_cases H :=
  unfold TIERS in H; simpl in H;
  repeat (destruct H as [<-|H]; [simpl|]); try contradiction.

Lemma pick_tier_highest_reached s :
  0 <= s ->
  In (pick_tier s) TIERS
  /\ min_score (pick_tier s) <= s
  /\ (forall t, In t TIERS -> min_score t <= s ->
             min_score t <= min_score (pick_tier s)).
Proof.
  intros Hs. unfold pick_tier, TIERS, first_reached. simpl.
  repeat match goal with
  | |- context [Qle_bool ?a s] =>
      let E := fresh "E" in
      destruct (Qle_bool a s) eqn:E;
      [apply Qle_bool_iff in E | apply Qle_bool_false in E]
  end; simpl;
  (split; [tauto|]); (split; [lra|]);
  intros t Ht Hle; tier_cases Ht; simpl in Hle; lra.
Qed.

Lemma next_tier_lowest_above s :
  match next_tier s with
  | None => forall t, In t TIERS -> min_score t <= s
  | Some n =>
      In n TIERS /\ s < min_score n
      /\ (forall t, In t TIERS -> s < min_score t -> min_score n <= min_score t)
  end.
Proof.
  unfold next_tier, next_tier_in, TIERS. simpl.
  repeat match goal with
  | |- context [Qlt_le_dec s ?a] => destruct (Qlt_le_dec s a); simpl in *
  end; try lra;
  first
    [ (split; [tauto|]); (split; [lra|]);
      intros t Ht Hlt; tier_cases Ht; simpl in Hlt; lra
    | intros t Ht; tier_cases Ht; lra ].
Qed.

Lemma cmd_rank_embed profiles user_id r :
  cmd_rank profiles user_id = Some r ->
  (exists values x tox, embed_score r = _score_combined (_minmax_norm values x) tox)
  /\ embed_tier r = pick_tier (embed_score r)
  /\ embed_next r = next_hint (embed_score r).
Proof.
  unfold cmd_rank. destruct profiles as [|p profiles]; [discriminate|].
  set (l := p :: profiles). intros [= <-]. cbn [embed_score embed_tier embed_next].
  split; [|split; reflexivity].
  exists (map (fun p => snd (fst p)) l). eexists _, _. reflexivity.
Qed.

(** C8.  For every composite score [s], [pick_tier s] is a tier of the
    table whose threshold [s] reaches, and no tier that [s] reaches has a
    higher threshold; the hint is the maximal-rank one exactly when that
    tier is Mythic, and otherwise it names a tier whose threshold is
    strictly above [s] and lowest among those.  The score, the tier and the
    hint of the embed built by [cmd_rank] are such a score, its tier and
    its hint. *)
Theorem tier_and_next_tier (values : list Q) (x tox : Q) :
  let s := _score_combined (_minmax_norm values x) tox in
  (In (pick_tier s) TIERS
   /\ min_score (pick_tier s) <= s
   /\ (forall t, In t TIERS -> min_score t <= s ->
              min_score t <= min_score (pick_tier s)))
  /\ (next_hint s = MaxRank <-> name (pick_tier s) = "Mythic"%string)
  /\ (forall n delta, next_hint s = NextRank n delta ->
        In n TIERS /\ s < min_score n
        /\ (forall t, In t TIERS -> s < min_score t -> min_score n <= min_score t))
  /\ (forall profiles user_id r,
        cmd_rank profiles user_id = Some r ->
        (exists values' x' tox',
            embed_score r = _score_combined (_minmax_norm values' x') tox')
        /\ embed_tier r = pick_tier (embed_score r)
        /\ embed_next r = next_hint (embed_score r)).
Proof.
  intros s.
  assert (Hs : 0 <= s).
  { apply score_combined_range, minmax_norm_range. }
  pose proof (pick_tier_highest_reached s Hs) as (Hin & Hle & Hmax).
  pose proof (next_tier_lowest_above s) as Hnext.
  split; [auto|].
  assert (Hembed : forall profiles user_id r,
             cmd_rank profiles user_id = Some r ->
             (exists values' x' tox',
                 embed_score r = _score_combined (_minmax_norm values' x') tox')
             /\ embed_tier r = pick_tier (embed_score r)
             /\ embed_next r = next_hint (embed_score r)).
  { intros profiles user_id r. apply cmd_rank_embed. }
  unfold next_hint.
  destruct (next_tier s) as [n|]; (split; [|split; [|exact Hembed]]).
  - split; [discriminate|]. intros Hname. exfalso.
    destruct Hnext as (Hn & Hlt & _).
    assert (H90 : 90 <= s).
    { unfold TIERS in Hin. simpl in Hin.
      destruct Hin as [E|[E|[E|[E|[E|[E|[]]]]]]];
        rewrite <- E in Hname, Hle; simpl in Hname, Hle;
        first [discriminate Hname | exact Hle]. }
    tier_cases Hn; simpl in Hlt; lra.
  - intros n' delta [= <- _]. exact Hnext.
  - split; [|reflexivity]. intros _.
    assert (H90 : 90 <= s) by (apply (Hnext (mkTier "Mythic" 90 0x9b59b6 "🌌")); simpl; auto).
    unfold pick_tier, TIERS, first_reached. simpl.
    apply Qle_bool_iff in H90. now rewrite H90.
  - intros n delta [=].
Qed.

Lemma tier_and_next_tier_witness :
  let s := _score_combined (_minmax_norm [10; 10] 10) 0.1 in
  s == 62
  /\ min_score (pick_tier s) <= s
  /\ (forall n delta, next_hint s = NextRank n delta -> s < min_score n).
Proof.
  destruct (tier_and_next_tier [10; 10] 10 0.1) as ((_ & Hle & _) & _ & Hnext & _).
  split; [reflexivity|]. split; [exact Hle|].
  intros n delta Hn. now apply (Hnext n delta).
Defined.

End RankSystem.

(** ** [datetime.date] *)

Module Dates.

Local Open Scope Z_scope.

Record date := mkdate { year : Z; month : Z; day : Z }.

#[global] Instance date_eq_dec : EqDecision date.
Proof. solve_decision. Defined.

#[global] Instance date_countable : Countable date.
Proof.
  refine (inj_countable' (fun d => (year d, month d, day d))
                         (fun t => mkdate t.1.1 t.1.2 t.2) _).
  by intros [].
Defined.

(** A [datetime]: its date and the microseconds since midnight. *)
Record datetime := mkdatetime { dt_date : date; dt_time : Z }.

(** [a <= b] on dates. *)
Definition date_leb (a b : date) : bool :=
  (year a <? year b)
  || ((year a =? year b)
      && ((month a <? month b)
          || ((month a =? month b) && (day a <=? day b)))).

Definition is_leap (y : Z) : bool :=
  (y mod 4 =? 0) && (negb (y mod 100 =? 0) || (y mod 400 =? 0)).

Definition days_in_month (y m : Z) : Z :=
  if m =? 2 then (if is_leap y then 29 else 28)
  else if (m =? 4) || (m =? 6) || (m =? 9) || (m =? 11) then 30
  else 31.

(** [d - timedelta(days=1)]. *)
Definition prev_day (d : date) : date :=
  if 1 <? day d then mkdate (year d) (month d) (day d - 1)
  else if 1 <? month d
       then mkdate (year d) (month d - 1) (days_in_month (year d) (month d - 1))
       else mkdate (year d - 1) 12 31.

(** [d - timedelta(days=n)]. *)
Definition minus_days (d : date) (n : nat) : date := Nat.iter n prev_day d.

(** [d.replace(day=1)]. *)
Definition replace_day_1 (d : date) : date := mkdate (year d) (month d) 1.

(** The loop shared by the two streak computations:
    [while d in days: streak += 1; d -= timedelta(days=1)].
    [fuel] bounds the number of iterations. *)
Fixpoint streak_loop (fuel : nat) (days : gset date) (d : date) (streak : Z) : Z :=
  match fuel with
  | O => streak
  | S fuel' =>
      if decide (d ∈ days)
      then streak_loop fuel' days (prev_day d) (streak + 1)
      else streak
  end.

(** The loop, with fuel for one test more than there are days in the set. *)
Definition streak_from (days : gset date) (d : date) : Z :=
  streak_loop (S (size days)) days d 0.

(** Strict order on dates, and the days of a set that are not after [d]. *)
Definition date_lt (a b : date) : Prop := date_leb a b = true /\ a <> b.

Definition up_to (days : gset date) (d : date) : gset date :=
  filter (fun x => date_leb x d = true) days.

Lemma date_leb_refl d : date_leb d d = true.
Proof. unfold date_leb. destruct d as [y m dd]. simpl. lia. Qed.

Lemma date_leb_trans a b c :
  date_leb a b = true -> date_leb b c = true -> date_leb a c = true.
Proof. unfold date_leb. destruct a, b, c. simpl. lia. Qed.

Lemma date_leb_antisym a b :
  date_leb a b = true -> date_leb b a = true -> a = b.
Proof.
  unfold date_leb. destruct a as [y m d], b as [y' m' d']. simpl. intros H1 H2.
  assert (y = y' /\ m = m' /\ d = d') as (-> & -> & ->) by lia. reflexivity.
Qed.

Lemma prev_day_lt d : date_lt (prev_day d) d.
Proof.
  unfold date_lt, prev_day, date_leb. destruct d as [y m dd]. simpl.
  destruct (1 <? dd) eqn:Hd; [|destruct (1 <? m) eqn:Hm]; simpl;
    (split; [lia|intros [=]; lia]).
Qed.

Lemma prev_day_not_leb d : date_leb d (prev_day d) = false.
Proof.
  destruct (prev_day_lt d) as [Hle Hne].
  destruct (date_leb d (prev_day d)) eqn:E; [|reflexivity].
  exfalso. apply Hne. now apply date_leb_antisym.
Qed.

Lemma up_to_prev_size days d :
  d ∈ days -> (size (up_to days (prev_day d)) < size (up_to days d))%nat.
Proof.
  intros Hd. apply subset_size. apply strict_spec. split.
  - intros x. unfold up_to. rewrite !elem_of_filter. intros [Hx Hin]. split; [|exact Hin].
    eapply date_leb_trans; [exact Hx|]. apply prev_day_lt.
  - intros Hsub.
    assert (Hin : d ∈ up_to days (prev_day d)).
    { apply Hsub. unfold up_to. apply elem_of_filter. split; [apply date_leb_refl|exact Hd]. }
    unfold up_to in Hin. apply elem_of_filter in Hin as [Hle _].
    rewrite prev_day_not_leb in Hle. discriminate.
Qed.

(** The loop leaves by its own test as soon as the fuel exceeds the number
    of days of the set that are not after [d]: more fuel changes nothing. *)
Lemma streak_loop_fuel days : forall fuel fuel' d streak,
  (size (up_to days d) < fuel)%nat ->
  (size (up_to days d) < fuel')%nat ->
  streak_loop fuel days d streak = streak_loop fuel' days d streak.
Proof.
  induction fuel as [|fuel IH]; intros fuel' d streak H1 H2; [lia|].
  destruct fuel' as [|fuel']; [lia|]. simpl.
  destruct (decide (d ∈ days)) as [Hd|Hd]; [|reflexivity].
  pose proof (up_to_prev_size days d Hd).
  apply IH; lia.
Qed.

Lemma streak_from_total days d fuel :
  (size days < fuel)%nat ->
  streak_loop fuel days d 0 = streak_from days d.
Proof.
  intros Hfuel. unfold streak_from.
  assert (size (up_to days d) <= size days)%nat.
  { apply subseteq_size. intros x. unfold up_to. rewrite elem_of_filter. tauto. }
  apply streak_loop_fuel; lia.
Qed.

End Dates.

(** ** [user_engagement.py]: streak, engagement score, mention counters *)

Module UserEngagement.

Import Dates.

Local Open Scope Z_scope.

(** The columns of [user_activity] read by this module. *)
Record UserActivity := mkUserActivity {
  message_count : option Z;
  reaction_count : option Z;
  received_reactions : option Z
}.

(** A row of [user_engagement], under the key [(user_id, guild_id)]. *)
Record UserEngagement := mkUserEngagement {
  mentions_made : Z;
  mentions_received : Z;
  threads_created : Z;
  invitations_sent : Z;
  active_days_in_month : Z;
  streak_days : Z;
  engagement_score : Q;
  last_update : datetime
}.

(** The committed tables.  [user_message_daily] maps
    [(user_id, guild_id, day)] to [count]. *)
Record DB := mkDB {
  users : gset (Z * Z);
  user_activity : gmap (Z * Z) UserActivity;
  user_message_daily : gmap (Z * Z * date) Z;
  user_engagement : gmap (Z * Z) UserEngagement
}.

Definition _ensure_user (db : DB) (user_id guild_id : Z) : DB :=
  {| users := {[(user_id, guild_id)]} ∪ users db;
     user_activity := user_activity db;
     user_message_daily := user_message_daily db;
     user_engagement := user_engagement db |}.

(** The rows [(day, count)] selected by [_compute_active_days_and_streak]:
    those of the user with [start_month <= day <= today] and [count > 0]. *)
Definition month_rows (db : DB) (user_id guild_id : Z) (today : date)
    : list (date * Z) :=
  let start_month := replace_day_1 today in
  (fun r => (r.1.2, r.2)) <$>
    filter (fun r : Z * Z * date * Z =>
              r.1.1.1 = user_id /\ r.1.1.2 = guild_id
              /\ date_leb start_month r.1.2 = true
              /\ date_leb r.1.2 today = true
              /\ 0 < r.2)
           (map_to_list (user_message_daily db)).

Definition _compute_active_days_and_streak (db : DB) (user_id guild_id : Z)
    (today : date) : Z * Z :=
  let rows := month_rows db user_id guild_id today in
  let active_days := Z.of_nat (length rows) in
  let days_set : gset date := list_to_set (fst <$> rows) in
  (active_days, streak_from days_set today).

Definition _safe_activity (db : DB) (user_id guild_id : Z) : Z * Z * Z :=
  match user_activity db !! (user_id, guild_id) with
  | None => (0, 0, 0)
  | Some ua =>
      (default 0 (message_count ua),
       default 0 (reaction_count ua),
       default 0 (received_reactions ua))
  end.

Definition _engagement_score (messages reactions_made reactions_received
                              active_days streak : Z) : Q :=
  (inject_Z messages * 0.5
   + inject_Z reactions_received * 1.0
   + inject_Z reactions_made * 0.2
   + inject_Z active_days * 3.0
   + inject_Z streak * 2.0)%Q.

(** [stmt_author]: INSERT, or on conflict the UPDATE of five columns.
    [now] is the clock of the process, [db_now] the one of the database. *)
Definition upsert_author (t : gmap (Z * Z) UserEngagement) (key : Z * Z)
    (inc_made active_days streak : Z) (score : Q) (now db_now : datetime)
    : gmap (Z * Z) UserEngagement :=
  match t !! key with
  | None =>
      <[key := {| mentions_made := inc_made;
                  mentions_received := 0;
                  threads_created := 0;
                  invitations_sent := 0;
                  active_days_in_month := active_days;
                  streak_days := streak;
                  engagement_score := score;
                  last_update := now |}]> t
  | Some r =>
      <[key := {| mentions_made := mentions_made r + inc_made;
                  mentions_received := mentions_received r;
                  threads_created := threads_created r;
                  invitations_sent := invitations_sent r;
                  active_days_in_month := active_days;
                  streak_days := streak;
                  engagement_score := score;
                  last_update := db_now |}]> t
  end.

(** [stmt_m]: INSERT with the column defaults, or on conflict the UPDATE of
    [mentions_received] and [last_update]. *)
Definition upsert_mentioned (t : gmap (Z * Z) UserEngagement) (key : Z * Z)
    (now db_now : datetime) : gmap (Z * Z) UserEngagement :=
  match t !! key with
  | None =>
      <[key := {| mentions_made := 0;
                  mentions_received := 1;
                  threads_created := 0;
                  invitations_sent := 0;
                  active_days_in_month := 0;
                  streak_days := 0;
                  engagement_score := 0;
                  last_update := now |}]> t
  | Some r =>
      <[key := {| mentions_made := mentions_made r;
                  mentions_received := mentions_received r + 1;
                  threads_created := threads_created r;
                  invitations_sent := invitations_sent r;
                  active_days_in_month := active_days_in_month r;
                  streak_days := streak_days r;
                  engagement_score := engagement_score r;
                  last_update := db_now |}]> t
  end.

(** [process_message_engagement(author_id, guild_id, mentioned_user_ids)],
    run when the process clock reads [now]. *)
Definition process_message_engagement (db : DB) (author_id guild_id : Z)
    (mentioned_user_ids : list Z) (now db_now : datetime) : DB :=
  let today := dt_date now in
  let db1 := _ensure_user db author_id guild_id in
  let db2 := fold_left (fun d mid => _ensure_user d mid guild_id) mentioned_user_ids db1 in
  let '(messages, react_made, react_recv) := _safe_activity db2 author_id guild_id in
  let '(active_days, streak) := _compute_active_days_and_streak db2 author_id guild_id today in
  let score := _engagement_score messages react_made react_recv active_days streak in
  let inc_made := Z.of_nat (length mentioned_user_ids) in
  let t1 := upsert_author (user_engagement db2) (author_id, guild_id)
              inc_made active_days streak score now db_now in
  let t2 := fold_left (fun t mid => upsert_mentioned t (mid, guild_id) now db_now)
              mentioned_user_ids t1 in
  {| users := users db2;
     user_activity := user_activity db2;
     user_message_daily := user_message_daily db2;
     user_engagement := t2 |}.

(** *** The streak in the words of the specification *)

(** The days on which the Daily Counter Store holds a positive count for
    the user. *)
Definition counted_days (db : DB) (user_id guild_id : Z) : gset date :=
  list_to_set
    ((fun r : Z * Z * date * Z => r.1.2) <$>
       filter (fun r : Z * Z * date * Z =>
                 r.1.1.1 = user_id /\ r.1.1.2 = guild_id /\ 0 < r.2)
              (map_to_list (user_message_daily db))).

(** The number of consecutive calendar days ending [today] with a positive
    count. *)
Definition consecutive_days_ending (db : DB) (user_id guild_id : Z)
    (today : date) : Z :=
  streak_from (counted_days db user_id guild_id) today.

(** *** Example data *)

(** Four days of messages across the end of February 2024 for user 7 of
    guild 1, who has 10 messages, 2 reactions made and 5 received. *)
Definition leap_db : DB :=
  {| users := {[(7, 1)]};
     user_activity :=
       {[ (7, 1) := mkUserActivity (Some 10) (Some 2) (Some 5) ]};
     user_message_daily :=
       {[ (7, 1, mkdate 2024 2 28) := 3;
          (7, 1, mkdate 2024 2 29) := 1;
          (7, 1, mkdate 2024 3 1) := 2;
          (7, 1, mkdate 2024 3 2) := 1 ]};
     user_engagement := ∅ |}.

Definition noon (d : date) : datetime := mkdatetime d 43200000000.

(** Five days of messages in March 2024, two of them consecutive at the
    end, with the same activity counters. *)
Definition march_db : DB :=
  {| users := {[(7, 1)]};
     user_activity :=
       {[ (7, 1) := mkUserActivity (Some 10) (Some 2) (Some 5) ]};
     user_message_daily :=
       {[ (7, 1, mkdate 2024 3 1) := 4;
          (7, 1, mkdate 2024 3 4) := 1;
          (7, 1, mkdate 2024 3 5) := 2 ]};
     user_engagement :=
       {[ (8, 1) := mkUserEngagement 3 4 1 2 6 5 12.5 (noon (mkdate 2024 3 1)) ]} |}.

(** The column defaults of [user_engagement]. *)
Definition default_engagement : UserEngagement :=
  mkUserEngagement 0 0 0 0 0 0 0 (mkdatetime (mkdate 1 1 1) 0).

(** [r'] is [r] but for [mentions_received], raised by [n], and
    [last_update]. *)
Definition only_mentions_received_raised (r r' : UserEngagement) (n : Z) : Prop :=
  mentions_received r' = mentions_received r + n
  /\ mentions_made r' = mentions_made r
  /\ threads_created r' = threads_created r
  /\ invitations_sent r' = invitations_sent r
  /\ active_days_in_month r' = active_days_in_month r
  /\ streak_days r' = streak_days r
  /\ engagement_score r' = engagement_score r.

(** The table [user_engagement] once [stmt_author] has run, before the
    loop over the mentioned users. *)
Definition after_author_upsert (db : DB) (author_id guild_id : Z)
    (mentioned_user_ids : list Z) (now db_now : datetime)
    : gmap (Z * Z) UserEngagement :=
  let act := _safe_activity db author_id guild_id in
  let ds := _compute_active_days_and_streak db author_id guild_id (dt_date now) in
  upsert_author (user_engagement db) (author_id, guild_id)
    (Z.of_nat (length mentioned_user_ids)) ds.1 ds.2
    (_engagement_score act.1.1 act.1.2 act.2 ds.1 ds.2) now db_now.

(** *** The tables behind the derived metrics are only read *)

Lemma ensure_users_tables l guild_id : forall db,
  let db' := fold_left (fun d mid => _ensure_user d mid guild_id) l db in
  user_activity db' = user_activity db
  /\ user_message_daily db' = user_message_daily db
  /\ user_engagement db' = user_engagement db.
Proof.
  induction l as [|mid l IH]; intros db; simpl; [auto|].
  destruct (IH (_ensure_user db mid guild_id)) as (H1 & H2 & H3).
  rewrite H1, H2, H3. auto.
Qed.

Lemma safe_activity_ext db db' user_id guild_id :
  user_activity db' = user_activity db ->
  _safe_activity db' user_id guild_id = _safe_activity db user_id guild_id.
Proof. unfold _safe_activity. now intros ->. Qed.

Lemma compute_ext db db' user_id guild_id today :
  user_message_daily db' = user_message_daily db ->
  _compute_active_days_and_streak db' user_id guild_id today
  = _compute_active_days_and_streak db user_id guild_id today.
Proof. unfold _compute_active_days_and_streak, month_rows. now intros ->. Qed.

(** *** Mention counters *)

Lemma upsert_mentioned_same t key now db_now :
  exists row,
    upsert_mentioned t key now db_now !! key = Some row
    /\ only_mentions_received_raised (default default_engagement (t !! key)) row 1.
Proof.
  unfold upsert_mentioned.
  destruct (t !! key) as [r|] eqn:Hr; rewrite lookup_insert_eq; eexists;
    (split; [reflexivity|]); unfold only_mentions_received_raised; simpl;
    repeat split; lia.
Qed.

Lemma upsert_mentioned_other t key key' now db_now :
  key <> key' -> upsert_mentioned t key now db_now !! key' = t !! key'.
Proof.
  intros Hne. unfold upsert_mentioned.
  destruct (t !! key); now rewrite lookup_insert_ne.
Qed.

Lemma only_mentions_received_raised_trans r1 r2 r3 n m :
  only_mentions_received_raised r1 r2 n ->
  only_mentions_received_raised r2 r3 m ->
  only_mentions_received_raised r1 r3 (n + m).
Proof.
  unfold only_mentions_received_raised.
  intros (A1 & A2 & A3 & A4 & A5 & A6 & A7) (B1 & B2 & B3 & B4 & B5 & B6 & B7).
  repeat split; try congruence; lia.
Qed.

Lemma only_mentions_received_raised_refl r : only_mentions_received_raised r r 0.
Proof. unfold only_mentions_received_raised. repeat split; lia. Qed.

Lemma fold_upsert_mentioned l guild_id now db_now m : forall t,
  let t' := fold_left (fun t mid => upsert_mentioned t (mid, guild_id) now db_now) l t in
  only_mentions_received_raised
    (default default_engagement (t !! (m, guild_id)))
    (default default_engagement (t' !! (m, guild_id)))
    (Z.of_nat (count_occ Z.eq_dec l m))
  /\ (is_Some (t !! (m, guild_id)) \/ In m l -> is_Some (t' !! (m, guild_id))).
Proof.
  induction l as [|mid l IH]; intros t; simpl.
  - split; [apply only_mentions_received_raised_refl|]. intros [H|[]]; exact H.
  - destruct (IH (upsert_mentioned t (mid, guild_id) now db_now)) as [Hrel Hsome].
    destruct (Z.eq_dec mid m) as [->|Hne].
    + destruct (upsert_mentioned_same t (m, guild_id) now db_now) as (row & Hrow & Hstep).
      rewrite Hrow in Hrel, Hsome. simpl in Hrel. split.
      * replace (Z.of_nat (S (count_occ Z.eq_dec l m)))
          with (1 + Z.of_nat (count_occ Z.eq_dec l m)) by lia.
        eapply only_mentions_received_raised_trans; eassumption.
      * intros _. apply Hsome. left. by eexists.
    + rewrite upsert_mentioned_other in Hrel, Hsome by congruence.
      split; [exact Hrel|]. intros [H|[H|H]]; [auto|contradiction|auto].
Qed.

Lemma fold_upsert_mentioned_other l guild_id now db_now key : forall t,
  (forall mid, In mid l -> (mid, guild_id) <> key) ->
  fold_left (fun t mid => upsert_mentioned t (mid, guild_id) now db_now) l t !! key
  = t !! key.
Proof.
  induction l as [|mid l IH]; intros t Hout; simpl; [reflexivity|].
  rewrite IH by (intros; apply Hout; now right).
  apply upsert_mentioned_other. apply Hout. now left.
Qed.

Lemma upsert_author_other t key key' inc a s sc now db_now :
  key <> key' -> upsert_author t key inc a s sc now db_now !! key' = t !! key'.
Proof.
  intros Hne. unfold upsert_author.
  destruct (t !! key); now rewrite lookup_insert_ne.
Qed.

Lemma upsert_author_same t key inc a s sc now db_now :
  exists row,
    upsert_author t key inc a s sc now db_now !! key = Some row
    /\ active_days_in_month row = a /\ streak_days row = s
    /\ engagement_score row = sc.
Proof.
  unfold upsert_author.
  destruct (t !! key); rewrite lookup_insert_eq; eexists; repeat split.
Qed.

(** The table [user_engagement] after [process_message_engagement], in
    terms of the two upserts. *)
Lemma process_message_engagement_table db author_id guild_id mentioned now db_now :
  let act := _safe_activity db author_id guild_id in
  let ds := _compute_active_days_and_streak db author_id guild_id (dt_date now) in
  user_engagement
    (process_message_engagement db author_id guild_id mentioned now db_now)
  = fold_left (fun t mid => upsert_mentioned t (mid, guild_id) now db_now) mentioned
      (upsert_author (user_engagement db) (author_id, guild_id)
         (Z.of_nat (length mentioned)) ds.1 ds.2
         (_engagement_score act.1.1 act.1.2 act.2 ds.1 ds.2) now db_now).
Proof.
  intros act ds. unfold process_message_engagement.
  destruct (ensure_users_tables mentioned guild_id (_ensure_user db author_id guild_id))
    as (Hact & Hday & Heng).
  rewrite (safe_activity_ext db _ author_id guild_id Hact).
  rewrite (compute_ext db _ author_id guild_id (dt_date now) Hday).
  fold act ds. destruct act as [[messages made] recv], ds as [active streak].
  simpl. now rewrite Heng.
Qed.

(** C5.  The score written for the author is
    [0.5*messages + 1.0*reactions_received + 0.2*reactions_made
     + 3.0*active_days + 2.0*streak_days], computed from the activity
    counters and the two derived day counts as they are read during the
    call; the row written holds the same day counts; the previous row plays
    no part.  With 10 messages, 5 reactions received, 2 made, 3 active days
    and a streak of 2 the score is 23.4. *)
Theorem engagement_score_from_scratch
    (db : DB) (author_id guild_id : Z) (mentioned : list Z) (now db_now : datetime) :
  let act := _safe_activity db author_id guild_id in
  let messages := act.1.1 in
  let reactions_made := act.1.2 in
  let reactions_received := act.2 in
  let ds := _compute_active_days_and_streak db author_id guild_id (dt_date now) in
  let active_days := ds.1 in
  let streak := ds.2 in
  exists row,
    user_engagement
      (process_message_engagement db author_id guild_id mentioned now db_now)
      !! (author_id, guild_id) = Some row
    /\ (engagement_score row ==
          0.5 * inject_Z messages + 1.0 * inject_Z reactions_received
          + 0.2 * inject_Z reactions_made + 3.0 * inject_Z active_days
          + 2.0 * inject_Z streak)%Q
    /\ active_days_in_month row = active_days
    /\ streak_days row = streak
    /\ (messages = 10 -> reactions_received = 5 -> reactions_made = 2 ->
        active_days = 3 -> streak = 2 -> (engagement_score row == 23.4)%Q).
Proof.
  intros act messages reactions_made reactions_received ds active_days streak.
  rewrite process_message_engagement_table. fold act ds.
  fold messages reactions_made reactions_received active_days streak.
  match goal with |- context [upsert_author ?t ?k ?i ?a ?s ?sc ?n ?dn] =>
    destruct (upsert_author_same t k i a s sc n dn) as (r & Hr & Ha & Hs & Hsc);
    set (t1 := upsert_author t k i a s sc n dn) in *
  end.
  destruct (fold_upsert_mentioned mentioned guild_id now db_now author_id t1)
    as [Hrel Hsome].
  destruct Hsome as [row Hrow]; [left; by eexists|].
  rewrite Hrow, Hr in Hrel. simpl in Hrel.
  destruct Hrel as (_ & _ & _ & _ & Hactive & Hstreak & Hscore).
  assert (Hformula :
    (engagement_score row ==
       0.5 * inject_Z messages + 1.0 * inject_Z reactions_received
       + 0.2 * inject_Z reactions_made + 3.0 * inject_Z active_days
       + 2.0 * inject_Z streak)%Q).
  { rewrite Hscore, Hsc. unfold _engagement_score. lra. }
  exists row. repeat split; try congruence; try exact Hformula.
  intros -> -> -> -> ->. rewrite Hformula. reflexivity.
Qed.

Lemma engagement_score_from_scratch_witness :
  exists row,
    user_engagement
      (process_message_engagement march_db 7 1 [8; 9]
         (noon (mkdate 2024 3 5)) (noon (mkdate 2024 3 5)))
      !! (7, 1) = Some row
    /\ (engagement_score row == 23.4)%Q.
Proof.
  destruct (engagement_score_from_scratch march_db 7 1 [8; 9]
              (noon (mkdate 2024 3 5)) (noon (mkdate 2024 3 5)))
    as (row & Hrow & _ & _ & _ & Hex).
  exists row. split; [exact Hrow|]. apply Hex; reflexivity.
Defined.

(** C9.  For each mentioned user, the loop over the mentioned users raises
    [mentions_received] by one per mention (by 1 when the user is mentioned
    once) and sets [last_update]; relative to the table left by the
    author's upsert, the user's [engagement_score], [streak_days],
    [active_days_in_month] and the other engagement columns are unchanged,
    and for a mentioned user other than the author that table holds the
    row from before the call (the column defaults when there was none).
    Each single mention upsert raises [mentions_received] by 1, keeps the
    other engagement columns and leaves every other row as it is; the rows
    of users who are neither the author nor mentioned come out of the call
    untouched. *)
Theorem mention_only_raises_mentions_received
    (db : DB) (author_id guild_id : Z) (mentioned : list Z)
    (now db_now : datetime) (m : Z) :
  In m mentioned ->
  let t1 := after_author_upsert db author_id guild_id mentioned now db_now in
  let mentions := Z.of_nat (count_occ Z.eq_dec mentioned m) in
  (exists row,
     user_engagement
       (process_message_engagement db author_id guild_id mentioned now db_now)
       !! (m, guild_id) = Some row
     /\ only_mentions_received_raised
          (default default_engagement (t1 !! (m, guild_id))) row mentions
     /\ (List.NoDup mentioned -> mentions = 1)
     /\ (m <> author_id ->
         t1 !! (m, guild_id) = user_engagement db !! (m, guild_id)
         /\ only_mentions_received_raised
              (default default_engagement (user_engagement db !! (m, guild_id)))
              row mentions))
  /\ (forall t key,
        exists row,
          upsert_mentioned t key now db_now !! key = Some row
          /\ only_mentions_received_raised
               (default default_engagement (t !! key)) row 1)
  /\ (forall t key key',
        key <> key' -> upsert_mentioned t key now db_now !! key' = t !! key')
  /\ (forall key,
        key <> (author_id, guild_id) ->
        (forall mid, In mid mentioned -> (mid, guild_id) <> key) ->
        user_engagement
          (process_message_engagement db author_id guild_id mentioned now db_now)
          !! key = user_engagement db !! key).
Proof.
  intros Hin t1 mentions. split; [|split; [|split]].
  - rewrite process_message_engagement_table.
    change (upsert_author _ _ _ _ _ _ _ _) with t1.
    destruct (fold_upsert_mentioned mentioned guild_id now db_now m t1) as [Hrel Hsome].
    destruct Hsome as [row Hrow]; [now right|].
    rewrite Hrow in Hrel. simpl in Hrel. fold mentions in Hrel.
    exists row. split; [exact Hrow|]. split; [exact Hrel|]. split.
    + intros Hnodup. unfold mentions.
      rewrite (NoDup_count_occ' Z.eq_dec mentioned) in Hnodup.
      now rewrite (Hnodup m Hin).
    + intros Hne.
      assert (Hother : t1 !! (m, guild_id) = user_engagement db !! (m, guild_id)).
      { unfold t1, after_author_upsert. cbv zeta.
        apply upsert_author_other. congruence. }
      split; [exact Hother|]. now rewrite <- Hother.
  - intros t key. apply upsert_mentioned_same.
  - intros t key key'. apply upsert_mentioned_other.
  - intros key Hkey Hout. rewrite process_message_engagement_table.
    rewrite fold_upsert_mentioned_other by exact Hout.
    apply upsert_author_other. congruence.
Qed.

Lemma mention_only_raises_mentions_received_witness :
  exists row,
    user_engagement
      (process_message_engagement march_db 7 1 [8; 9]
         (noon (mkdate 2024 3 5)) (noon (mkdate 2024 3 5)))
      !! (8, 1) = Some row
    /\ only_mentions_received_raised
         (mkUserEngagement 3 4 1 2 6 5 12.5 (noon (mkdate 2024 3 1))) row 1.
Proof.
  destruct (mention_only_raises_mentions_received march_db 7 1 [8; 9]
              (noon (mkdate 2024 3 5)) (noon (mkdate 2024 3 5)) 8)
    as [(row & Hrow & _ & Hone & Hother) _].
  - simpl. auto.
  - exists row. split; [exact Hrow|].
    destruct Hother as [_ Hrel]; [discriminate|].
    rewrite Hone in Hrel; [exact Hrel|].
    repeat constructor; simpl; intuition discriminate.
Defined.

(** *** The streak stops at the first day of the month *)

Lemma month_rows_days db user_id guild_id today x :
  x ∈ (list_to_set (fst <$> month_rows db user_id guild_id today) : gset date) ->
  date_leb (replace_day_1 today) x = true
  /\ exists c, user_message_daily db !! (user_id, guild_id, x) = Some c /\ 0 < c.
Proof.
  rewrite elem_of_list_to_set, list_elem_of_fmap. intros ([d c] & Hx & Hin).
  simpl in Hx. subst x. unfold month_rows in Hin.
  apply list_elem_of_fmap in Hin as ([[[u g] d'] c'] & Heq & Hin).
  simpl in Heq. injection Heq as Hd Hc. subst d' c'.
  apply list_elem_of_filter in Hin as [(Hu & Hg & Hstart & _ & Hpos) Hin].
  simpl in *. subst u g. split; [exact Hstart|].
  exists c. split; [|exact Hpos]. now apply elem_of_map_to_list in Hin.
Qed.

Lemma streak_loop_month_bound (days : gset date) today :
  (forall x, x ∈ days -> date_leb (replace_day_1 today) x = true) ->
  forall fuel d streak,
    year d = year today -> month d = month today ->
    streak_loop fuel days d streak <= streak + Z.max 0 (day d).
Proof.
  intros Hdays. induction fuel as [|fuel IH]; intros d streak Hy Hm; simpl; [lia|].
  destruct (decide (d ∈ days)) as [Hd|Hd]; [|lia].
  assert (Hday : 1 <= day d).
  { apply Hdays in Hd. unfold date_leb, replace_day_1 in Hd. simpl in Hd. lia. }
  unfold prev_day. destruct (1 <? day d) eqn:Hgt.
  - etransitivity; [apply IH; simpl; assumption|]. simpl. lia.
  - assert (Hout : forall p, date_leb (replace_day_1 today) p = false ->
                             streak_loop fuel days p (streak + 1) = streak + 1).
    { intros p Hp. destruct fuel; simpl; [reflexivity|].
      destruct (decide (p ∈ days)) as [Hin|]; [|reflexivity].
      apply Hdays in Hin. congruence. }
    destruct (1 <? month d) eqn:Hmo; rewrite Hout; try lia;
      unfold date_leb, replace_day_1; simpl; lia.
Qed.

(** On any day, the streak computed for the engagement row is at most the
    day of the month. *)
Lemma streak_at_most_day_of_month db user_id guild_id today :
  (_compute_active_days_and_streak db user_id guild_id today).2
  <= Z.max 0 (day today).
Proof.
  unfold _compute_active_days_and_streak, streak_from. cbn [snd].
  set (days := list_to_set (fst <$> month_rows db user_id guild_id today) : gset date).
  pose proof (streak_loop_month_bound days today) as H.
  specialize (H (fun x Hx => proj1 (month_rows_days db user_id guild_id today x Hx))).
  specialize (H (S (size days)) today 0 eq_refl eq_refl). lia.
Qed.

(** *** The stored streak against the consecutive days of the store *)

Lemma month_days_iff db user_id guild_id today x :
  x ∈ (list_to_set (fst <$> month_rows db user_id guild_id today) : gset date)
  <-> (exists c, user_message_daily db !! (user_id, guild_id, x) = Some c /\ 0 < c)
      /\ date_leb (replace_day_1 today) x = true
      /\ date_leb x today = true.
Proof.
  rewrite elem_of_list_to_set, list_elem_of_fmap. split.
  - intros ([d c] & Hx & Hin). simpl in Hx. subst x. unfold month_rows in Hin.
    apply list_elem_of_fmap in Hin as ([[[u g] d'] c'] & Heq & Hin).
    simpl in Heq. injection Heq as Hd Hc. subst d' c'.
    apply list_elem_of_filter in Hin as [(Hu & Hg & Hstart & Hend & Hpos) Hin].
    simpl in *. subst u g. repeat split; try assumption.
    exists c. split; [|exact Hpos]. now apply elem_of_map_to_list in Hin.
  - intros ((c & Hc & Hpos) & Hstart & Hend). exists (x, c). split; [reflexivity|].
    unfold month_rows. apply list_elem_of_fmap.
    exists (user_id, guild_id, x, c). split; [reflexivity|].
    apply list_elem_of_filter. split.
    + simpl. auto.
    + now apply elem_of_map_to_list.
Qed.

Lemma counted_days_iff db user_id guild_id x :
  x ∈ counted_days db user_id guild_id
  <-> exists c, user_message_daily db !! (user_id, guild_id, x) = Some c /\ 0 < c.
Proof.
  unfold counted_days. rewrite elem_of_list_to_set, list_elem_of_fmap. split.
  - intros ([[[u g] d] c] & Hx & Hin). simpl in Hx. subst x.
    apply list_elem_of_filter in Hin as [(Hu & Hg & Hpos) Hin].
    simpl in *. subst u g. exists c. split; [|exact Hpos].
    now apply elem_of_map_to_list in Hin.
  - intros (c & Hc & Hpos). exists (user_id, guild_id, x, c). split; [reflexivity|].
    apply list_elem_of_filter. split.
    + simpl. auto.
    + now apply elem_of_map_to_list.
Qed.

Lemma streak_loop_ge fuel days : forall d streak,
  streak <= streak_loop fuel days d streak.
Proof.
  induction fuel as [|fuel IH]; intros d streak; simpl; [lia|].
  destruct (decide (d ∈ days)); [|lia].
  specialize (IH (prev_day d) (streak + 1)). lia.
Qed.

(** With the same fuel, the loop over the days of the month is the loop over
    all counted days, cut at the number of days back to the 1st. *)
Lemma streak_loop_cut (all in_month : gset date) today :
  (forall x, x ∈ in_month <->
             x ∈ all /\ date_leb (replace_day_1 today) x = true
             /\ date_leb x today = true) ->
  forall fuel d streak,
    year d = year today -> month d = month today -> 1 <= day d <= day today ->
    streak_loop fuel in_month d streak
    = Z.min (streak_loop fuel all d streak) (streak + day d).
Proof.
  intros Hsets. induction fuel as [|fuel IH]; intros d streak Hy Hm Hday; simpl; [lia|].
  assert (Hiff : d ∈ in_month <-> d ∈ all).
  { rewrite Hsets. unfold date_leb, replace_day_1. simpl.
    rewrite Hy, Hm. split; [tauto|]. intros H. split; [exact H|]. lia. }
  destruct (decide (d ∈ in_month)) as [Hin|Hin];
    destruct (decide (d ∈ all)) as [Hall|Hall]; try tauto; [|lia].
  unfold prev_day. destruct (1 <? day d) eqn:Hgt.
  - rewrite IH by (simpl; lia). simpl. f_equal. lia.
  - assert (Hd1 : day d = 1) by lia.
    match goal with |- streak_loop fuel in_month ?p _ = _ =>
      assert (Hout : p ∉ in_month)
    end.
    { rewrite Hsets. unfold date_leb, replace_day_1.
      destruct (1 <? month d); simpl; intros (_ & H & _); lia. }
    match goal with |- _ = Z.min (streak_loop fuel all ?p ?k) _ =>
      pose proof (streak_loop_ge fuel all p k) as Hge
    end.
    destruct fuel as [|fuel]; simpl in *; [lia|].
    destruct (1 <? month d); destruct (decide (_ ∈ in_month)); try contradiction; lia.
Qed.

(** The streak stored for the engagement row is the number of consecutive
    counted days ending today, cut at the day of the month. *)
Lemma streak_is_cut_at_day_of_month db user_id guild_id today :
  1 <= day today ->
  (_compute_active_days_and_streak db user_id guild_id today).2
  = Z.min (consecutive_days_ending db user_id guild_id today) (day today).
Proof.
  intros Hday. unfold _compute_active_days_and_streak, consecutive_days_ending.
  cbn [snd].
  set (in_month := list_to_set (fst <$> month_rows db user_id guild_id today) : gset date).
  set (all := counted_days db user_id guild_id).
  set (fuel := S (size in_month + size all)).
  rewrite <- (streak_from_total in_month today fuel) by (unfold fuel; lia).
  rewrite <- (streak_from_total all today fuel) by (unfold fuel; lia).
  rewrite (streak_loop_cut all in_month today); try reflexivity; [|lia].
  intros x. unfold in_month, all. rewrite month_days_iff, counted_days_iff. tauto.
Qed.

End UserEngagement.

(** ** [user_profile.py]: the read-side snapshot *)

Module UserProfile.

Import Dates.

Local Open Scope Z_scope.

(** The two tables read by the functions below: [user_message_daily], and
    of each row of [messages] its user, its guild and the date of its
    timestamp. *)
Record DB := mkDB {
  user_message_daily : gmap (Z * Z * date) Z;
  messages : list (Z * Z * date)
}.

(** [_sum_umd]: the sum of [count] over the days [d0 <= day <= d1] of the
    user, 0 when there is no row. *)
Definition _sum_umd (db : DB) (user_id guild_id : Z) (d0 d1 : date) : Z :=
  foldr Z.add 0
    (snd <$>
       filter (fun r : Z * Z * date * Z =>
                 r.1.1.1 = user_id /\ r.1.1.2 = guild_id
                 /\ date_leb d0 r.1.2 = true /\ date_leb r.1.2 d1 = true)
              (map_to_list (user_message_daily db))).

(** [_streak_days], with [max_lookback] days: the days with a positive
    count since [today - max_lookback], or, when there is none, the days of
    the user's messages since then; then the loop from [today]. *)
Definition _streak_days (db : DB) (user_id guild_id : Z) (today : date)
    (max_lookback : nat) : Z :=
  let since := minus_days today max_lookback in
  let rows :=
    (fun r : Z * Z * date * Z => r.1.2) <$>
      filter (fun r : Z * Z * date * Z =>
                r.1.1.1 = user_id /\ r.1.1.2 = guild_id
                /\ date_leb since r.1.2 = true /\ 0 < r.2)
             (map_to_list (user_message_daily db)) in
  let days : gset date := list_to_set rows in
  let days : gset date :=
    if decide (days = ∅)
    then list_to_set
           ((fun m : Z * Z * date => m.2) <$>
              filter (fun m : Z * Z * date =>
                        m.1.1 = user_id /\ m.1.2 = guild_id
                        /\ date_leb since m.2 = true)
                     (messages db))
    else days in
  streak_from days today.

(** [round(x, 1)] on exact values: the nearest multiple of 0.1, a tie going
    to the even one. *)
Definition round_half_even (x : Q) : Z :=
  let f := Qfloor x in
  match (x - inject_Z f ?= 1 # 2)%Q with
  | Lt => f
  | Gt => f + 1
  | Eq => if Z.even f then f else f + 1
  end.

Definition round1 (x : Q) : Q := (inject_Z (round_half_even (x * 10)) / 10)%Q.

(** The block [Delta 7j vs 7j précédents] of [get_user_snapshot]. *)
Definition delta7 (sum_curr sum_prev : Z) : Q :=
  if (sum_curr =? 0) && (sum_prev =? 0) then 0.0%Q
  else if sum_prev =? 0 then 100.0%Q
  else (inject_Z (sum_curr - sum_prev) * 100.0 / inject_Z (Z.max 1 sum_prev))%Q.

(** The same block in binary64, and [round(x, 1)] on a finite float: the
    one-digit decimal nearest to the exact value of the float, a tie going
    to the even digit, then the float nearest to that decimal. *)
Definition delta7_f64 (sum_curr sum_prev : Z) : float :=
  if (sum_curr =? 0) && (sum_prev =? 0) then 0.0%float
  else if sum_prev =? 0 then 100.0%float
  else (F64.of_Z (sum_curr - sum_prev) * 100.0 / F64.of_Z (Z.max 1 sum_prev))%float.

Definition round1_f64 (x : float) : float :=
  let k := round_half_even (F64.to_Q x * 10) in
  if (k =? 0) && F64.sign x then (- 0.0)%float
  else (F64.of_Z k / 10.0)%float.

(** The entries [streak_days] and [delta7] of the dictionary returned by
    [get_user_snapshot], for the day [today]. *)
Record MessagesSnapshot := mkMessagesSnapshot {
  snap_streak_days : Z;
  snap_delta7 : Q
}.

Definition get_user_snapshot (db : DB) (guild_id user_id : Z) (today : date)
    : MessagesSnapshot :=
  let sum_curr := _sum_umd db user_id guild_id (minus_days today 6) today in
  let sum_prev :=
    _sum_umd db user_id guild_id (minus_days today 13) (minus_days today 7) in
  {| snap_streak_days := _streak_days db user_id guild_id today 180;
     snap_delta7 := round1 (delta7 sum_curr sum_prev) |}.

(** *** Example data *)

(** User 7 of guild 1 wrote 3 messages in the previous 7-day window and 4 in
    the current one, seen from 2024-03-20. *)
Definition trend_db_3_4 : DB :=
  {| user_message_daily :=
       {[ (7, 1, mkdate 2024 3 8) := 3;
          (7, 1, mkdate 2024 3 14) := 1;
          (7, 1, mkdate 2024 3 20) := 3 ]};
     messages := [] |}.

(** The same user with 10 messages in the previous window and 5 in the
    current one. *)
Definition trend_db_10_5 : DB :=
  {| user_message_daily :=
       {[ (7, 1, mkdate 2024 3 7) := 6;
          (7, 1, mkdate 2024 3 13) := 4;
          (7, 1, mkdate 2024 3 15) := 5;
          (7, 1, mkdate 2024 3 6) := 9;
          (7, 1, mkdate 2024 3 21) := 2 ]};
     messages := [] |}.

(** *** Rounding *)

Lemma round_half_even_near x :
  (-(1 # 2) <= inject_Z (round_half_even x) - x <= 1 # 2)%Q.
Proof.
  unfold round_half_even. cbv zeta.
  pose proof (Qfloor_le x) as Hlo. pose proof (Qlt_floor x) as Hhi.
  rewrite inject_Z_plus in Hhi. change (inject_Z 1) with 1%Q in Hhi.
  destruct (Qcompare_spec (x - inject_Z (Qfloor x)) (1 # 2)) as [E|E|E].
  - destruct (Z.even (Qfloor x)).
    + lra.
    + rewrite inject_Z_plus. change (inject_Z 1) with 1%Q. lra.
  - lra.
  - rewrite inject_Z_plus. change (inject_Z 1) with 1%Q. lra.
Qed.

Lemma round1_near x : (-(1 # 20) <= round1 x - x <= 1 # 20)%Q.
Proof.
  unfold round1. pose proof (round_half_even_near (x * 10)) as H.
  set (r := inject_Z (round_half_even (x * 10))) in *.
  assert (E : (r / 10 == r * (1 # 10))%Q) by (unfold Qdiv; reflexivity).
  rewrite E. lra.
Qed.

(** *** The 7-day trend *)

Lemma delta7_ratio sum_curr sum_prev :
  0 < sum_prev ->
  (delta7 sum_curr sum_prev ==
     (inject_Z sum_curr - inject_Z sum_prev) / inject_Z sum_prev * 100)%Q.
Proof.
  intros Hpos. unfold delta7.
  replace (sum_prev =? 0) with false by (symmetry; apply Z.eqb_neq; lia).
  rewrite andb_false_r. rewrite Z.max_r by lia.
  unfold Zminus. rewrite inject_Z_plus, inject_Z_opp.
  assert (Hnz : ~ (inject_Z sum_prev == 0)%Q).
  { change 0%Q with (inject_Z 0). rewrite inject_Z_injective. lia. }
  field. exact Hnz.
Qed.

Lemma round_half_even_comp x y : (x == y)%Q -> round_half_even x = round_half_even y.
Proof.
  intros E. unfold round_half_even. cbv zeta.
  rewrite (Qfloor_comp x y E).
  assert (E' : (x - inject_Z (Qfloor y) == y - inject_Z (Qfloor y))%Q) by (rewrite E; reflexivity).
  now rewrite (Qcompare_comp _ _ E' (1 # 2) (1 # 2) (Qeq_refl _)).
Qed.

Lemma round1_comp x y : (x == y)%Q -> (round1 x == round1 y)%Q.
Proof.
  intros E. unfold round1.
  assert (E10 : (x * 10 == y * 10)%Q) by (rewrite E; reflexivity).
  now rewrite (round_half_even_comp _ _ E10).
Qed.

Lemma round1_tenths x (k : Z) : (x == inject_Z k / 10)%Q -> (round1 x == x)%Q.
Proof.
  intros E.
  assert (E10 : (x * 10 == inject_Z k)%Q) by (rewrite E; field).
  unfold round1. rewrite (round_half_even_comp _ _ E10).
  unfold round_half_even. cbv zeta. rewrite Qfloor_Z.
  assert (E0 : (inject_Z k - inject_Z k == 0)%Q) by ring.
  rewrite (Qcompare_comp _ _ E0 (1 # 2) (1 # 2) (Qeq_refl _)).
  simpl. now rewrite E.
Qed.

(** C7, as the code has it.  With [curr7] the sum of the daily counts over
    [today-6 .. today] and [prev7] the sum over [today-13 .. today-7], both
    non-negative, the trend of the snapshot is 0 when both are zero, 100
    when only [prev7] is zero, and otherwise [(curr7 - prev7)/prev7 * 100]
    rounded to one decimal: a multiple of 0.1 within 0.05 of the exact
    percentage, and equal to it when that is a multiple of 0.1, as with
    [prev7 = 10], [curr7 = 5] and the trend -50.  When the exact percentage
    is halfway between two multiples of 0.1, the binary64 quotient decides
    the side: the window sums 2001 and 2000 give 0.1. *)
Theorem trend_percentage (db : DB) (guild_id user_id : Z) (today : date) :
  let curr7 := _sum_umd db user_id guild_id (minus_days today 6) today in
  let prev7 :=
    _sum_umd db user_id guild_id (minus_days today 13) (minus_days today 7) in
  let trend := snap_delta7 (get_user_snapshot db guild_id user_id today) in
  let exact := ((inject_Z curr7 - inject_Z prev7) / inject_Z prev7 * 100)%Q in
  0 <= curr7 ->
  0 <= prev7 ->
  (curr7 = 0 -> prev7 = 0 -> (trend == 0)%Q)
  /\ (curr7 <> 0 -> prev7 = 0 -> (trend == 100)%Q)
  /\ (prev7 <> 0 ->
      (exists k : Z, (trend == inject_Z k / 10)%Q)
      /\ (-(1 # 20) <= trend - exact <= 1 # 20)%Q
      /\ (forall k : Z, (exact == inject_Z k / 10)%Q -> (trend == exact)%Q))
  /\ (prev7 = 10 -> curr7 = 5 -> (trend == -50)%Q)
  /\ round1_f64 (delta7_f64 0 0) = 0.0%float
  /\ round1_f64 (delta7_f64 5 0) = 100.0%float
  /\ round1_f64 (delta7_f64 5 10) = (-50.0)%float
  /\ round1_f64 (delta7_f64 4 3) = 33.3%float
  /\ round1_f64 (delta7_f64 2001 2000) = 0.1%float.
Proof.
  intros curr7 prev7 trend exact Hc Hp.
  assert (Htrend : trend = round1 (delta7 curr7 prev7)) by reflexivity.
  assert (Hexact : prev7 <> 0 -> (trend == round1 exact)%Q).
  { intros Hnz. rewrite Htrend. apply round1_comp, delta7_ratio. lia. }
  split; [|split; [|split; [|split]]].
  - intros E1 E2. rewrite Htrend, E1, E2. reflexivity.
  - intros E1 E2. rewrite Htrend, E2. unfold delta7.
    replace (curr7 =? 0) with false by (symmetry; apply Z.eqb_neq; lia).
    reflexivity.
  - intros Hnz. split; [|split].
    + exists (round_half_even (exact * 10)). rewrite (Hexact Hnz). reflexivity.
    + rewrite (Hexact Hnz). apply round1_near.
    + intros k Hk. rewrite (Hexact Hnz). now apply round1_tenths with k.
  - intros E1 E2. rewrite Htrend, E1, E2. reflexivity.
  - vm_compute. repeat apply conj; reflexivity.
Qed.

Lemma trend_percentage_witness :
  (snap_delta7 (get_user_snapshot trend_db_10_5 1 7 (mkdate 2024 3 20)) == -50)%Q.
Proof.
  apply (trend_percentage trend_db_10_5 1 7 (mkdate 2024 3 20)).
  - vm_compute. discriminate.
  - vm_compute. discriminate.
  - reflexivity.
  - reflexivity.
Defined.

(** With 3 messages in the previous window and 4 in the current one, the
    snapshot holds 33.3, which is not [(4 - 3)/3 * 100]. *)
Lemma trend_is_rounded :
  let db := trend_db_3_4 in
  let today := mkdate 2024 3 20 in
  _sum_umd db 7 1 (minus_days today 6) today = 4
  /\ _sum_umd db 7 1 (minus_days today 13) (minus_days today 7) = 3
  /\ (snap_delta7 (get_user_snapshot db 1 7 today) == 33.3)%Q
  /\ ~ (snap_delta7 (get_user_snapshot db 1 7 today) == (4 - 3) / 3 * 100)%Q.
Proof. vm_compute. repeat split; discriminate. Qed.

End UserProfile.

(** ** The streak of the engagement row against the daily counters *)

Module Streaks.

Import Dates.

Local Open Scope Z_scope.

(** C3 fails on the code.  On 2024-03-02, with counted messages on each of
    the four days 02-28, 02-29, 03-01 and 03-02, four consecutive days end
    today, and the snapshot's [_streak_days] counts 4 on the same table,
    but [process_message_engagement] stores [streak_days = 2]: its query
    keeps the days of the current month only. *)
Theorem streak_cut_at_month_start :
  let db := UserEngagement.leap_db in
  let today := mkdate 2024 3 2 in
  let after :=
    UserEngagement.process_message_engagement db 7 1 [] (UserEngagement.noon today)
      (UserEngagement.noon today) in
  UserEngagement.consecutive_days_ending db 7 1 today = 4
  /\ UserProfile._streak_days
       (UserProfile.mkDB (UserEngagement.user_message_daily db) []) 7 1 today 180 = 4
  /\ (UserEngagement.streak_days <$> UserEngagement.user_engagement after !! (7, 1))
     = Some 2.
Proof. vm_compute. repeat split. Qed.

End Streaks.

(** ** [admin_commands.py]: toxicity alerts *)

Module AdminCommands.

Local Open Scope Z_scope.

(** A row of [monitored_users], under the key [(user_id, guild_id)].
    Timestamps are microseconds. *)
Record MonitoredUser := mkMonitoredUser {
  threshold : option Q;
  last_alert : option Z
}.

Record DB := mkDB {
  monitored_users : gmap (Z * Z) MonitoredUser;
  user_ai_analysis : gmap (Z * Z) AiAnalysis.UserAIAnalysis
}.

(** What the bot sees of a guild: the private channel found by
    [get_bot_channel], the owner, and whether a direct message to the owner
    goes through (a failure of [owner.send] is swallowed by the code; a send
    to the bot channel is taken to succeed). *)
Record Guild := mkGuild {
  bot_channel : option Z;
  owner : option Z;
  owner_accepts_dm : bool
}.

(** [bot.get_guild]. *)
Definition Bot := Z -> option Guild.

(** The text of an alert: the user, the current score and the threshold. *)
Record Alert := mkAlert {
  alert_user : Z;
  alert_tox : Q;
  alert_threshold : Q
}.

(** The effects of [check_toxicity_and_alert], in the order they happen. *)
Inductive Event :=
| CommitLastAlert (at_time : Z)
| ChannelSend (channel : Z) (msg : Alert)
| OwnerSend (owner_id : Z) (msg : Alert).

Definition is_notification (e : Event) : bool :=
  match e with
  | CommitLastAlert _ => false
  | ChannelSend _ _ | OwnerSend _ _ => true
  end.

Definition notifications (events : list Event) : list Event :=
  List.filter is_notification events.

(** [timedelta(hours=2)]. *)
Definition two_hours : Z := 2 * 3600 * 1000000.

(** [float(row["threshold"] or 0.8)]. *)
Definition threshold_of (row : MonitoredUser) : Q :=
  match threshold row with
  | Some t => if Qeq_bool t 0 then 0.8%Q else t
  | None => 0.8%Q
  end.

(** Lines 248-263: the delivery of the alert. *)
Definition send_alert (bot : Bot) (guild_id : Z) (msg : Alert) : list Event :=
  match bot guild_id with
  | None => []
  | Some guild =>
      match bot_channel guild with
      | Some chan => [ChannelSend chan msg]
      | None =>
          match owner guild with
          | Some o => if owner_accepts_dm guild then [OwnerSend o msg] else []
          | None => []
          end
      end
  end.

(** [last_alert and (now - last_alert) < timedelta(hours=2)]. *)
Definition cooldown_active (last_alert : option Z) (now : Z) : bool :=
  match last_alert with
  | Some la => now - la <? two_hours
  | None => false
  end.

(** [UPDATE monitored_users SET last_alert = NOW() WHERE ...], committed. *)
Definition set_last_alert (db : DB) (key : Z * Z) (now : Z) : DB :=
  {| monitored_users :=
       alter (fun row => {| threshold := threshold row; last_alert := Some now |})
             key (monitored_users db);
     user_ai_analysis := user_ai_analysis db |}.

(** The toxicity read by the alert engine. *)
Definition toxicity_of (db : DB) (key : Z * Z) : option Q :=
  user_ai_analysis db !! key ≫= AiAnalysis.toxicity_level.

(** [check_toxicity_and_alert(bot, guild_id, user_id)] at time [now], the
    process and the database reading the same clock. *)
Definition check_toxicity_and_alert (bot : Bot) (db : DB) (guild_id user_id : Z)
    (now : Z) : DB * list Event :=
  match monitored_users db !! (user_id, guild_id) with
  | None => (db, [])
  | Some row =>
      let threshold := threshold_of row in
      match toxicity_of db (user_id, guild_id) with
      | None => (db, [])
      | Some tox =>
          if Qlt_le_dec tox threshold then (db, [])
          else if cooldown_active (last_alert row) now then (db, [])
          else
            (set_last_alert db (user_id, guild_id) now,
             CommitLastAlert now
               :: send_alert bot guild_id (mkAlert user_id tox threshold))
      end
  end.

(** *** Vocabulary of the statements *)

(** A notification can be delivered for the guild: the guild resolves and
    has a bot channel, or an owner who accepts direct messages. *)
Definition deliverable (bot : Bot) (guild_id : Z) : bool :=
  match bot guild_id with
  | None => false
  | Some guild =>
      match bot_channel guild, owner guild with
      | Some _, _ => true
      | None, Some _ => owner_accepts_dm guild
      | None, None => false
      end
  end.

(** The cooldown is over: there was no alert yet, or the last one is at
    least two hours old. *)
Definition cooldown_over (last_alert : option Z) (now : Z) : Prop :=
  match last_alert with
  | None => True
  | Some la => two_hours <= now - la
  end.

Definition last_alert_of (db : DB) (key : Z * Z) : option Z :=
  monitored_users db !! key ≫= last_alert.

Definition minutes (n : Z) : Z := n * 60 * 1000000.

(** *** Example data *)

(** User 7 of guild 1 is watched at 0.8, was never alerted, and has a
    stored toxicity of 0.9. *)
Definition watched_db : DB :=
  {| monitored_users := {[ (7, 1) := mkMonitoredUser (Some 0.8%Q) None ]};
     user_ai_analysis :=
       {[ (7, 1) := AiAnalysis.mkAI (Some "negative"%string) (Some ∅) None
                      (Some 0.9%Q) 0 ]} |}.

(** A bot that resolves guild 1, with its private channel 500. *)
Definition bot_with_channel : Bot :=
  fun g => if g =? 1 then Some (mkGuild (Some 500) (Some 42) true) else None.

(** A bot that resolves no guild. *)
Definition bot_without_guild : Bot := fun _ => None.

(** A bot that resolves guild 1, which has no private channel but an owner
    who accepts direct messages. *)
Definition bot_with_owner_only : Bot :=
  fun g => if g =? 1 then Some (mkGuild None (Some 42) true) else None.

(** *** Facts about one check *)

Lemma notifications_send_alert bot guild_id msg :
  notifications (send_alert bot guild_id msg) = send_alert bot guild_id msg.
Proof.
  unfold send_alert. destruct (bot guild_id) as [g|]; [|reflexivity].
  destruct (bot_channel g); [reflexivity|].
  destruct (owner g); [|reflexivity]. now destruct (owner_accepts_dm g).
Qed.

Lemma send_alert_length bot guild_id msg :
  length (send_alert bot guild_id msg) = if deliverable bot guild_id then 1%nat else 0%nat.
Proof.
  unfold send_alert, deliverable. destruct (bot guild_id) as [g|]; [|reflexivity].
  destruct (bot_channel g); [reflexivity|].
  destruct (owner g); [|reflexivity]. now destruct (owner_accepts_dm g).
Qed.

Lemma threshold_of_Some row thr :
  threshold row = Some thr -> ~ (thr == 0)%Q -> threshold_of row = thr.
Proof.
  intros Hthr Hnz. unfold threshold_of. rewrite Hthr.
  destruct (Qeq_bool thr 0) eqn:E; [|reflexivity].
  apply Qeq_bool_iff in E. contradiction.
Qed.

Lemma check_fires bot db guild_id user_id now row tox :
  monitored_users db !! (user_id, guild_id) = Some row ->
  toxicity_of db (user_id, guild_id) = Some tox ->
  (threshold_of row <= tox)%Q ->
  cooldown_active (last_alert row) now = false ->
  check_toxicity_and_alert bot db guild_id user_id now
  = (set_last_alert db (user_id, guild_id) now,
     CommitLastAlert now
       :: send_alert bot guild_id (mkAlert user_id tox (threshold_of row))).
Proof.
  intros Hrow Htox Hge Hcool. unfold check_toxicity_and_alert.
  rewrite Hrow, Htox. cbv zeta.
  destruct (Qlt_le_dec tox (threshold_of row)) as [Hlt|_].
  - exfalso. apply (Qlt_not_le _ _ Hlt Hge).
  - now rewrite Hcool.
Qed.

Lemma check_quiet bot db guild_id user_id now row tox :
  monitored_users db !! (user_id, guild_id) = Some row ->
  toxicity_of db (user_id, guild_id) = Some tox ->
  (tox < threshold_of row)%Q \/ cooldown_active (last_alert row) now = true ->
  check_toxicity_and_alert bot db guild_id user_id now = (db, []).
Proof.
  intros Hrow Htox Hquiet. unfold check_toxicity_and_alert.
  rewrite Hrow, Htox. cbv zeta.
  destruct (Qlt_le_dec tox (threshold_of row)) as [Hlt|Hge]; [reflexivity|].
  destruct Hquiet as [Hlt|Hcool].
  - exfalso. apply (Qlt_not_le _ _ Hlt Hge).
  - now rewrite Hcool.
Qed.

Lemma last_alert_of_set db key now row :
  monitored_users db !! key = Some row ->
  monitored_users (set_last_alert db key now) !! key
  = Some {| threshold := threshold row; last_alert := Some now |}.
Proof.
  intros Hrow. unfold set_last_alert. simpl.
  rewrite lookup_alter_eq, Hrow. reflexivity.
Qed.

Lemma cooldown_active_false la now :
  cooldown_active la now = false <-> cooldown_over la now.
Proof.
  unfold cooldown_active, cooldown_over. destruct la as [l|]; [|tauto].
  rewrite Z.ltb_ge. tauto.
Qed.

Lemma cooldown_active_true la now :
  cooldown_active la now = true <-> ~ cooldown_over la now.
Proof.
  rewrite <- cooldown_active_false. destruct (cooldown_active la now); split; congruence.
Qed.

(** Two checks [gap] apart, both on a breach, the first one with no alert
    behind it and with delivery available: one notification when the gap
    is under two hours, two otherwise. *)
Lemma two_checks bot db guild_id user_id now gap row tox :
  monitored_users db !! (user_id, guild_id) = Some row ->
  toxicity_of db (user_id, guild_id) = Some tox ->
  (threshold_of row <= tox)%Q ->
  last_alert row = None ->
  deliverable bot guild_id = true ->
  let r1 := check_toxicity_and_alert bot db guild_id user_id now in
  let r2 := check_toxicity_and_alert bot r1.1 guild_id user_id (now + gap) in
  length (notifications r1.2 ++ notifications r2.2)
  = if gap <? two_hours then 1%nat else 2%nat.
Proof.
  intros Hrow Htox Hge Hnone Hdel r1 r2.
  assert (E1 : r1 = (set_last_alert db (user_id, guild_id) now,
                     CommitLastAlert now
                       :: send_alert bot guild_id (mkAlert user_id tox (threshold_of row)))).
  { apply check_fires; auto. now rewrite Hnone. }
  pose proof (last_alert_of_set db (user_id, guild_id) now row Hrow) as Hrow'.
  set (row' := {| threshold := threshold row; last_alert := Some now |}) in *.
  assert (Hthr' : threshold_of row' = threshold_of row) by reflexivity.
  assert (Hcool : cooldown_active (last_alert row') (now + gap) = (gap <? two_hours)).
  { simpl. f_equal. lia. }
  assert (Hlen1 : length (notifications r1.2) = 1%nat).
  { rewrite E1. simpl. rewrite notifications_send_alert, send_alert_length.
    now rewrite Hdel. }
  rewrite length_app, Hlen1.
  assert (Htox' : toxicity_of (set_last_alert db (user_id, guild_id) now)
                    (user_id, guild_id) = Some tox) by exact Htox.
  unfold r2. rewrite E1. simpl fst.
  destruct (gap <? two_hours) eqn:Hgap.
  - rewrite (check_quiet bot _ guild_id user_id (now + gap) row' tox Hrow' Htox').
    + reflexivity.
    + right. exact Hcool.
  - rewrite (check_fires bot _ guild_id user_id (now + gap) row' tox Hrow' Htox').
    + simpl. rewrite notifications_send_alert, send_alert_length. now rewrite Hdel.
    + now rewrite Hthr'.
    + exact Hcool.
Qed.

(** C6, as the code has it.  A check on a user without monitored entry
    changes nothing and sends nothing.  For a watched user with a non-zero
    threshold [thr] and stored toxicity [tox]: when delivery is available
    (the guild resolves and has a bot channel or a reachable owner), exactly
    one notification is sent if [tox >= thr] and the cooldown is over, and
    none otherwise; [last_alert] becomes [now] whenever [tox >= thr] and the
    cooldown is over; a reading below the threshold, or within the
    cooldown, changes nothing.  Hence, with delivery available, two
    breaches 90 minutes apart give one notification and two breaches 3
    hours apart give two. *)
Theorem alert_when_breach_and_cooldown_over
    (bot : Bot) (db : DB) (guild_id user_id now : Z) :
  let key := (user_id, guild_id) in
  let r := check_toxicity_and_alert bot db guild_id user_id now in
  (monitored_users db !! key = None -> r = (db, []))
  /\ (forall row thr tox,
        monitored_users db !! key = Some row ->
        threshold row = Some thr ->
        ~ (thr == 0)%Q ->
        toxicity_of db key = Some tox ->
        (deliverable bot guild_id = true ->
           (exists n, notifications r.2 = [n])
           <-> ((thr <= tox)%Q /\ cooldown_over (last_alert row) now))
        /\ ((thr <= tox)%Q -> cooldown_over (last_alert row) now ->
            last_alert_of r.1 key = Some now)
        /\ ((tox < thr)%Q -> r = (db, []))
        /\ (~ cooldown_over (last_alert row) now -> r = (db, []))
        /\ ((thr <= tox)%Q -> last_alert row = None ->
            deliverable bot guild_id = true ->
            forall gap,
              let r2 := check_toxicity_and_alert bot r.1 guild_id user_id (now + gap) in
              let sent := length (notifications r.2 ++ notifications r2.2) in
              (gap = minutes 90 -> sent = 1%nat)
              /\ (gap = minutes 180 -> sent = 2%nat)
              /\ (gap < two_hours -> sent = 1%nat)
              /\ (two_hours <= gap -> sent = 2%nat))).
Proof.
  intros key r. split.
  - intros Hnone. unfold r, check_toxicity_and_alert. fold key. now rewrite Hnone.
  - intros row thr tox Hrow Hthr Hnz Htox.
    pose proof (threshold_of_Some row thr Hthr Hnz) as Heff.
    assert (Hfire : (thr <= tox)%Q -> cooldown_over (last_alert row) now ->
              r = (set_last_alert db key now,
                   CommitLastAlert now
                     :: send_alert bot guild_id (mkAlert user_id tox (threshold_of row)))).
    { intros Hge Hover. apply check_fires; auto.
      - now rewrite Heff.
      - now apply cooldown_active_false. }
    assert (Hbelow : (tox < thr)%Q -> r = (db, [])).
    { intros Hlt. apply (check_quiet bot db guild_id user_id now row tox); auto.
      left. now rewrite Heff. }
    assert (Hcool : ~ cooldown_over (last_alert row) now -> r = (db, [])).
    { intros Hnot. apply (check_quiet bot db guild_id user_id now row tox); auto.
      right. now apply cooldown_active_true. }
    split; [|split; [|split; [|split]]]; auto.
    + intros Hdel. split.
      * intros [n Hn].
        destruct (Qlt_le_dec tox thr) as [Hlt|Hge].
        { rewrite (Hbelow Hlt) in Hn. discriminate. }
        split; [exact Hge|].
        destruct (cooldown_active (last_alert row) now) eqn:E.
        { apply cooldown_active_true in E. rewrite (Hcool E) in Hn. discriminate. }
        now apply cooldown_active_false.
      * intros [Hge Hover]. rewrite (Hfire Hge Hover). simpl.
        rewrite notifications_send_alert.
        pose proof (send_alert_length bot guild_id
                      (mkAlert user_id tox (threshold_of row))) as Hlen.
        rewrite Hdel in Hlen.
        destruct (send_alert bot guild_id _) as [|n [|]]; try discriminate.
        now exists n.
    + intros Hge Hover. rewrite (Hfire Hge Hover). unfold last_alert_of. simpl fst.
      now rewrite (last_alert_of_set db key now row Hrow).
    + intros Hge Hnone Hdel gap r2 sent.
      assert (Hsent : sent = if gap <? two_hours then 1%nat else 2%nat).
      { apply (two_checks bot db guild_id user_id now gap row tox); auto.
        now rewrite Heff. }
      repeat split; intros Hgap; rewrite Hsent.
      * now rewrite Hgap.
      * now rewrite Hgap.
      * replace (gap <? two_hours) with true by (symmetry; now apply Z.ltb_lt). reflexivity.
      * replace (gap <? two_hours) with false by (symmetry; now apply Z.ltb_ge). reflexivity.
Qed.

Lemma alert_when_breach_and_cooldown_over_witness :
  let r := check_toxicity_and_alert bot_with_channel watched_db 1 7 1000 in
  let r90 := check_toxicity_and_alert bot_with_channel r.1 1 7 (1000 + minutes 90) in
  let r180 := check_toxicity_and_alert bot_with_channel r.1 1 7 (1000 + minutes 180) in
  length (notifications r.2 ++ notifications r90.2) = 1%nat
  /\ length (notifications r.2 ++ notifications r180.2) = 2%nat.
Proof.
  destruct (alert_when_breach_and_cooldown_over bot_with_channel watched_db 1 7 1000)
    as [_ H].
  specialize (H (mkMonitoredUser (Some 0.8%Q) None) 0.8%Q 0.9%Q).
  destruct H as (_ & _ & _ & _ & H); try reflexivity; try discriminate.
  assert (Hge : (0.8 <= 0.9)%Q) by discriminate.
  split.
  - destruct (H Hge eq_refl eq_refl (minutes 90)) as (H90 & _). now apply H90.
  - destruct (H Hge eq_refl eq_refl (minutes 180)) as (_ & H180 & _). now apply H180.
Defined.

(** A breach with the cooldown over and no guild behind the id: the alert
    conditions hold, [last_alert] moves to [now], nothing is sent. *)
Lemma breach_without_guild_sends_nothing :
  let r := check_toxicity_and_alert bot_without_guild watched_db 1 7 1000 in
  monitored_users watched_db !! (7, 1) = Some (mkMonitoredUser (Some 0.8%Q) None)
  /\ toxicity_of watched_db (7, 1) = Some 0.9%Q
  /\ (0.8 <= 0.9)%Q
  /\ cooldown_over None 1000
  /\ last_alert_of r.1 (7, 1) = Some 1000
  /\ notifications r.2 = [].
Proof. vm_compute. repeat split. discriminate. Qed.

(** C10, as the code has it.  When the threshold and cooldown conditions
    hold, the commit of [last_alert = now] is the first effect and every
    later effect is a send; [last_alert] is [now] afterwards whatever the
    bot resolves.  Nothing is sent when the guild does not resolve, or when
    it has no bot channel and no owner who can be reached; with no bot
    channel and a reachable owner the alert goes to the owner. *)
Theorem last_alert_committed_before_delivery
    (bot : Bot) (db : DB) (guild_id user_id now : Z)
    (row : MonitoredUser) (tox : Q) :
  monitored_users db !! (user_id, guild_id) = Some row ->
  toxicity_of db (user_id, guild_id) = Some tox ->
  (threshold_of row <= tox)%Q ->
  cooldown_over (last_alert row) now ->
  let r := check_toxicity_and_alert bot db guild_id user_id now in
  let msg := mkAlert user_id tox (threshold_of row) in
  (exists sends, r.2 = CommitLastAlert now :: sends /\ notifications sends = sends)
  /\ last_alert_of r.1 (user_id, guild_id) = Some now
  /\ (bot guild_id = None -> notifications r.2 = [])
  /\ (forall guild,
        bot guild_id = Some guild -> bot_channel guild = None ->
        owner guild = None \/ owner_accepts_dm guild = false ->
        notifications r.2 = [])
  /\ (forall guild o,
        bot guild_id = Some guild -> bot_channel guild = None ->
        owner guild = Some o -> owner_accepts_dm guild = true ->
        notifications r.2 = [OwnerSend o msg])
  /\ (forall guild chan,
        bot guild_id = Some guild -> bot_channel guild = Some chan ->
        notifications r.2 = [ChannelSend chan msg]).
Proof.
  intros Hrow Htox Hge Hover r msg.
  assert (E : r = (set_last_alert db (user_id, guild_id) now,
                   CommitLastAlert now :: send_alert bot guild_id msg)).
  { apply check_fires; auto. now apply cooldown_active_false. }
  rewrite E. simpl fst. simpl snd.
  change (notifications (CommitLastAlert now :: send_alert bot guild_id msg))
    with (notifications (send_alert bot guild_id msg)).
  rewrite notifications_send_alert.
  split; [|split; [|split; [|split; [|split]]]].
  - eexists. split; [reflexivity|]. apply notifications_send_alert.
  - unfold last_alert_of. now rewrite (last_alert_of_set db _ now row Hrow).
  - intros Hg. unfold send_alert. now rewrite Hg.
  - intros guild Hg Hc Ho. unfold send_alert. rewrite Hg, Hc.
    destruct Ho as [->| ->]; [reflexivity|]. now destruct (owner guild).
  - intros guild o Hg Hc Ho Hdm. unfold send_alert. now rewrite Hg, Hc, Ho, Hdm.
  - intros guild chan Hg Hc. unfold send_alert. now rewrite Hg, Hc.
Qed.

Lemma last_alert_committed_before_delivery_witness :
  let r := check_toxicity_and_alert bot_without_guild watched_db 1 7 1000 in
  last_alert_of r.1 (7, 1) = Some 1000 /\ notifications r.2 = [].
Proof.
  destruct (last_alert_committed_before_delivery bot_without_guild watched_db 1 7 1000
              (mkMonitoredUser (Some 0.8%Q) None) 0.9%Q)
    as (_ & Hlast & Hnone & _).
  - reflexivity.
  - reflexivity.
  - vm_compute. discriminate.
  - exact I.
  - split; [exact Hlast|]. apply Hnone. reflexivity.
Defined.

(** A breach with the cooldown over in a guild without bot channel whose
    owner accepts direct messages: no channel is available, and a
    notification is sent all the same, to the owner. *)
Lemma owner_notified_without_channel :
  let r := check_toxicity_and_alert bot_with_owner_only watched_db 1 7 1000 in
  (bot_with_owner_only 1 ≫= bot_channel) = None
  /\ last_alert_of r.1 (7, 1) = Some 1000
  /\ notifications r.2 = [OwnerSend 42 (mkAlert 7 0.9%Q 0.8%Q)]
  /\ notifications r.2 <> [].
Proof. vm_compute. repeat split. discriminate. Qed.

End AdminCommands.


(** ** [user_activity.py]: activity counters and the daily counter *)

Module Activity.

Import Dates.

Local Open Scope Z_scope.

(** The largest value of an [Integer] column. *)
Definition INT4_MAX : Z := 2147483647.

(** A row of [user_activity], under the key [(user_id, guild_id)]; the
    column [average_message_length] is a binary64 float. *)
Record UserActivity := mkUserActivity {
  message_count : Z;
  average_message_length : float;
  most_used_channel : option string;
  last_message_time : option datetime;
  reaction_count : Z;
  received_reactions : Z;
  last_update : datetime
}.

(** The two tables written by the module, and the keys
    [(user_id, guild_id)] of the table [users], which their foreign keys
    refer to. *)
Record DB := mkDB {
  users : gset (Z * Z);
  user_activity : gmap (Z * Z) UserActivity;
  user_message_daily : gmap (Z * Z * date) Z
}.

(** [_increment_daily_counter]: INSERT with [count = 1], or on conflict
    [count = count + 1]. *)
Definition _increment_daily_counter (umd : gmap (Z * Z * date) Z)
    (user_id guild_id : Z) (when : datetime) : gmap (Z * Z * date) Z :=
  let key := (user_id, guild_id, dt_date when) in
  match umd !! key with
  | None => <[key := 1]> umd
  | Some count => <[key := count + 1]> umd
  end.

(** The operators [*], [+] and [/] of the database on float8: the binary64
    result, or [None] where PostgreSQL raises "value out of range"
    (overflow, underflow) or "division by zero". *)
Definition float8mul (a b : float) : option float :=
  let r := (a * b)%float in
  if is_infinity r && negb (is_infinity a) && negb (is_infinity b) then None
  else if PrimFloat.is_zero r && negb (PrimFloat.is_zero a)
          && negb (PrimFloat.is_zero b) then None
  else Some r.

Definition float8pl (a b : float) : option float :=
  let r := (a + b)%float in
  if is_infinity r && negb (is_infinity a) && negb (is_infinity b) then None
  else Some r.

Definition float8div (a b : float) : option float :=
  if PrimFloat.is_zero b && negb (is_nan a) then None
  else
    let r := (a / b)%float in
    if is_infinity r && negb (is_infinity a) then None
    else if PrimFloat.is_zero r && negb (PrimFloat.is_zero a)
            && negb (is_infinity b) then None
    else Some r.

(** The new mean of the upsert,
    [(average_message_length * message_count + L) / (message_count + 1)],
    the integers being converted to float8. *)
Definition mean_step (avg : float) (count L : Z) : option float :=
  match float8mul avg (F64.of_Z count) with
  | None => None
  | Some p =>
      match float8pl p (F64.of_Z L) with
      | None => None
      | Some s => float8div s (F64.of_Z (count + 1))
      end
  end.

(** The upsert of [user_activity] in [process_new_message].  [None] stands
    for a statement that raises: the INSERT of a row for a user without
    row in [users] (foreign key), [message_count + 1] beyond [INT4_MAX]
    (integer out of range), or an error of the float8 arithmetic. *)
Definition upsert_message (db : DB) (key : Z * Z) (channel_name : string)
    (L : Z) (now db_now : datetime) : option (gmap (Z * Z) UserActivity) :=
  match user_activity db !! key with
  | None =>
      if bool_decide (key ∈ users db)
      then Some (<[key := {| message_count := 1;
                             average_message_length := F64.of_Z L;
                             most_used_channel := Some channel_name;
                             last_message_time := Some now;
                             reaction_count := 0;
                             received_reactions := 0;
                             last_update := now |}]> (user_activity db))
      else None
  | Some r =>
      if INT4_MAX <=? message_count r then None
      else
        match mean_step (average_message_length r) (message_count r) L with
        | None => None
        | Some mean =>
            Some (<[key := {| message_count := message_count r + 1;
                              average_message_length := mean;
                              most_used_channel := Some channel_name;
                              last_message_time := Some now;
                              reaction_count := reaction_count r;
                              received_reactions := received_reactions r;
                              last_update := db_now |}]> (user_activity db))
        end
  end.

(** The statement of [_increment_daily_counter] as the database runs it:
    it raises on the INSERT of a row for a user without row in [users],
    and on a count beyond [INT4_MAX]. *)
Definition daily_counter_raises (db : DB) (user_id guild_id : Z) (when : datetime)
    : bool :=
  match user_message_daily db !! (user_id, guild_id, dt_date when) with
  | None => negb (bool_decide ((user_id, guild_id) ∈ users db))
  | Some count => INT4_MAX <=? count
  end.

(** [process_new_message], when the process clock reads [now] and the
    database clock [db_now]: the tables once the two statements are
    committed.  [None]: one of them raises; the function reports the error
    and the transaction it runs in is rolled back, so that nothing is
    stored. *)
Definition process_new_message (db : DB) (user_id guild_id : Z)
    (channel_name : string) (content : option string) (now db_now : datetime)
    : option DB :=
  let L := Z.of_nat (String.length (default EmptyString content)) in
  match upsert_message db (user_id, guild_id) channel_name L now db_now with
  | None => None
  | Some t =>
      if daily_counter_raises db user_id guild_id now then None
      else
        Some {| users := users db;
                user_activity := t;
                user_message_daily :=
                  _increment_daily_counter (user_message_daily db)
                    user_id guild_id now |}
  end.

(** [stmt_actor] of [process_reaction_add]; [None] when it raises. *)
Definition upsert_reactor (users : gset (Z * Z)) (t : gmap (Z * Z) UserActivity)
    (key : Z * Z) (db_now : datetime) : option (gmap (Z * Z) UserActivity) :=
  match t !! key with
  | None =>
      if bool_decide (key ∈ users)
      then Some (<[key := {| message_count := 0;
                             average_message_length := 0.0%float;
                             most_used_channel := None;
                             last_message_time := None;
                             reaction_count := 1;
                             received_reactions := 0;
                             last_update := db_now |}]> t)
      else None
  | Some r =>
      if INT4_MAX <=? reaction_count r then None
      else
        Some (<[key := {| message_count := message_count r;
                          average_message_length := average_message_length r;
                          most_used_channel := most_used_channel r;
                          last_message_time := last_message_time r;
                          reaction_count := reaction_count r + 1;
                          received_reactions := received_reactions r;
                          last_update := db_now |}]> t)
  end.

(** [stmt_target] of [process_reaction_add]; [None] when it raises. *)
Definition upsert_target (users : gset (Z * Z)) (t : gmap (Z * Z) UserActivity)
    (key : Z * Z) (db_now : datetime) : option (gmap (Z * Z) UserActivity) :=
  match t !! key with
  | None =>
      if bool_decide (key ∈ users)
      then Some (<[key := {| message_count := 0;
                             average_message_length := 0.0%float;
                             most_used_channel := None;
                             last_message_time := None;
                             reaction_count := 0;
                             received_reactions := 1;
                             last_update := db_now |}]> t)
      else None
  | Some r =>
      if INT4_MAX <=? received_reactions r then None
      else
        Some (<[key := {| message_count := message_count r;
                          average_message_length := average_message_length r;
                          most_used_channel := most_used_channel r;
                          last_message_time := last_message_time r;
                          reaction_count := reaction_count r;
                          received_reactions := received_reactions r + 1;
                          last_update := db_now |}]> t)
  end.

(** [process_reaction_add] in a session of its own: the tables once the two
    statements are committed.  [None]: one of them raises; the session is
    rolled back and nothing is stored. *)
Definition process_reaction_add (db : DB) (reactor_id target_author_id guild_id : Z)
    (db_now : datetime) : option DB :=
  match upsert_reactor (users db) (user_activity db) (reactor_id, guild_id) db_now with
  | None => None
  | Some t1 =>
      match upsert_target (users db) t1 (target_author_id, guild_id) db_now with
      | None => None
      | Some t2 =>
          Some {| users := users db;
                  user_activity := t2;
                  user_message_daily := user_message_daily db |}
      end
  end.

(** [on_reaction_add] of [main.py]: reactions by a bot, outside a guild, or
    on a bot's message are dropped; the error of a reaction that cannot be
    stored is caught, and the tables stay as they were. *)
Definition on_reaction_add (db : DB) (user_is_bot : bool) (guild : option Z)
    (user_id author_id : Z) (author_is_bot : bool) (db_now : datetime) : DB :=
  match guild with
  | None => db
  | Some guild_id =>
      if user_is_bot then db
      else if author_is_bot then db
      else default db (process_reaction_add db user_id author_id guild_id db_now)
  end.

(** *** Vocabulary of the statements *)

(** A message event: its channel, content and the two clock readings. *)
Record MessageEvent := mkMessageEvent {
  ev_channel : string;
  ev_content : option string;
  ev_now : datetime;
  ev_db_now : datetime
}.

(** [process_new_message] for the messages of one user, in order, when
    none of them raises. *)
Fixpoint process_messages (db : DB) (user_id guild_id : Z)
    (events : list MessageEvent) : option DB :=
  match events with
  | [] => Some db
  | e :: events' =>
      match process_new_message db user_id guild_id
              (ev_channel e) (ev_content e) (ev_now e) (ev_db_now e) with
      | None => None
      | Some db' => process_messages db' user_id guild_id events'
      end
  end.

(** The sum of the daily counts of a user over all days. *)
Definition daily_total (umd : gmap (Z * Z * date) Z) (user_id guild_id : Z) : Z :=
  map_fold (fun (k : Z * Z * date) c acc =>
              if decide (k.1 = (user_id, guild_id)) then c + acc else acc)
           0 umd.

(** The message count of a user, 0 without a row. *)
Definition messages_of (db : DB) (user_id guild_id : Z) : Z :=
  match user_activity db !! (user_id, guild_id) with
  | Some r => message_count r
  | None => 0
  end.

(** The counters agree: every user's [message_count] is the sum of the
    user's daily counts. *)
Definition counters_agree (db : DB) : Prop :=
  forall user_id guild_id,
    messages_of db user_id guild_id
    = daily_total (user_message_daily db) user_id guild_id.

(** A user, a guild and the time of a counted message. *)
Definition counter_key (e : Z * Z * datetime) : Z * Z * date :=
  (e.1.1, e.1.2, dt_date e.2).

(** The increments of a list of events, in order. *)
Definition increment_all (umd : gmap (Z * Z * date) Z)
    (events : list (Z * Z * datetime)) : gmap (Z * Z * date) Z :=
  fold_left (fun t e => _increment_daily_counter t e.1.1 e.1.2 e.2) events umd.

(** How many events of the list fall on the key. *)
Definition hits (events : list (Z * Z * datetime)) (key : Z * Z * date) : Z :=
  Z.of_nat (length (filter (fun e => counter_key e = key) events)).

(** The reactions given and received by a user, 0 without a row. *)
Definition reactions_of (db : DB) (key : Z * Z) : Z * Z :=
  match user_activity db !! key with
  | Some r => (reaction_count r, received_reactions r)
  | None => (0, 0)
  end.

(** The length that [process_new_message] counts for an event. *)
Definition content_length (e : MessageEvent) : Z :=
  Z.of_nat (String.length (default EmptyString (ev_content e))).

(** The mean and the count stored for a user. *)
Definition stored (db : DB) (key : Z * Z) : option (float * Z) :=
  (fun r => (average_message_length r, message_count r)) <$> user_activity db !! key.

(** The mean and the count after messages of the given lengths, in the
    arithmetic of the upsert: the first length for a user without row,
    then [(mean * count + L) / (count + 1)] in binary64. *)
Definition mean_after (avg : float) (count L : Z) : float :=
  ((avg * F64.of_Z count + F64.of_Z L) / F64.of_Z (count + 1))%float.

Fixpoint running_mean (row : option (float * Z)) (lengths : list Z)
    : option (float * Z) :=
  match lengths with
  | [] => row
  | L :: lengths' =>
      running_mean
        (Some match row with
              | None => (F64.of_Z L, 1)
              | Some (avg, count) => (mean_after avg count L, count + 1)
              end)
        lengths'
  end.

(** [average_message_length * message_count] in binary64. *)
Definition mean_times_count (row : float * Z) : float :=
  (row.1 * F64.of_Z row.2)%float.

(** The events the module handles, when each runs in a session of its
    own. *)
Inductive Op :=
  | NewMessage (user_id guild_id : Z) (channel_name : string)
               (content : option string) (now db_now : datetime)
  | ReactionAdd (reactor_id target_author_id guild_id : Z) (db_now : datetime).

Definition statements (db : DB) (op : Op) : option DB :=
  match op with
  | NewMessage u g ch c now db_now => process_new_message db u g ch c now db_now
  | ReactionAdd r t g db_now => process_reaction_add db r t g db_now
  end.

(** What an event leaves behind: the tables after its statements when they
    are committed; the tables as they were when the session is rolled
    back, because a statement raised, for one of the causes above or for
    any other one. *)
Inductive handled (db : DB) (op : Op) : DB -> Prop :=
  | handled_commit db' : statements db op = Some db' -> handled db op db'
  | handled_rollback : handled db op db.

Inductive handled_all : DB -> list Op -> DB -> Prop :=
  | handled_nil db : handled_all db [] db
  | handled_cons db op db1 ops db' :
      handled db op db1 -> handled_all db1 ops db' ->
      handled_all db (op :: ops) db'.

(** The run in which a session is rolled back only when the tables make a
    statement raise. *)
Definition apply_op (db : DB) (op : Op) : DB := default db (statements db op).

Definition run (db : DB) (ops : list Op) : DB := fold_left apply_op ops db.

(** The counters agree and no [message_count] is negative. *)
Definition well_formed (db : DB) : Prop :=
  counters_agree db /\ forall user_id guild_id, 0 <= messages_of db user_id guild_id.

(** *** Example data *)

Definition t0 : datetime := mkdatetime (mkdate 2024 3 5) 1000.
Definition t1 : datetime := mkdatetime (mkdate 2024 3 5) 2000.
Definition t2 : datetime := mkdatetime (mkdate 2024 3 6) 500.

(** No activity yet; the members 7 and 8 of guild 1 have a row in
    [users], the member 9 has none. *)
Definition empty_db : DB :=
  {| users := {[ (7, 1); (8, 1) ]}; user_activity := ∅; user_message_daily := ∅ |}.

Definition three_messages : list MessageEvent :=
  [ mkMessageEvent "general" (Some "hello") t0 t0;
    mkMessageEvent "general" None t1 t1;
    mkMessageEvent "dev" (Some "bonjour a tous") t2 t2 ].

(** A text of [n] characters, and seven messages of 34, 0, 60, 56, 24, 43
    and 13 characters, 230 in all. *)
Fixpoint text (n : nat) : string :=
  match n with
  | O => EmptyString
  | S n' => String "a" (text n')
  end.

Definition seven_lengths : list nat := [34; 0; 60; 56; 24; 43; 13]%nat.

Definition seven_messages : list MessageEvent :=
  (fun n => mkMessageEvent "general" (Some (text n)) t0 t0) <$> seven_lengths.

(** *** The daily counter *)

Lemma increment_lookup umd user_id guild_id when key :
  _increment_daily_counter umd user_id guild_id when !! key
  = if decide ((user_id, guild_id, dt_date when) = key)
    then Some (default 0 (umd !! key) + 1)
    else umd !! key.
Proof.
  unfold _increment_daily_counter. cbv zeta.
  destruct (decide ((user_id, guild_id, dt_date when) = key)) as [<-|Hne].
  - destruct (umd !! _) eqn:E; rewrite lookup_insert_eq; simpl; f_equal; lia.
  - destruct (umd !! (user_id, guild_id, dt_date when)); now rewrite lookup_insert_ne.
Qed.

Lemma hits_cons e events key :
  hits (e :: events) key
  = (if decide (counter_key e = key) then 1 else 0) + hits events key.
Proof.
  unfold hits. rewrite filter_cons.
  destruct (decide (counter_key e = key)); simpl length; lia.
Qed.

Lemma hits_nonneg events key : 0 <= hits events key.
Proof. unfold hits. lia. Qed.

Lemma increment_all_lookup events : forall umd key,
  increment_all umd events !! key
  = if decide (hits events key = 0) then umd !! key
    else Some (default 0 (umd !! key) + hits events key).
Proof.
  induction events as [|e events IH]; intros umd key; [reflexivity|].
  change (increment_all umd (e :: events))
    with (increment_all (_increment_daily_counter umd e.1.1 e.1.2 e.2) events).
  rewrite IH, increment_lookup, hits_cons. fold (counter_key e).
  pose proof (hits_nonneg events key) as Hn.
  destruct (decide (counter_key e = key)) as [He|He];
    destruct (decide (hits events key = 0)) as [E|E];
    repeat match goal with |- context [decide ?P] => destruct (decide P) end;
    try lia; try reflexivity; simpl; f_equal; lia.
Qed.

(** X1.  Whatever the table and the order of the events, increments add
    up: after the increments of a list of message events, the count of a
    key is its previous count (0 without a row) plus the number of events
    on that user, guild and day; a key no event falls on keeps its row or
    its absence; and two orders of the same events give the same table. *)
Theorem daily_increments_add_up
    (umd : gmap (Z * Z * date) Z) (events : list (Z * Z * datetime)) :
  (forall key,
      hits events key <> 0 ->
      increment_all umd events !! key
      = Some (default 0 (umd !! key) + hits events key))
  /\ (forall key,
        hits events key = 0 -> increment_all umd events !! key = umd !! key)
  /\ (forall events',
        events ≡ₚ events' -> increment_all umd events' = increment_all umd events).
Proof.
  split; [|split].
  - intros key Hn. rewrite increment_all_lookup. now destruct (decide _).
  - intros key Hn. rewrite increment_all_lookup. now destruct (decide _).
  - intros events' Hperm. apply map_eq. intros key.
    rewrite !increment_all_lookup.
    assert (Hhits : hits events' key = hits events key).
    { unfold hits. f_equal. apply Permutation_length.
      now rewrite Hperm. }
    now rewrite Hhits.
Qed.

Lemma daily_increments_add_up_witness :
  increment_all ∅ [(7, 1, t0); (8, 1, t0); (7, 1, t1); (7, 1, t2)]
    !! (7, 1, mkdate 2024 3 5) = Some 2
  /\ increment_all ∅ [(7, 1, t2); (7, 1, t1); (8, 1, t0); (7, 1, t0)]
     = increment_all ∅ [(7, 1, t0); (8, 1, t0); (7, 1, t1); (7, 1, t2)].
Proof.
  destruct (daily_increments_add_up ∅ [(7, 1, t0); (8, 1, t0); (7, 1, t1); (7, 1, t2)])
    as (Hadd & _ & Hperm).
  split.
  - rewrite Hadd; [reflexivity|]. vm_compute. discriminate.
  - apply Hperm. symmetry.
    exact (reverse_Permutation [(7, 1, t0); (8, 1, t0); (7, 1, t1); (7, 1, t2)]).
Defined.

(** *** The message counter and the mean of a user *)

Lemma mean_step_value avg count L mean :
  mean_step avg count L = Some mean -> mean = mean_after avg count L.
Proof.
  unfold mean_step, float8mul, float8pl, float8div, mean_after. cbv zeta.
  intros H. repeat case_match; simplify_eq; reflexivity.
Qed.

Lemma daily_total_insert umd key c user_id guild_id :
  umd !! key = None ->
  daily_total (<[key := c]> umd) user_id guild_id
  = (if decide (key.1 = (user_id, guild_id)) then c else 0)
    + daily_total umd user_id guild_id.
Proof.
  intros Hnone. unfold daily_total.
  rewrite map_fold_insert_L; [|intros; repeat case_decide; lia|exact Hnone].
  case_decide; lia.
Qed.

Lemma daily_total_increment umd u g when user_id guild_id :
  daily_total (_increment_daily_counter umd u g when) user_id guild_id
  = daily_total umd user_id guild_id
    + (if decide ((u, g) = (user_id, guild_id)) then 1 else 0).
Proof.
  unfold _increment_daily_counter. cbv zeta.
  destruct (umd !! (u, g, dt_date when)) as [c|] eqn:Hrow.
  - rewrite <- (insert_delete_id umd _ _ Hrow) at 2.
    rewrite <- insert_delete_eq.
    rewrite !daily_total_insert by apply lookup_delete_eq.
    simpl. case_decide; lia.
  - rewrite daily_total_insert by exact Hrow. simpl. case_decide; lia.
Qed.

Lemma process_new_message_step db u g channel content now db_now db' :
  process_new_message db u g channel content now db_now = Some db' ->
  exists r,
    user_activity db' = <[(u, g) := r]> (user_activity db)
    /\ message_count r = messages_of db u g + 1
    /\ (0 <= messages_of db u g -> message_count r <= INT4_MAX)
    /\ stored db' (u, g)
       = running_mean (stored db (u, g))
           [Z.of_nat (String.length (default EmptyString content))]
    /\ most_used_channel r = Some channel
    /\ last_message_time r = Some now
    /\ (reaction_count r, received_reactions r) = reactions_of db (u, g)
    /\ users db' = users db
    /\ user_message_daily db'
       = _increment_daily_counter (user_message_daily db) u g now.
Proof.
  unfold process_new_message, upsert_message, messages_of, stored, reactions_of.
  cbv zeta. intros H.
  destruct (user_activity db !! (u, g)) as [r|] eqn:Hrow.
  - destruct (INT4_MAX <=? message_count r) eqn:Hmax; [discriminate|].
    destruct (mean_step _ _ _) as [mean|] eqn:Hmean; [|discriminate].
    destruct (daily_counter_raises db u g now); [discriminate|].
    injection H as <-. eexists. split; [reflexivity|]. simpl.
    rewrite lookup_insert_eq. simpl.
    apply mean_step_value in Hmean as ->.
    repeat apply conj; try reflexivity. lia.
  - destruct (bool_decide ((u, g) ∈ users db)); [|discriminate].
    destruct (daily_counter_raises db u g now); [discriminate|].
    injection H as <-. eexists. split; [reflexivity|]. simpl.
    rewrite lookup_insert_eq. simpl.
    repeat apply conj; try reflexivity. unfold INT4_MAX. lia.
Qed.

Lemma process_new_message_counts db u g channel content now db_now db' :
  process_new_message db u g channel content now db_now = Some db' ->
  forall user_id guild_id,
    messages_of db' user_id guild_id
    = messages_of db user_id guild_id
      + (if decide ((u, g) = (user_id, guild_id)) then 1 else 0)
    /\ daily_total (user_message_daily db') user_id guild_id
       = daily_total (user_message_daily db) user_id guild_id
         + (if decide ((u, g) = (user_id, guild_id)) then 1 else 0).
Proof.
  intros H user_id guild_id.
  destruct (process_new_message_step _ _ _ _ _ _ _ _ H)
    as (r & Hrows & Hcount & _ & _ & _ & _ & _ & _ & Hdaily).
  split; [|rewrite Hdaily; apply daily_total_increment].
  unfold messages_of at 1. rewrite Hrows. case_decide as Hk.
  - injection Hk as <- <-. rewrite lookup_insert_eq. exact Hcount.
  - rewrite lookup_insert_ne by congruence.
    fold (messages_of db user_id guild_id). lia.
Qed.

Lemma process_messages_result db u g events db' :
  process_messages db u g events = Some db' ->
  messages_of db' u g = messages_of db u g + Z.of_nat (length events)
  /\ stored db' (u, g) = running_mean (stored db (u, g)) (content_length <$> events)
  /\ reactions_of db' (u, g) = reactions_of db (u, g)
  /\ (forall key, key <> (u, g) -> user_activity db' !! key = user_activity db !! key)
  /\ users db' = users db
  /\ daily_total (user_message_daily db') u g
     = daily_total (user_message_daily db) u g + Z.of_nat (length events)
  /\ (forall e, last events = Some e ->
        exists r, user_activity db' !! (u, g) = Some r
          /\ most_used_channel r = Some (ev_channel e)
          /\ last_message_time r = Some (ev_now e)).
Proof.
  revert db. induction events as [|e events IH]; intros db H.
  - injection H as <-. simpl. repeat apply conj; try reflexivity; try lia.
    intros e [=].
  - simpl in H.
    destruct (process_new_message db u g (ev_channel e) (ev_content e) (ev_now e)
                (ev_db_now e)) as [db1|] eqn:Hstep; [|discriminate].
    destruct (process_new_message_step _ _ _ _ _ _ _ _ Hstep)
      as (r & Hrows & Hcount & _ & Hmean & Hchan & Htime & Hreact & Husers & _).
    destruct (process_new_message_counts _ _ _ _ _ _ _ _ Hstep u g) as [Hm1 Hd1].
    rewrite decide_True in Hm1, Hd1 by reflexivity.
    destruct (IH db1 H) as (Hn & Hs & Hr & Hframe & Hu & Hd & Hlast).
    assert (Hrow1 : user_activity db1 !! (u, g) = Some r).
    { rewrite Hrows. apply lookup_insert_eq. }
    repeat apply conj.
    + rewrite Hn, Hm1. simpl length. lia.
    + rewrite Hs, Hmean. reflexivity.
    + rewrite Hr. unfold reactions_of at 1. rewrite Hrow1. exact Hreact.
    + intros key Hkey. rewrite (Hframe key Hkey), Hrows.
      now rewrite lookup_insert_ne.
    + congruence.
    + rewrite Hd, Hd1. simpl length. lia.
    + intros e' He'. destruct events as [|e2 events].
      * injection He' as <-. injection H as <-. exists r. now repeat split.
      * apply Hlast. exact He'.
Qed.

(** X2.  When the transactions of a list of messages of a user are all
    committed, the user's [message_count] and the sum of the user's daily
    counts have grown by the number of messages, the mean is the one that
    the formula of the upsert gives in binary64 from the stored mean and
    count and the lengths in order, the channel and the time kept are the
    ones of the last message, and the reaction counts, the other users'
    rows and [users] are as before.  A message is refused, and nothing is
    stored for it, when the user has neither a row in [user_activity] nor
    one in [users], when [message_count] has reached [INT4_MAX], and when
    the count of the day has.  The stored mean times the count need not be
    the total length: after seven messages of 34, 0, 60, 56, 24, 43 and 13
    characters, 230 in all, the mean is 32.857142857142854 and its product
    with 7 is 229.99999999999997. *)
Theorem message_count_and_mean (db : DB) (user_id guild_id : Z) :
  (forall events db',
     process_messages db user_id guild_id events = Some db' ->
     messages_of db' user_id guild_id
     = messages_of db user_id guild_id + Z.of_nat (length events)
     /\ stored db' (user_id, guild_id)
        = running_mean (stored db (user_id, guild_id)) (content_length <$> events)
     /\ reactions_of db' (user_id, guild_id) = reactions_of db (user_id, guild_id)
     /\ (forall key, key <> (user_id, guild_id) ->
           user_activity db' !! key = user_activity db !! key)
     /\ users db' = users db
     /\ daily_total (user_message_daily db') user_id guild_id
        = daily_total (user_message_daily db) user_id guild_id
          + Z.of_nat (length events)
     /\ (forall e, last events = Some e ->
           exists r, user_activity db' !! (user_id, guild_id) = Some r
             /\ most_used_channel r = Some (ev_channel e)
             /\ last_message_time r = Some (ev_now e)))
  /\ (forall channel content now db_now,
        user_activity db !! (user_id, guild_id) = None ->
        (user_id, guild_id) ∉ users db ->
        process_new_message db user_id guild_id channel content now db_now = None)
  /\ (forall channel content now db_now r,
        user_activity db !! (user_id, guild_id) = Some r ->
        INT4_MAX <= message_count r ->
        process_new_message db user_id guild_id channel content now db_now = None)
  /\ (forall channel content now db_now count,
        user_message_daily db !! (user_id, guild_id, dt_date now) = Some count ->
        INT4_MAX <= count ->
        process_new_message db user_id guild_id channel content now db_now = None)
  /\ (fun db' => stored db' (7, 1)) <$> process_messages empty_db 7 1 seven_messages
     = Some (Some (32.857142857142854%float, 7))
  /\ mean_times_count (32.857142857142854%float, 7) = 229.99999999999997%float
  /\ foldr Z.add 0 (content_length <$> seven_messages) = 230.
Proof.
  split; [intros events db'; apply process_messages_result|].
  repeat apply conj.
  - intros channel content now db_now Hrow Hnone.
    unfold process_new_message, upsert_message. cbv zeta.
    rewrite Hrow, bool_decide_eq_false_2 by exact Hnone. reflexivity.
  - intros channel content now db_now r Hrow Hmax.
    unfold process_new_message, upsert_message. cbv zeta. rewrite Hrow.
    destruct (INT4_MAX <=? message_count r) eqn:Hle; [reflexivity|lia].
  - intros channel content now db_now count Hrow Hmax.
    unfold process_new_message, daily_counter_raises. cbv zeta. rewrite Hrow.
    destruct (INT4_MAX <=? count) eqn:Hle; [|lia].
    now destruct (upsert_message _ _ _ _ _ _).
  - vm_compute. reflexivity.
  - vm_compute. reflexivity.
  - vm_compute. reflexivity.
Qed.

Lemma message_count_and_mean_witness :
  exists db',
    process_messages empty_db 7 1 three_messages = Some db'
    /\ messages_of db' 7 1 = 3
    /\ process_new_message empty_db 9 1 "general" (Some "hello") t0 t0 = None.
Proof.
  destruct (message_count_and_mean empty_db 7 1) as (Hall & _).
  destruct (message_count_and_mean empty_db 9 1) as (_ & Hnone & _).
  destruct (process_messages empty_db 7 1 three_messages) as [db'|] eqn:Hrun;
    [|vm_compute in Hrun; discriminate].
  exists db'. split; [reflexivity|]. split.
  - rewrite (proj1 (Hall three_messages db' Hrun)). reflexivity.
  - apply Hnone; [reflexivity|vm_compute; intros H; discriminate H].
Defined.

(** *** Reactions *)

Lemma upsert_reactor_Some users t key db_now t' :
  upsert_reactor users t key db_now = Some t' ->
  exists r, t' = <[key := r]> t
    /\ message_count r = from_option message_count 0 (t !! key)
    /\ reaction_count r = from_option reaction_count 0 (t !! key) + 1
    /\ received_reactions r = from_option received_reactions 0 (t !! key).
Proof.
  unfold upsert_reactor. intros H.
  destruct (t !! key) as [r|]; repeat case_match; simplify_eq;
    eexists; (split; [reflexivity|]); simpl; repeat apply conj; reflexivity.
Qed.

Lemma upsert_target_Some users t key db_now t' :
  upsert_target users t key db_now = Some t' ->
  exists r, t' = <[key := r]> t
    /\ message_count r = from_option message_count 0 (t !! key)
    /\ reaction_count r = from_option reaction_count 0 (t !! key)
    /\ received_reactions r = from_option received_reactions 0 (t !! key) + 1.
Proof.
  unfold upsert_target. intros H.
  destruct (t !! key) as [r|]; repeat case_match; simplify_eq;
    eexists; (split; [reflexivity|]); simpl; repeat apply conj; reflexivity.
Qed.

Lemma process_reaction_add_row db reactor target guild db_now db' key :
  process_reaction_add db reactor target guild db_now = Some db' ->
  from_option reaction_count 0 (user_activity db' !! key)
  = from_option reaction_count 0 (user_activity db !! key)
    + (if decide (key = (reactor, guild)) then 1 else 0)
  /\ from_option received_reactions 0 (user_activity db' !! key)
     = from_option received_reactions 0 (user_activity db !! key)
       + (if decide (key = (target, guild)) then 1 else 0)
  /\ from_option message_count 0 (user_activity db' !! key)
     = from_option message_count 0 (user_activity db !! key)
  /\ user_message_daily db' = user_message_daily db
  /\ users db' = users db.
Proof.
  unfold process_reaction_add. intros H.
  destruct (upsert_reactor _ _ _ _) as [t1|] eqn:H1; [|discriminate].
  destruct (upsert_target _ _ _ _) as [t2|] eqn:H2; [|discriminate].
  injection H as <-. simpl.
  apply upsert_reactor_Some in H1 as (r1 & -> & Hm1 & Hg1 & Hr1).
  apply upsert_target_Some in H2 as (r2 & -> & Hm2 & Hg2 & Hr2).
  split; [|split; [|split; [|split; reflexivity]]].
  - destruct (decide (key = (target, guild))) as [->|Ht].
    + rewrite lookup_insert_eq. simpl. rewrite Hg2.
      destruct (decide ((target, guild) = (reactor, guild))) as [He|Hne].
      * rewrite He, lookup_insert_eq. simpl. exact Hg1.
      * rewrite lookup_insert_ne by congruence. lia.
    + rewrite lookup_insert_ne by congruence.
      destruct (decide (key = (reactor, guild))) as [->|Hne].
      * rewrite lookup_insert_eq. simpl. exact Hg1.
      * rewrite lookup_insert_ne by congruence. lia.
  - destruct (decide (key = (target, guild))) as [->|Ht].
    + rewrite lookup_insert_eq. simpl. rewrite Hr2.
      destruct (decide ((target, guild) = (reactor, guild))) as [He|Hne].
      * rewrite He, lookup_insert_eq. simpl. rewrite Hr1. reflexivity.
      * rewrite lookup_insert_ne by congruence. reflexivity.
    + rewrite lookup_insert_ne by congruence.
      destruct (decide (key = (reactor, guild))) as [->|Hne].
      * rewrite lookup_insert_eq. simpl. rewrite Hr1. lia.
      * rewrite lookup_insert_ne by congruence. lia.
  - destruct (decide (key = (target, guild))) as [->|Ht].
    + rewrite lookup_insert_eq. simpl. rewrite Hm2.
      destruct (decide ((target, guild) = (reactor, guild))) as [He|Hne].
      * rewrite He, lookup_insert_eq. simpl. exact Hm1.
      * rewrite lookup_insert_ne by congruence. reflexivity.
    + rewrite lookup_insert_ne by congruence.
      destruct (decide (key = (reactor, guild))) as [->|Hne].
      * rewrite lookup_insert_eq. simpl. exact Hm1.
      * rewrite lookup_insert_ne by congruence. reflexivity.
Qed.

Lemma messages_of_from_option db user_id guild_id :
  messages_of db user_id guild_id
  = from_option message_count 0 (user_activity db !! (user_id, guild_id)).
Proof. unfold messages_of. now destruct (user_activity db !! _). Qed.

Lemma reactions_of_from_option db key :
  reactions_of db key
  = (from_option reaction_count 0 (user_activity db !! key),
     from_option received_reactions 0 (user_activity db !! key)).
Proof. unfold reactions_of. now destruct (user_activity db !! _). Qed.

Lemma process_reaction_add_no_user db reactor target guild db_now key :
  key = (reactor, guild) \/ key = (target, guild) ->
  user_activity db !! key = None -> key ∉ users db ->
  process_reaction_add db reactor target guild db_now = None.
Proof.
  intros Hkey Hrow Hnone. unfold process_reaction_add.
  destruct (upsert_reactor _ _ _ _) as [t1|] eqn:H1; [|reflexivity].
  assert (Ht : upsert_target (users db) t1 (target, guild) db_now = None);
    [|now rewrite Ht].
  destruct (decide (key = (reactor, guild))) as [->|Hne].
  - exfalso. unfold upsert_reactor in H1.
    rewrite Hrow, bool_decide_eq_false_2 in H1 by exact Hnone. discriminate.
  - destruct Hkey as [->| ->]; [congruence|].
    apply upsert_reactor_Some in H1 as (r1 & -> & _).
    unfold upsert_target. rewrite lookup_insert_ne by congruence.
    rewrite Hrow, bool_decide_eq_false_2 by exact Hnone. reflexivity.
Qed.

(** X4.  When the two statements of a reaction are committed, the
    reactor's [reaction_count] and the target author's [received_reactions]
    have grown by one (both on one row when a user reacts to their own
    message), and nobody's message count, no daily counter and no other
    count has changed.  When the reactor or the target author has neither
    a row in [user_activity] nor one in [users], the reaction is refused,
    and the handler leaves the tables as they were, for both members.  The
    handler drops reactions by bots, on bots' messages and outside a
    guild. *)
Theorem reaction_add_counts
    (db : DB) (reactor target guild : Z) (db_now : datetime) :
  (forall db',
     process_reaction_add db reactor target guild db_now = Some db' ->
     (forall key,
        reactions_of db' key
        = ((reactions_of db key).1 + (if decide (key = (reactor, guild)) then 1 else 0),
           (reactions_of db key).2 + (if decide (key = (target, guild)) then 1 else 0))
        /\ messages_of db' key.1 key.2 = messages_of db key.1 key.2)
     /\ user_message_daily db' = user_message_daily db
     /\ users db' = users db
     /\ on_reaction_add db false (Some guild) reactor target false db_now = db')
  /\ (forall key,
        key = (reactor, guild) \/ key = (target, guild) ->
        user_activity db !! key = None -> key ∉ users db ->
        process_reaction_add db reactor target guild db_now = None
        /\ on_reaction_add db false (Some guild) reactor target false db_now = db)
  /\ (forall bot_flag g,
        on_reaction_add db true g reactor target bot_flag db_now = db
        /\ on_reaction_add db bot_flag g reactor target true db_now = db
        /\ on_reaction_add db bot_flag None reactor target bot_flag db_now = db).
Proof.
  split; [|split].
  - intros db' H. split; [|split; [|split]].
    + intros key.
      destruct (process_reaction_add_row _ _ _ _ _ _ key H) as (Hg & Hr & Hm & _).
      split.
      * rewrite !reactions_of_from_option. simpl. now rewrite Hg, Hr.
      * destruct key as [u g]. simpl. rewrite !messages_of_from_option. exact Hm.
    + apply (process_reaction_add_row _ _ _ _ _ _ (reactor, guild) H).
    + apply (process_reaction_add_row _ _ _ _ _ _ (reactor, guild) H).
    + unfold on_reaction_add. now rewrite H.
  - intros key Hkey Hrow Hnone.
    pose proof (process_reaction_add_no_user db reactor target guild db_now key
                  Hkey Hrow Hnone) as H.
    split; [exact H|]. unfold on_reaction_add. now rewrite H.
  - intros bot_flag g. unfold on_reaction_add.
    destruct g, bot_flag; repeat apply conj; reflexivity.
Qed.

Lemma reaction_add_counts_witness :
  (exists db',
     process_reaction_add empty_db 8 7 1 t1 = Some db'
     /\ reactions_of db' (8, 1) = (1, 0)
     /\ reactions_of db' (7, 1) = (0, 1))
  /\ on_reaction_add empty_db false (Some 1) 9 7 false t1 = empty_db.
Proof.
  destruct (reaction_add_counts empty_db 8 7 1 t1) as (Hok & _).
  destruct (reaction_add_counts empty_db 9 7 1 t1) as (_ & Hno & _).
  split.
  - destruct (process_reaction_add empty_db 8 7 1 t1) as [db'|] eqn:Hrun;
      [|vm_compute in Hrun; discriminate].
    exists db'. split; [reflexivity|].
    destruct (Hok db' eq_refl) as (Hkeys & _).
    split; [rewrite (proj1 (Hkeys (8, 1)))|rewrite (proj1 (Hkeys (7, 1)))];
      reflexivity.
  - apply (Hno (9, 1)); [now left|reflexivity|].
    vm_compute. intros H. discriminate H.
Defined.

(** *** The two counters of a user *)

Lemma handled_well_formed db op db' :
  well_formed db -> handled db op db' -> well_formed db'.
Proof.
  intros [Hagree Hpos] [db1 H|]; [|now split].
  destruct op as [u g channel content now db_now|reactor target guild db_now];
    simpl in H.
  - pose proof (process_new_message_counts _ _ _ _ _ _ _ _ H) as Hc. split.
    + intros user_id guild_id. destruct (Hc user_id guild_id) as [-> ->].
      now rewrite (Hagree user_id guild_id).
    + intros user_id guild_id. destruct (Hc user_id guild_id) as [-> _].
      specialize (Hpos user_id guild_id). case_decide; lia.
  - assert (Hm : forall user_id guild_id,
               messages_of db1 user_id guild_id = messages_of db user_id guild_id).
    { intros user_id guild_id. rewrite !messages_of_from_option.
      apply (process_reaction_add_row _ _ _ _ _ _ (user_id, guild_id) H). }
    assert (Hd : user_message_daily db1 = user_message_daily db).
    { apply (process_reaction_add_row _ _ _ _ _ _ (reactor, guild) H). }
    split; intros user_id guild_id; rewrite Hm; [rewrite Hd; apply Hagree|apply Hpos].
Qed.

Lemma run_handled db ops : handled_all db ops (run db ops).
Proof.
  revert db. induction ops as [|op ops IH]; intros db; [constructor|].
  simpl. apply handled_cons with (db1 := apply_op db op); [|apply IH].
  unfold apply_op. destruct (statements db op) as [db1|] eqn:H; simpl.
  - now apply handled_commit.
  - apply handled_rollback.
Qed.

(** X3.  From tables in which every user's [message_count] is the sum of
    the user's daily counts and none is negative, every run of message and
    reaction events, each committed or rolled back, leaves tables with the
    same two properties: the two counters of a user never drift apart,
    whichever of the events are refused. *)
Theorem counters_stay_in_agreement (db : DB) (ops : list Op) :
  well_formed db ->
  (forall db', handled_all db ops db' -> well_formed db')
  /\ well_formed (run db ops).
Proof.
  intros Hwf.
  assert (Hall : forall db', handled_all db ops db' -> well_formed db').
  { intros db' H. induction H as [|db op db1 ops db' H1 _ IH]; [exact Hwf|].
    apply IH. exact (handled_well_formed _ _ _ Hwf H1). }
  split; [exact Hall|]. apply Hall, run_handled.
Qed.

Lemma empty_db_well_formed : well_formed empty_db.
Proof. split; intros user_id guild_id; vm_compute; [reflexivity|discriminate]. Qed.

Lemma counters_stay_in_agreement_witness :
  well_formed empty_db
  /\ (let db' := run empty_db [NewMessage 7 1 "general" (Some "hello") t0 t0;
                               ReactionAdd 8 7 1 t1;
                               NewMessage 9 1 "general" (Some "hi") t1 t1;
                               NewMessage 7 1 "general" None t2 t2] in
      messages_of db' 7 1 = 2
      /\ messages_of db' 9 1 = 0
      /\ messages_of db' 7 1 = daily_total (user_message_daily db') 7 1).
Proof.
  split; [exact empty_db_well_formed|]. cbv zeta.
  split; [vm_compute; reflexivity|]. split; [vm_compute; reflexivity|].
  apply (counters_stay_in_agreement empty_db _ empty_db_well_formed).
Defined.

End Activity.

(** ** [cptVoiceUtilisateur.py]: voice sessions *)

Module Voice.

Local Open Scope Z_scope.

(** Instants and durations are integers (a [datetime] as the time elapsed
    since a fixed origin, a [timedelta] as a difference of two of them). *)

(** A voice channel as the handler reads it: [channel.id], [channel.name]. *)
Record Channel := mkChannel { ch_id : Z; ch_name : string }.

(** An entry of the dict [active_sessions], under the key
    [(guild_id, user_id)]. *)
Record ActiveSession := mkActiveSession {
  start_time : Z;
  channel_id : Z;
  channel_name : string
}.

(** A row of [user_voice], under the key [(user_id, guild_id)].
    [last_voice_session] holds the two values its text is formatted from:
    the instant and the duration. *)
Record UserVoice := mkUserVoice {
  time_in_voice : Z;
  sessions_count : Z;
  last_voice_session : option (Z * Z);
  most_used_voice_channel : option string;
  last_update : Z
}.

Record State := mkState {
  active_sessions : gmap (Z * Z) ActiveSession;
  user_voice : gmap (Z * Z) UserVoice
}.

(** The readings of [datetime.now(UTC)] during one call of the handler: for
    the duration of the session that is closed, for the text and the
    [last_update] of the upsert, and for the start of the session that is
    opened. *)
Record Clock := mkClock {
  at_close : Z;
  at_text : Z;
  at_update : Z;
  at_open : Z
}.

(** [upsert_user_voice_add_session]. *)
Definition upsert_user_voice_add_session (uv : gmap (Z * Z) UserVoice)
    (guild_id user_id : Z) (channel : string) (duration : Z) (clock : Clock)
    : gmap (Z * Z) UserVoice :=
  let duration_text := (at_text clock, duration) in
  match uv !! (user_id, guild_id) with
  | None =>
      <[(user_id, guild_id) :=
          {| time_in_voice := duration;
             sessions_count := 1;
             last_voice_session := Some duration_text;
             most_used_voice_channel := Some channel;
             last_update := at_update clock |}]> uv
  | Some r =>
      <[(user_id, guild_id) :=
          {| time_in_voice := time_in_voice r + duration;
             sessions_count := sessions_count r + 1;
             last_voice_session := Some duration_text;
             most_used_voice_channel := Some channel;
             last_update := at_update clock |}]> uv
  end.

(** The arguments of [on_voice_state_update] that the handler reads. *)
Record VoiceEvent := mkVoiceEvent {
  member_bot : bool;
  guild_id : Z;
  user_id : Z;
  before : option Channel;
  after : option Channel;
  clock : Clock
}.

Definition open_session (ev : VoiceEvent) (a : Channel) : ActiveSession :=
  {| start_time := at_open (clock ev);
     channel_id := ch_id a;
     channel_name := ch_name a |}.

Definition close_session (st : State) (ev : VoiceEvent) (data : ActiveSession)
    : gmap (Z * Z) UserVoice :=
  upsert_user_voice_add_session (user_voice st) (guild_id ev) (user_id ev)
    (channel_name data) (at_close (clock ev) - start_time data) (clock ev).

(** [on_voice_state_update]; the upserts of the guild and of the user, which
    write other tables, are taken to go through.  The three tests [joined],
    [left] and [moved] of the source are the three non-trivial branches. *)
Definition on_voice_state_update (st : State) (ev : VoiceEvent) : State :=
  if member_bot ev then st
  else
    let key := (guild_id ev, user_id ev) in
    match before ev, after ev with
    | None, Some a =>
        {| active_sessions := <[key := open_session ev a]> (active_sessions st);
           user_voice := user_voice st |}
    | Some _, None =>
        match active_sessions st !! key with
        | Some data =>
            {| active_sessions := delete key (active_sessions st);
               user_voice := close_session st ev data |}
        | None => st
        end
    | Some b, Some a =>
        if ch_id b =? ch_id a then st
        else
          {| active_sessions := <[key := open_session ev a]> (active_sessions st);
             user_voice :=
               match active_sessions st !! key with
               | Some data => close_session st ev data
               | None => user_voice st
               end |}
    | None, None => st
    end.

(** [vocreset]. *)
Definition vocreset (st : State) (guild target : Z) : State :=
  {| active_sessions := delete (guild, target) (active_sessions st);
     user_voice := user_voice st |}.

(** *** Vocabulary of the statements *)

Definition is_Some_b {A} (o : option A) : bool :=
  match o with Some _ => true | None => false end.

Definition run (st : State) (events : list VoiceEvent) : State :=
  fold_left on_voice_state_update events st.

(** The event is a join, a leave or a move of the member [key] (not a bot). *)
Definition concerns (key : Z * Z) (ev : VoiceEvent) : bool :=
  negb (member_bot ev)
  && bool_decide ((guild_id ev, user_id ev) = key)
  && match before ev, after ev with
     | None, None => false
     | Some b, Some a => negb (ch_id b =? ch_id a)
     | _, _ => true
     end.

(** What the state holds for a member. *)
Definition view (st : State) (key : Z * Z)
    : option ActiveSession * option UserVoice :=
  (active_sessions st !! key, user_voice st !! (key.2, key.1)).

Definition time_of (st : State) (key : Z * Z) : Z :=
  from_option time_in_voice 0 (user_voice st !! (key.2, key.1)).

Definition sessions_of (st : State) (key : Z * Z) : Z :=
  from_option sessions_count 0 (user_voice st !! (key.2, key.1)).

(** The time between the two readings of the clock of a move: after the
    old session is closed, before the new one is opened. *)
Definition gap (ev : VoiceEvent) : Z := at_open (clock ev) - at_close (clock ev).

Definition gaps (moves : list VoiceEvent) : Z := foldr Z.add 0 (gap <$> moves).

(** A join has no channel before, a leave none after, a move both. *)
Definition is_join (ev : VoiceEvent) : bool := negb (is_Some_b (before ev)).
Definition is_leave (ev : VoiceEvent) : bool := negb (is_Some_b (after ev)).
Definition is_move (ev : VoiceEvent) : bool :=
  is_Some_b (before ev) && is_Some_b (after ev).

(** *** Example data *)

Definition lobby : Channel := mkChannel 100 "lobby".
Definition music : Channel := mkChannel 200 "music".
Definition tick (t : Z) : Clock := mkClock t t t t.
Definition no_sessions : State := mkState ∅ ∅.

(** Member 7 of guild 1 joins at 10, moves at 25, leaves at 60; member 8
    joins at 12 and a bot at 13; member 7 mutes at 30. *)
Definition evening : list VoiceEvent :=
  [ mkVoiceEvent false 1 7 None (Some lobby) (tick 10);
    mkVoiceEvent false 1 8 None (Some lobby) (tick 12);
    mkVoiceEvent true 1 9 None (Some lobby) (tick 13);
    mkVoiceEvent false 1 7 (Some lobby) (Some music) (mkClock 25 25 26 27);
    mkVoiceEvent false 1 7 (Some music) (Some music) (tick 30);
    mkVoiceEvent false 1 7 (Some music) None (tick 60) ].

(** *** One member at a time *)

Lemma upsert_adds_session uv g u channel duration c :
  exists r,
    upsert_user_voice_add_session uv g u channel duration c !! (u, g) = Some r
    /\ time_in_voice r = from_option time_in_voice 0 (uv !! (u, g)) + duration
    /\ sessions_count r = from_option sessions_count 0 (uv !! (u, g)) + 1
    /\ most_used_voice_channel r = Some channel.
Proof.
  unfold upsert_user_voice_add_session. cbv zeta.
  destruct (uv !! (u, g)) as [r|]; rewrite lookup_insert_eq;
    eexists; (split; [reflexivity|]); simpl; repeat apply conj; reflexivity.
Qed.

Lemma upsert_other uv g u channel duration c k :
  k <> (u, g) ->
  upsert_user_voice_add_session uv g u channel duration c !! k = uv !! k.
Proof.
  intros Hk. unfold upsert_user_voice_add_session. cbv zeta.
  destruct (uv !! (u, g)); now rewrite lookup_insert_ne.
Qed.

Lemma concerns_spec key ev :
  concerns key ev = true ->
  member_bot ev = false /\ (guild_id ev, user_id ev) = key.
Proof.
  unfold concerns. intros H.
  apply andb_true_iff in H as [H _]. apply andb_true_iff in H as [Hb Hk].
  split; [now destruct (member_bot ev)|now apply bool_decide_eq_true in Hk].
Qed.

Lemma step_skip key st ev :
  concerns key ev = false ->
  view (on_voice_state_update st ev) key = view st key.
Proof.
  unfold concerns, on_voice_state_update, view. cbv zeta. intros H.
  destruct (member_bot ev); [reflexivity|]. simpl in H.
  destruct (decide ((guild_id ev, user_id ev) = key)) as [Hk|Hk].
  - rewrite bool_decide_eq_true_2 in H by exact Hk. simpl in H.
    destruct (before ev) as [b|], (after ev) as [a|]; try discriminate; try reflexivity.
    apply negb_false_iff in H. now rewrite H.
  - assert (Hk' : (key.2, key.1) <> (user_id ev, guild_id ev)).
    { destruct key as [g u]. simpl. intros [= -> ->]. now apply Hk. }
    clear H.
    destruct (before ev) as [b|], (after ev) as [a|]; simpl; try reflexivity.
    + destruct (ch_id b =? ch_id a); [reflexivity|]. simpl.
      rewrite lookup_insert_ne by exact Hk. f_equal.
      destruct (active_sessions st !! (guild_id ev, user_id ev)); [|reflexivity].
      unfold close_session. now rewrite upsert_other.
    + destruct (active_sessions st !! (guild_id ev, user_id ev)); [|reflexivity].
      simpl. rewrite lookup_delete_ne by exact Hk. f_equal.
      unfold close_session. now rewrite upsert_other.
    + now rewrite lookup_insert_ne by exact Hk.
Qed.

Lemma step_congr key st1 st2 ev :
  view st1 key = view st2 key ->
  (guild_id ev, user_id ev) = key ->
  view (on_voice_state_update st1 ev) key = view (on_voice_state_update st2 ev) key.
Proof.
  unfold view. intros Hv <-. simpl in *. injection Hv as Ha Hu.
  unfold on_voice_state_update. cbv zeta.
  destruct (member_bot ev); [now rewrite Ha, Hu|].
  destruct (before ev) as [b|], (after ev) as [a|]; simpl.
  - destruct (ch_id b =? ch_id a); [now rewrite Ha, Hu|]. simpl.
    rewrite !lookup_insert_eq. f_equal. rewrite Ha.
    destruct (active_sessions st2 !! (guild_id ev, user_id ev)) as [data|];
      [|exact Hu].
    unfold close_session, upsert_user_voice_add_session. cbv zeta.
    rewrite Hu. destruct (user_voice st2 !! (user_id ev, guild_id ev));
      now rewrite !lookup_insert_eq.
  - rewrite Ha.
    destruct (active_sessions st2 !! (guild_id ev, user_id ev)) as [data|] eqn:Hd;
      simpl; [|now rewrite Ha, Hd, Hu].
    rewrite !lookup_delete_eq. f_equal.
    unfold close_session, upsert_user_voice_add_session. cbv zeta.
    rewrite Hu. destruct (user_voice st2 !! (user_id ev, guild_id ev));
      now rewrite !lookup_insert_eq.
  - rewrite !lookup_insert_eq. now rewrite Hu.
  - now rewrite Ha, Hu.
Qed.

Lemma run_filter key evs st1 st2 :
  view st1 key = view st2 key ->
  view (run st1 evs) key = view (run st2 (filter (concerns key) evs)) key.
Proof.
  revert st1 st2. induction evs as [|ev evs IH]; intros st1 st2 Hv; [exact Hv|].
  rewrite filter_cons. destruct (concerns key ev) eqn:Hc; simpl.
  - apply IH. apply step_congr; [exact Hv|]. now apply concerns_spec.
  - apply IH. now rewrite step_skip.
Qed.

Lemma gaps_cons m moves : gaps (m :: moves) = gap m + gaps moves.
Proof. reflexivity. Qed.

Lemma time_of_view st1 st2 key :
  view st1 key = view st2 key ->
  active_sessions st1 !! key = active_sessions st2 !! key
  /\ time_of st1 key = time_of st2 key
  /\ sessions_of st1 key = sessions_of st2 key.
Proof.
  unfold view, time_of, sessions_of. intros [= Ha Hu]. now rewrite Ha, Hu.
Qed.

Lemma moves_then_leave key moves leave :
  forall st data,
    active_sessions st !! key = Some data ->
    Forall (fun m => concerns key m = true /\ is_move m = true) moves ->
    concerns key leave = true -> is_leave leave = true ->
    let st' := run st (moves ++ [leave]) in
    active_sessions st' !! key = None
    /\ sessions_of st' key = sessions_of st key + Z.of_nat (length moves) + 1
    /\ time_of st' key
       = time_of st key + (at_close (clock leave) - start_time data) - gaps moves.
Proof.
  induction moves as [|m moves IH]; intros st data Hdata Hmoves Hleave Hl; cbv zeta.
  - destruct (concerns_spec _ _ Hleave) as [Hbot Hk].
    unfold concerns in Hleave. rewrite Hbot in Hleave. simpl in Hleave.
    unfold is_leave in Hl.
    simpl. unfold on_voice_state_update. cbv zeta. rewrite Hbot, Hk.
    destruct (after leave) as [a|]; [discriminate|].
    destruct (before leave) as [b|];
      [|rewrite andb_false_r in Hleave; discriminate].
    rewrite Hdata. unfold time_of, sessions_of. simpl.
    rewrite lookup_delete_eq. split; [reflexivity|].
    unfold close_session. destruct key as [g u]. injection Hk as Hg Hu.
    rewrite Hg, Hu. simpl.
    destruct (upsert_adds_session (user_voice st) g u (channel_name data)
                (at_close (clock leave) - start_time data) (clock leave))
      as (r & -> & Ht & Hs & _).
    simpl. rewrite Ht, Hs. unfold gaps. simpl.
    split; lia.
  - apply Forall_cons in Hmoves as [[Hm Hmv] Hmoves].
    destruct (concerns_spec _ _ Hm) as [Hbot Hk].
    unfold concerns in Hm. rewrite Hbot in Hm. simpl in Hm.
    unfold is_move in Hmv.
    destruct (before m) as [b|] eqn:Hb; [|discriminate].
    destruct (after m) as [a|] eqn:Ha; [|discriminate].
    rewrite bool_decide_eq_true_2 in Hm by exact Hk. simpl in Hm.
    apply negb_true_iff in Hm.
    set (st1 := on_voice_state_update st m).
    assert (Hst1 : st1 = {| active_sessions := <[key := open_session m a]> (active_sessions st);
                            user_voice := close_session st m data |}).
    { unfold st1, on_voice_state_update. cbv zeta.
      now rewrite Hbot, Hb, Ha, Hm, Hk, Hdata. }
    change (run st ((m :: moves) ++ [leave])) with (run st1 (moves ++ [leave])).
    destruct (IH st1 (open_session m a)) as (Hnone & Hs & Ht);
      [rewrite Hst1; simpl; apply lookup_insert_eq|exact Hmoves|exact Hleave|exact Hl|].
    split; [exact Hnone|]. rewrite Hs, Ht.
    unfold time_of, sessions_of. rewrite Hst1. simpl.
    unfold close_session. destruct key as [g u]. injection Hk as Hg Hu.
    rewrite Hg, Hu. simpl.
    destruct (upsert_adds_session (user_voice st) g u (channel_name data)
                (at_close (clock m) - start_time data) (clock m))
      as (r & -> & Ht' & Hs' & _).
    simpl. rewrite Ht', Hs'.
    rewrite gaps_cons. unfold gap.
    change (length (m :: moves)) with (S (length moves)).
    rewrite Nat2Z.inj_succ. split; lia.
Qed.

Lemma gaps_nonneg moves :
  Forall (fun m => at_close (clock m) <= at_open (clock m)) moves -> 0 <= gaps moves.
Proof.
  induction 1 as [|m moves Hm _ IH]; [reflexivity|].
  rewrite gaps_cons. unfold gap. lia.
Qed.

(** X5.  Whatever the other members do in between, and whatever events of
    the member leave the channel unchanged: when the joins, leaves and moves
    of a member are one join, then moves, then one leave, the run leaves no
    active session for the member, counts one session per channel visited,
    and adds to [time_in_voice] the time from the join to the leave minus
    the time between the two clock readings of every move; with a clock
    that does not go back, never more than the time from the join to the
    leave. *)
Theorem visit_is_recorded
    (st : State) (key : Z * Z) (events : list VoiceEvent)
    (join : VoiceEvent) (moves : list VoiceEvent) (leave : VoiceEvent) :
  filter (concerns key) events = join :: moves ++ [leave] ->
  is_join join = true ->
  Forall (fun m => is_move m = true) moves ->
  is_leave leave = true ->
  let st' := run st events in
  active_sessions st' !! key = None
  /\ sessions_of st' key = sessions_of st key + Z.of_nat (length moves) + 1
  /\ time_of st' key
     = time_of st key
       + (at_close (clock leave) - at_open (clock join)) - gaps moves
  /\ (Forall (fun m => at_close (clock m) <= at_open (clock m)) moves ->
      time_of st' key - time_of st key
      <= at_close (clock leave) - at_open (clock join)).
Proof.
  intros Hfilter Hjoin Hmoves Hleave. cbv zeta.
  assert (Hall : Forall (fun ev => concerns key ev = true) (join :: moves ++ [leave])).
  { rewrite <- Hfilter. apply Forall_forall. intros ev Hev.
    apply list_elem_of_filter in Hev as [Hev _]. now apply Is_true_eq_true. }
  apply Forall_cons in Hall as [Hcj Hall].
  apply Forall_app in Hall as [Hcm Hcl].
  apply Forall_inv in Hcl.
  pose proof (run_filter key events st st eq_refl) as Hview.
  rewrite Hfilter in Hview.
  apply time_of_view in Hview as (-> & -> & ->).
  destruct (concerns_spec _ _ Hcj) as [Hbot Hk].
  unfold concerns in Hcj. rewrite Hbot in Hcj. simpl in Hcj.
  unfold is_join in Hjoin.
  destruct (before join) as [b|] eqn:Hb; [discriminate|].
  destruct (after join) as [a|] eqn:Ha;
    [|rewrite andb_false_r in Hcj; discriminate].
  set (st1 := on_voice_state_update st join).
  assert (Hst1 : st1 = {| active_sessions := <[key := open_session join a]> (active_sessions st);
                          user_voice := user_voice st |}).
  { unfold st1, on_voice_state_update. cbv zeta. now rewrite Hbot, Hb, Ha, Hk. }
  change (run st (join :: moves ++ [leave])) with (run st1 (moves ++ [leave])).
  destruct (moves_then_leave key moves leave st1 (open_session join a))
    as (Hnone & Hs & Ht);
    [rewrite Hst1; simpl; apply lookup_insert_eq| |exact Hcl|exact Hleave|].
  { apply Forall_forall. intros m Hm. split.
    - exact (proj1 (Forall_forall _ _) Hcm m Hm).
    - exact (proj1 (Forall_forall _ _) Hmoves m Hm). }
  assert (Hsame : time_of st1 key = time_of st key
                  /\ sessions_of st1 key = sessions_of st key).
  { rewrite Hst1. split; reflexivity. }
  destruct Hsame as [Ht1 Hs1]. rewrite Ht1 in Ht. rewrite Hs1 in Hs.
  split; [exact Hnone|]. split; [exact Hs|]. split; [exact Ht|].
  intros Hmono. apply gaps_nonneg in Hmono. rewrite Ht.
  change (start_time (open_session join a)) with (at_open (clock join)). lia.
Qed.

Lemma visit_is_recorded_witness :
  time_of (run no_sessions evening) (1, 7) = 48
  /\ sessions_of (run no_sessions evening) (1, 7) = 2.
Proof.
  destruct (visit_is_recorded no_sessions (1, 7) evening
              (mkVoiceEvent false 1 7 None (Some lobby) (tick 10))
              [mkVoiceEvent false 1 7 (Some lobby) (Some music) (mkClock 25 25 26 27)]
              (mkVoiceEvent false 1 7 (Some music) None (tick 60)))
    as (_ & Hs & Ht & _).
  - reflexivity.
  - reflexivity.
  - repeat constructor.
  - reflexivity.
  - split; [rewrite Ht|rewrite Hs]; reflexivity.
Defined.

(** *** What is never recorded *)

(** X6.  An event of a member without an active session records no time,
    whatever the event: a leave or a move after a restart of the bot or
    after [vocreset] leaves [user_voice] as it was, so the time spent in
    the channel until then is lost.  An event of a bot, or one that keeps
    the channel (mute, deafen), changes nothing at all, and no event
    writes the row of another member. *)
Theorem no_session_no_time (st : State) (ev : VoiceEvent) :
  (active_sessions st !! (guild_id ev, user_id ev) = None ->
   user_voice (on_voice_state_update st ev) = user_voice st)
  /\ user_voice (on_voice_state_update (vocreset st (guild_id ev) (user_id ev)) ev)
     = user_voice st
  /\ (concerns (guild_id ev, user_id ev) ev = false ->
      on_voice_state_update st ev = st)
  /\ (forall key, key <> (user_id ev, guild_id ev) ->
      user_voice (on_voice_state_update st ev) !! key = user_voice st !! key).
Proof.
  assert (Hnone : forall st,
             active_sessions st !! (guild_id ev, user_id ev) = None ->
             user_voice (on_voice_state_update st ev) = user_voice st).
  { intros st0 H0. unfold on_voice_state_update. cbv zeta.
    destruct (member_bot ev); [reflexivity|].
    destruct (before ev) as [b|], (after ev) as [a|]; try reflexivity.
    - destruct (ch_id b =? ch_id a); [reflexivity|]. simpl. now rewrite H0.
    - now rewrite H0. }
  split; [apply Hnone|]. split; [|split].
  - rewrite Hnone; [reflexivity|]. simpl. apply lookup_delete_eq.
  - unfold concerns, on_voice_state_update. cbv zeta. intros H.
    destruct (member_bot ev); [reflexivity|].
    rewrite bool_decide_eq_true_2 in H by reflexivity. simpl in H.
    destruct (before ev) as [b|], (after ev) as [a|]; try discriminate; try reflexivity.
    apply negb_false_iff in H. now rewrite H.
  - intros key Hkey. unfold on_voice_state_update. cbv zeta.
    destruct (member_bot ev); [reflexivity|].
    destruct (before ev) as [b|], (after ev) as [a|]; try reflexivity.
    + destruct (ch_id b =? ch_id a); [reflexivity|]. simpl.
      destruct (active_sessions st !! (guild_id ev, user_id ev)); [|reflexivity].
      unfold close_session. now rewrite upsert_other.
    + destruct (active_sessions st !! (guild_id ev, user_id ev)); [|reflexivity].
      simpl. unfold close_session. now rewrite upsert_other.
Qed.

Lemma no_session_no_time_witness :
  user_voice (on_voice_state_update no_sessions
                (mkVoiceEvent false 1 7 (Some music) None (tick 60)))
  = user_voice no_sessions.
Proof.
  exact (proj1 (no_session_no_time no_sessions
                  (mkVoiceEvent false 1 7 (Some music) None (tick 60)))
               eq_refl).
Defined.

End Voice.

(** ** [main.py]: command deduplication and the cooldown of the analysis *)

Module Main.

(** *** [COMMAND_DEDUPE] *)

(** The [OrderedDict] [COMMAND_DEDUPE] as the list of its keys, oldest
    first. *)
Definition COMMAND_DEDUPE_MAX : nat := 500.

(** [_mark_command_seen]: the answer and the dict after the call. *)
Definition _mark_command_seen (seen : list Z) (msg_id : Z) : bool * list Z :=
  if bool_decide (msg_id ∈ seen) then (false, seen)
  else
    let seen' := seen ++ [msg_id] in
    if (COMMAND_DEDUPE_MAX <? length seen')%nat then (true, tail seen')
    else (true, seen').

(** The dict after the calls for a list of message ids, in order. *)
Definition mark_all (seen : list Z) (ids : list Z) : list Z :=
  fold_left (fun s i => (_mark_command_seen s i).2) ids seen.

(** *** [USER_COOLDOWN] *)

Definition COOLDOWN_SEC : Q := 15.

(** A message as the cooldown reads it: the key [(guild_id, user_id)], the
    content and [message.created_at.timestamp()]. *)
Record Incoming := mkIncoming {
  in_key : Z * Z;
  in_content : string;
  in_ts : Q
}.

(** The test of [on_message] before the analysis. *)
Definition cooldown_passed (cooldown : gmap (Z * Z) Q) (m : Incoming) : bool :=
  let last := default 0%Q (cooldown !! in_key m) in
  (6 <=? String.length (in_content m))%nat
  && (if Qlt_le_dec COOLDOWN_SEC (in_ts m - last) then true else false).

(** The messages that are analysed, and [USER_COOLDOWN] after them. *)
Fixpoint analysed (cooldown : gmap (Z * Z) Q) (ms : list Incoming)
    : list Incoming * gmap (Z * Z) Q :=
  match ms with
  | [] => ([], cooldown)
  | m :: ms' =>
      if cooldown_passed cooldown m then
        let r := analysed (<[in_key m := in_ts m]> cooldown) ms' in
        (m :: r.1, r.2)
      else analysed cooldown ms'
  end.

(** *** Vocabulary of the statements *)

(** The timestamps of the analysed messages of a member. *)
Definition times_of (key : Z * Z) (ms : list Incoming) : list Q :=
  in_ts <$> filter (fun m => in_key m = key) ms.

(** Every timestamp is more than [COOLDOWN_SEC] after the one before it,
    the first one after [last]. *)
Fixpoint spaced (last : Q) (ts : list Q) : Prop :=
  match ts with
  | [] => True
  | t :: ts' => (COOLDOWN_SEC < t - last)%Q /\ spaced t ts'
  end.

(** *** Commands are run once *)

Lemma mark_cases seen msg_id :
  (msg_id ∈ seen /\ _mark_command_seen seen msg_id = (false, seen))
  \/ ((msg_id ∉ seen) /\ (length seen < COMMAND_DEDUPE_MAX)%nat
      /\ _mark_command_seen seen msg_id = (true, seen ++ [msg_id]))
  \/ ((msg_id ∉ seen) /\ (COMMAND_DEDUPE_MAX <= length seen)%nat
      /\ _mark_command_seen seen msg_id = (true, tail (seen ++ [msg_id]))).
Proof.
  unfold _mark_command_seen. cbv zeta.
  destruct (bool_decide (msg_id ∈ seen)) eqn:Hin.
  - left. split; [now apply bool_decide_eq_true in Hin|reflexivity].
  - apply bool_decide_eq_false in Hin. right.
    destruct (Nat.ltb_spec COMMAND_DEDUPE_MAX (length (seen ++ [msg_id]))) as [Hlt|Hge];
      rewrite length_app in *; simpl in *.
    + right. split; [exact Hin|]. split; [lia|reflexivity].
    + left. split; [exact Hin|]. split; [lia|reflexivity].
Qed.

Lemma mark_all_cons seen i ids :
  mark_all seen (i :: ids) = mark_all (_mark_command_seen seen i).2 ids.
Proof. reflexivity. Qed.

Lemma mark_all_keeps x ids :
  forall pre post,
    (length post + length ids < COMMAND_DEDUPE_MAX)%nat ->
    exists pre' post',
      mark_all (pre ++ x :: post) ids = pre' ++ x :: post'
      /\ (length post' <= length post + length ids)%nat.
Proof.
  induction ids as [|y ids IH]; intros pre post Hlen.
  - exists pre, post. split; [reflexivity|lia].
  - rewrite mark_all_cons. simpl length in Hlen.
    destruct (mark_cases (pre ++ x :: post) y)
      as [[_ ->]|[(_ & _ & ->)|(_ & Hfull & ->)]]; simpl snd.
    + destruct (IH pre post) as (pre' & post' & Heq & Hle); [lia|].
      exists pre', post'. split; [exact Heq|simpl; lia].
    + rewrite <- app_assoc. simpl.
      destruct (IH pre (post ++ [y])) as (pre' & post' & Heq & Hle);
        [rewrite length_app; simpl; lia|].
      exists pre', post'. split; [exact Heq|].
      rewrite length_app in Hle. simpl in *. lia.
    + rewrite <- app_assoc. simpl.
      destruct pre as [|p pre].
      { rewrite length_app in Hfull. simpl in Hfull. lia. }
      simpl.
      destruct (IH pre (post ++ [y])) as (pre' & post' & Heq & Hle);
        [rewrite length_app; simpl; lia|].
      exists pre', post'. split; [exact Heq|].
      rewrite length_app in Hle. simpl in *. lia.
Qed.

(** X7.  A command whose message has been accepted is refused when the
    same message id comes again, as long as fewer than
    [COMMAND_DEDUPE_MAX] other calls were made in between, whatever ids
    those calls were for. *)
Theorem command_runs_once (seen : list Z) (msg_id : Z) (ids : list Z) :
  (_mark_command_seen seen msg_id).1 = true ->
  (length ids < COMMAND_DEDUPE_MAX)%nat ->
  (_mark_command_seen (mark_all (_mark_command_seen seen msg_id).2 ids) msg_id).1
  = false.
Proof.
  intros Hacc Hlen.
  assert (Hsplit : exists pre,
             (_mark_command_seen seen msg_id).2 = pre ++ msg_id :: []).
  { destruct (mark_cases seen msg_id)
      as [[_ Heq]|[(_ & _ & Heq)|(_ & Hfull & Heq)]]; rewrite Heq in *; simpl in *.
    - discriminate.
    - now exists seen.
    - destruct seen as [|s seen]; [|now exists seen].
      simpl in Hfull. lia. }
  destruct Hsplit as [pre ->].
  destruct (mark_all_keeps msg_id ids pre []) as (pre' & post' & -> & _);
    [simpl; lia|].
  destruct (mark_cases (pre' ++ msg_id :: post') msg_id)
    as [[_ ->]|[(Hnot & _)|(Hnot & _)]]; [reflexivity| |];
    exfalso; apply Hnot; apply elem_of_app; right; apply elem_of_cons; now left.
Qed.

Lemma command_runs_once_witness :
  (_mark_command_seen
     (mark_all (_mark_command_seen [1; 2]%Z 3%Z).2 [4; 1; 5]%Z) 3%Z).1
  = false.
Proof.
  apply (command_runs_once [1; 2]%Z 3%Z [4; 1; 5]%Z).
  - reflexivity.
  - unfold COMMAND_DEDUPE_MAX. simpl. lia.
Defined.

(** *** What the dict remembers *)

Lemma mark_step_inv seen i :
  (length seen <= COMMAND_DEDUPE_MAX)%nat ->
  (length (_mark_command_seen seen i).2 <= COMMAND_DEDUPE_MAX)%nat
  /\ (NoDup seen -> NoDup (_mark_command_seen seen i).2).
Proof.
  intros Hlen.
  destruct (mark_cases seen i) as [[_ ->]|[(Hi & Hlt & ->)|(Hi & Hfull & ->)]]; simpl.
  - split; [exact Hlen|auto].
  - split; [rewrite length_app; simpl; lia|].
    intros Hnd. apply NoDup_app. split; [exact Hnd|]. split; [|apply NoDup_singleton].
    intros x Hx Hx'. apply list_elem_of_singleton in Hx'. now subst x.
  - assert (Hnd' : NoDup seen -> NoDup (seen ++ [i])).
    { intros Hnd. apply NoDup_app. split; [exact Hnd|]. split; [|apply NoDup_singleton].
      intros x Hx Hx'. apply list_elem_of_singleton in Hx'. now subst x. }
    destruct seen as [|s seen]; simpl.
    + split; [lia|intros _; constructor].
    + split; [rewrite length_app; simpl in *; lia|].
      intros Hnd. specialize (Hnd' Hnd). simpl in Hnd'.
      now apply NoDup_cons in Hnd' as [_ Hnd'].
Qed.

Lemma mark_all_fresh ids :
  forall seen,
    (length seen <= COMMAND_DEDUPE_MAX)%nat ->
    NoDup ids ->
    (forall y, y ∈ ids -> y ∉ seen) ->
    mark_all seen ids
    = drop (length seen + length ids - COMMAND_DEDUPE_MAX) (seen ++ ids).
Proof.
  induction ids as [|y ids IH]; intros seen Hlen Hnd Hfresh.
  - simpl. rewrite app_nil_r.
    replace (length seen + 0 - COMMAND_DEDUPE_MAX)%nat with 0%nat by lia.
    reflexivity.
  - rewrite mark_all_cons. apply NoDup_cons in Hnd as [Hy Hnd].
    assert (Hyseen : y ∉ seen) by (apply Hfresh; now left).
    destruct (mark_cases seen y) as [[Hin _]|[(_ & Hlt & ->)|(_ & Hfull & ->)]];
      [contradiction| |]; simpl snd.
    + rewrite IH; [|rewrite length_app; simpl; lia|exact Hnd|].
      * rewrite length_app, <- app_assoc. simpl. f_equal. lia.
      * intros z Hz Hz'. apply elem_of_app in Hz' as [Hz'|Hz'].
        -- apply (Hfresh z); [now right|exact Hz'].
        -- apply list_elem_of_singleton in Hz'. now subst z.
    + assert (Hl : length seen = COMMAND_DEDUPE_MAX) by lia.
      destruct seen as [|s seen]; [simpl in Hl; discriminate|].
      simpl length in Hl. simpl tail. rewrite IH; [|rewrite length_app; simpl in *; lia|exact Hnd|].
      * rewrite length_app. simpl length.
        replace (length seen + 1 + length ids - COMMAND_DEDUPE_MAX)%nat
          with (length ids) by lia.
        replace (S (length seen) + S (length ids) - COMMAND_DEDUPE_MAX)%nat
          with (S (length ids)) by lia.
        rewrite <- app_assoc. reflexivity.
      * intros z Hz Hz'. apply elem_of_app in Hz' as [Hz'|Hz'].
        -- apply (Hfresh z); [now right|now right].
        -- apply list_elem_of_singleton in Hz'. now subst z.
Qed.

(** X8.  From a dict of at most [COMMAND_DEDUPE_MAX] ids: the dict never
    holds more than [COMMAND_DEDUPE_MAX] ids and never one twice; after
    calls for new, distinct ids it holds the last [COMMAND_DEDUPE_MAX] of
    the old and new ids together; so once [COMMAND_DEDUPE_MAX] new ids have
    come, every id that was in the dict before is forgotten: a call for it
    is accepted again. *)
Theorem dedupe_remembers_last_ids (seen ids : list Z) :
  (length seen <= COMMAND_DEDUPE_MAX)%nat ->
  (length (mark_all seen ids) <= COMMAND_DEDUPE_MAX)%nat
  /\ (NoDup seen -> NoDup (mark_all seen ids))
  /\ (NoDup ids -> (forall y, y ∈ ids -> y ∉ seen) ->
      mark_all seen ids
      = drop (length seen + length ids - COMMAND_DEDUPE_MAX) (seen ++ ids)
      /\ ((COMMAND_DEDUPE_MAX <= length ids)%nat ->
          forall x, x ∈ seen ->
            (_mark_command_seen (mark_all seen ids) x).1 = true)).
Proof.
  intros Hlen. split; [|split].
  - revert seen Hlen. induction ids as [|i ids IH]; intros seen Hlen; [exact Hlen|].
    rewrite mark_all_cons. apply IH. now apply mark_step_inv.
  - revert seen Hlen. induction ids as [|i ids IH]; intros seen Hlen Hnd; [exact Hnd|].
    rewrite mark_all_cons. destruct (mark_step_inv seen i Hlen) as [Hl Hn].
    apply IH; auto.
  - intros Hnd Hfresh. rewrite (mark_all_fresh ids seen Hlen Hnd Hfresh).
    split; [reflexivity|]. intros Hmany x Hx.
    rewrite drop_app_ge by lia.
    assert (Hnot : x ∉ drop (length seen + length ids - COMMAND_DEDUPE_MAX
                            - length seen) ids).
    { intros Hin. apply subseteq_drop in Hin. exact (Hfresh x Hin Hx). }
    destruct (mark_cases
                (drop (length seen + length ids - COMMAND_DEDUPE_MAX - length seen) ids) x)
      as [[Hin _]|[(_ & _ & ->)|(_ & _ & ->)]]; [contradiction|reflexivity|reflexivity].
Qed.

Lemma dedupe_remembers_last_ids_witness :
  mark_all [1; 2]%Z [3; 4]%Z
  = drop (2 + 2 - COMMAND_DEDUPE_MAX) [1; 2; 3; 4]%Z.
Proof.
  destruct (dedupe_remembers_last_ids [1; 2]%Z [3; 4]%Z) as (_ & _ & H).
  - unfold COMMAND_DEDUPE_MAX. simpl. lia.
  - apply H.
    + apply NoDup_ListNoDup. repeat constructor; simpl; intuition discriminate.
    + intros y Hy Hy'. apply list_elem_of_In in Hy, Hy'. simpl in Hy, Hy'.
      intuition congruence.
Defined.

(** *** The cooldown of the analysis *)

Lemma times_of_cons key m ms :
  times_of key (m :: ms)
  = if decide (in_key m = key) then in_ts m :: times_of key ms else times_of key ms.
Proof.
  unfold times_of. rewrite filter_cons. now destruct (decide (in_key m = key)).
Qed.

Lemma cooldown_passed_spec cooldown m :
  cooldown_passed cooldown m = true ->
  (6 <= String.length (in_content m))%nat
  /\ (COOLDOWN_SEC < in_ts m - default 0 (cooldown !! in_key m))%Q.
Proof.
  unfold cooldown_passed. cbv zeta. intros H.
  apply andb_true_iff in H as [Hlen Hq]. split.
  - now apply Nat.leb_le.
  - destruct (Qlt_le_dec COOLDOWN_SEC (in_ts m - default 0%Q (cooldown !! in_key m)));
      [assumption|discriminate].
Qed.

(** X9.  Whatever messages come, in whatever order and with whatever
    timestamps: the analysed messages all have at least 6 characters, and
    for every member each analysed message is stamped more than
    [COOLDOWN_SEC] after the member's analysed message before it (the first
    one after the member's entry of [USER_COOLDOWN], 0 if absent); the
    member's entry ends at the stamp of the member's last analysed
    message. *)
Theorem analyses_are_spaced
    (cooldown : gmap (Z * Z) Q) (ms : list Incoming) (key : Z * Z) :
  let r := analysed cooldown ms in
  Forall (fun m => (6 <= String.length (in_content m))%nat) r.1
  /\ spaced (default 0%Q (cooldown !! key)) (times_of key r.1)
  /\ r.2 !! key = match last (times_of key r.1) with
                  | Some t => Some t
                  | None => cooldown !! key
                  end.
Proof.
  cbv zeta. revert cooldown. induction ms as [|m ms IH]; intros cooldown.
  - simpl. repeat split. constructor.
  - simpl. destruct (cooldown_passed cooldown m) eqn:Hpass; [|apply IH].
    destruct (cooldown_passed_spec cooldown m Hpass) as [Hlen Hq].
    destruct (IH (<[in_key m := in_ts m]> cooldown)) as (Hall & Hsp & Hlast).
    simpl. split; [now constructor|].
    rewrite times_of_cons. destruct (decide (in_key m = key)) as [Hk|Hk].
    + rewrite Hk in *. rewrite lookup_insert_eq in Hsp, Hlast. simpl in Hsp.
      split; [split; assumption|].
      rewrite Hlast.
      destruct (times_of key (analysed (<[key:=in_ts m]> cooldown) ms).1)
        as [|t ts] eqn:Ht; [reflexivity|].
      change (last (in_ts m :: t :: ts)) with (last (t :: ts)).
      destruct (last (t :: ts)) eqn:El; [reflexivity|].
      apply last_None in El. discriminate.
    + rewrite lookup_insert_ne in Hsp, Hlast by exact Hk. split; assumption.
Qed.

End Main.

(** ** [cptMessageUtilisateur.py]: guilds, users and the message log *)

Module MessageLog.

Import Dates.

Local Open Scope Z_scope.

Definition _TTL : Q := 300.

(** [_recent], called when [time()] reads [now]: the answer and the cache
    after the call. *)
Definition _recent {K} `{Countable K} (cache : gmap K Q) (key : K) (now : Q)
    : bool * gmap K Q :=
  let exp := default 0%Q (cache !! key) in
  if Qlt_le_dec now exp then (true, cache)
  else (false, <[key := (now + _TTL)%Q]> cache).

(** The attributes of a [discord.Guild] and of a [discord.Member] that are
    read. *)
Record Guild := mkGuild {
  g_id : Z;
  g_name : string;
  g_owner_id : option Z;
  g_member_count : Z
}.

Record Member := mkMember {
  m_id : Z;
  m_str : string;
  m_avatar : option string;
  m_joined_at : option datetime;
  m_roles : list string
}.

(** Rows of [guilds] and [users]. *)
Record GuildRow := mkGuildRow {
  guild_name : string;
  owner_id : option Z;
  member_count : Z;
  premium_features_enabled : bool;
  plan : string;
  created_at : datetime;
  guild_last_update : datetime
}.

Record UserRow := mkUserRow {
  username : string;
  avatar_url : option string;
  join_date : option datetime;
  roles : list string;
  is_active : bool;
  user_last_update : datetime
}.

(** A row of [messages]. *)
Record MessageRow := mkMessageRow {
  msg_user_id : Z;
  msg_guild_id : Z;
  msg_channel_id : option Z;
  message_content : string;
  message_length : Z;
  timestamp : datetime
}.

(** The two caches of the module and the tables it writes. *)
Record State := mkState {
  _GUILD_CACHE : gmap Z Q;
  _USER_CACHE : gmap (Z * Z) Q;
  guilds : gmap Z GuildRow;
  users : gmap (Z * Z) UserRow;
  messages : list MessageRow
}.

(** [upsert_guild] for a guild that is not [None]; [now] is the reading of
    [time()], [db_now] the one of the database. *)
Definition upsert_guild (st : State) (guild : Guild) (now : Q) (db_now : datetime)
    : State :=
  let r := _recent (_GUILD_CACHE st) (g_id guild) now in
  if r.1 then st
  else
    let row :=
      match guilds st !! g_id guild with
      | None =>
          {| guild_name := g_name guild;
             owner_id := g_owner_id guild;
             member_count := g_member_count guild;
             premium_features_enabled := false;
             plan := "free";
             created_at := db_now;
             guild_last_update := db_now |}
      | Some old =>
          {| guild_name := g_name guild;
             owner_id := g_owner_id guild;
             member_count := g_member_count guild;
             premium_features_enabled := premium_features_enabled old;
             plan := plan old;
             created_at := created_at old;
             guild_last_update := db_now |}
      end in
    {| _GUILD_CACHE := r.2;
       _USER_CACHE := _USER_CACHE st;
       guilds := <[g_id guild := row]> (guilds st);
       users := users st;
       messages := messages st |}.

Definition role_names (member : Member) : list string :=
  filter (fun r => r <> "@everyone"%string) (m_roles member).

(** [upsert_user] for a member that is not [None]. *)
Definition upsert_user (st : State) (guild_id : Z) (member : Member)
    (now : Q) (db_now : datetime) : State :=
  let key := (guild_id, m_id member) in
  let r := _recent (_USER_CACHE st) key now in
  if r.1 then st
  else
    let row :=
      match users st !! (m_id member, guild_id) with
      | None =>
          {| username := m_str member;
             avatar_url := m_avatar member;
             join_date := m_joined_at member;
             roles := role_names member;
             is_active := true;
             user_last_update := db_now |}
      | Some old =>
          {| username := m_str member;
             avatar_url := m_avatar member;
             join_date := join_date old;
             roles := role_names member;
             is_active := true;
             user_last_update := db_now |}
      end in
    {| _GUILD_CACHE := _GUILD_CACHE st;
       _USER_CACHE := r.2;
       guilds := guilds st;
       users := <[(m_id member, guild_id) := row]> (users st);
       messages := messages st |}.

(** A [discord.Message] of a guild, with its author. *)
Record Incoming := mkIncoming {
  in_author : Member;
  in_guild : Guild;
  in_channel_id : option Z;
  in_channel_name : string;
  in_content : string;
  in_created_at : datetime
}.

(** [add_message]. *)
Definition add_message (st : State) (message : Incoming) : State :=
  {| _GUILD_CACHE := _GUILD_CACHE st;
     _USER_CACHE := _USER_CACHE st;
     guilds := guilds st;
     users := users st;
     messages :=
       messages st ++
       [ {| msg_user_id := m_id (in_author message);
            msg_guild_id := g_id (in_guild message);
            msg_channel_id := in_channel_id message;
            message_content := in_content message;
            message_length := Z.of_nat (String.length (in_content message));
            timestamp := in_created_at message |} ] |}.

(** The tables of [user_activity.py], with the keys of [users] as the
    transaction has them. *)
Definition activity_tables (st : State) (act : Activity.DB) : Activity.DB :=
  {| Activity.users := dom (users st);
     Activity.user_activity := Activity.user_activity act;
     Activity.user_message_daily := Activity.user_message_daily act |}.

Definition missing {K V} `{Countable K} (table : gmap K V) (key : K) : bool :=
  match table !! key with
  | None => true
  | Some _ => false
  end.

(** The statement of [upsert_user] raises when it inserts a row for a
    guild without row (the foreign key of [users]). *)
Definition user_insert_raises (st : State) (guild_id : Z) (member : Member)
    (now : Q) : bool :=
  negb (_recent (_USER_CACHE st) (guild_id, m_id member) now).1
  && missing (users st) (m_id member, guild_id)
  && missing (guilds st) guild_id.

(** The transaction of [on_message] in [main.py] for a message that is not
    a command: the two upserts, the counters of [user_activity.py] and the
    row of [messages], which is inserted at the commit.  The result is the
    tables once committed; [None] when a statement raises: the INSERT of
    the user, a statement of [process_new_message], or the INSERT of the
    message for a user or a guild without row. *)
Definition transaction (st : State) (act : Activity.DB) (message : Incoming)
    (time_guild time_user : Q) (now db_now : datetime)
    : option (State * Activity.DB) :=
  let guild_id := g_id (in_guild message) in
  let user_id := m_id (in_author message) in
  let st1 := upsert_guild st (in_guild message) time_guild db_now in
  if user_insert_raises st1 guild_id (in_author message) time_user then None
  else
    let st2 := upsert_user st1 guild_id (in_author message) time_user db_now in
    match Activity.process_new_message (activity_tables st2 act) user_id guild_id
            (in_channel_name message) (Some (in_content message)) now db_now with
    | None => None
    | Some act' =>
        if missing (users st2) (user_id, guild_id) || missing (guilds st2) guild_id
        then None
        else Some (add_message st2 message, act')
    end.

(** After a rollback the tables are as they were; the two caches are not
    part of the transaction and keep what [_recent] has written. *)
Definition rolled_back (st : State) (message : Incoming)
    (time_guild time_user : Q) (db_now : datetime) : State :=
  let st1 := upsert_guild st (in_guild message) time_guild db_now in
  let st2 := upsert_user st1 (g_id (in_guild message)) (in_author message)
               time_user db_now in
  {| _GUILD_CACHE := _GUILD_CACHE st2;
     _USER_CACHE := _USER_CACHE st2;
     guilds := guilds st;
     users := users st;
     messages := messages st |}.

(** What [on_message] leaves behind. *)
Definition store_message (st : State) (act : Activity.DB) (message : Incoming)
    (time_guild time_user : Q) (now db_now : datetime) : State * Activity.DB :=
  default (rolled_back st message time_guild time_user db_now, act)
          (transaction st act message time_guild time_user now db_now).

(** *** Vocabulary of the statements *)


(** The rows of [messages] of a user in a guild. *)
Definition logged (st : State) (user_id guild_id : Z) : list MessageRow :=
  filter (fun r => msg_user_id r = user_id /\ msg_guild_id r = guild_id)
         (messages st).

(** The message log and the activity counters tell the same: every user
    has as many rows in [messages] as [message_count] says. *)
Definition log_agrees (st : State) (act : Activity.DB) : Prop :=
  forall user_id guild_id,
    Activity.messages_of act user_id guild_id
    = Z.of_nat (length (logged st user_id guild_id)).

(** A message with the four clock readings of its transaction. *)
Record Arrival := mkArrival {
  ar_message : Incoming;
  ar_time_guild : Q;
  ar_time_user : Q;
  ar_now : datetime;
  ar_db_now : datetime
}.

Definition commit (st : State) (act : Activity.DB) (a : Arrival)
    : option (State * Activity.DB) :=
  transaction st act (ar_message a) (ar_time_guild a) (ar_time_user a)
              (ar_now a) (ar_db_now a).

(** The row of [messages] of an arrival. *)
Definition row_of (a : Arrival) : MessageRow :=
  {| msg_user_id := m_id (in_author (ar_message a));
     msg_guild_id := g_id (in_guild (ar_message a));
     msg_channel_id := in_channel_id (ar_message a);
     message_content := in_content (ar_message a);
     message_length := Z.of_nat (String.length (in_content (ar_message a)));
     timestamp := in_created_at (ar_message a) |}.

(** What an arrival leaves behind: the tables of its transaction when it
    is committed; the tables as they were, whatever the caches hold, when
    it is rolled back, because a statement raised for one of the causes
    above or for any other one. *)
Inductive stored (st : State) (act : Activity.DB) (a : Arrival)
    : State -> Activity.DB -> Prop :=
  | stored_commit st' act' : commit st act a = Some (st', act') -> stored st act a st' act'
  | stored_rollback st' :
      guilds st' = guilds st -> users st' = users st -> messages st' = messages st ->
      stored st act a st' act.

Inductive stored_all : State -> Activity.DB -> list Arrival
                       -> State -> Activity.DB -> Prop :=
  | stored_nil st act : stored_all st act [] st act
  | stored_cons st act a st1 act1 arrivals st' act' :
      stored st act a st1 act1 -> stored_all st1 act1 arrivals st' act' ->
      stored_all st act (a :: arrivals) st' act'.

(** The run in which a transaction is rolled back only when the tables
    make a statement raise. *)
Definition store_all (st : State) (act : Activity.DB) (arrivals : list Arrival)
    : State * Activity.DB :=
  fold_left (fun s a => store_message s.1 s.2 (ar_message a) (ar_time_guild a)
                          (ar_time_user a) (ar_now a) (ar_db_now a))
            arrivals (st, act).

(** *** Example data *)

Definition nothing_stored : State := mkState ∅ ∅ ∅ ∅ [].
Definition morning : datetime := mkdatetime (mkdate 2024 3 2) 32400.
Definition guild_1 : Guild := mkGuild 1 "guild" (Some 42) 10.
Definition guild_1_renamed : Guild := mkGuild 1 "renamed" (Some 42) 11.
Definition alice : Member :=
  mkMember 7 "alice" None (Some (mkdatetime (mkdate 2023 1 15) 0))
           ["@everyone"; "Admin"]%string.

(** *** Guilds are written once per [_TTL] *)

(** X10.  When the cache does not hold the guild as recent, [upsert_guild]
    stores the guild's name, owner and member count, keeping the other
    columns of an existing row; from then on a call for the same guild less
    than [_TTL] later writes nothing at all, whatever the guild's
    attributes have become, and a call [_TTL] or more later stores them. *)
Theorem guild_written_once_per_ttl
    (st : State) (guild : Guild) (now : Q) (db_now : datetime) :
  (default 0 (_GUILD_CACHE st !! g_id guild) <= now)%Q ->
  let st1 := upsert_guild st guild now db_now in
  (exists row,
      guilds st1 !! g_id guild = Some row
      /\ guild_name row = g_name guild
      /\ owner_id row = g_owner_id guild
      /\ member_count row = g_member_count guild
      /\ plan row = from_option plan "free"%string (guilds st !! g_id guild)
      /\ created_at row = from_option created_at db_now (guilds st !! g_id guild))
  /\ (forall guild' now' db_now',
        g_id guild' = g_id guild -> (now' < now + _TTL)%Q ->
        upsert_guild st1 guild' now' db_now' = st1)
  /\ (forall guild' now' db_now',
        g_id guild' = g_id guild -> (now + _TTL <= now')%Q ->
        guild_name <$> (guilds (upsert_guild st1 guild' now' db_now') !! g_id guild)
        = Some (g_name guild')).
Proof.
  intros Hexp. cbv zeta.
  assert (Hst1 : exists row,
             upsert_guild st guild now db_now
             = {| _GUILD_CACHE := <[g_id guild := (now + _TTL)%Q]> (_GUILD_CACHE st);
                  _USER_CACHE := _USER_CACHE st;
                  guilds := <[g_id guild := row]> (guilds st);
                  users := users st;
                  messages := messages st |}
             /\ guild_name row = g_name guild
             /\ owner_id row = g_owner_id guild
             /\ member_count row = g_member_count guild
             /\ plan row = from_option plan "free"%string (guilds st !! g_id guild)
             /\ created_at row = from_option created_at db_now (guilds st !! g_id guild)).
  { unfold upsert_guild, _recent. cbv zeta.
    destruct (Qlt_le_dec now (default 0%Q (_GUILD_CACHE st !! g_id guild))) as [Hlt|_];
      [exfalso; apply (Qlt_not_le _ _ Hlt); exact Hexp|].
    simpl. eexists. split; [reflexivity|].
    destruct (guilds st !! g_id guild); simpl; repeat apply conj; reflexivity. }
  destruct Hst1 as (row & -> & Hrow).
  split; [exists row; simpl; rewrite lookup_insert_eq; now split|]. split.
  - intros guild' now' db_now' Hid Hlt.
    unfold upsert_guild at 1, _recent. cbv zeta. simpl.
    rewrite Hid, lookup_insert_eq. simpl.
    destruct (Qlt_le_dec now' (now + _TTL)) as [_|Hle]; [reflexivity|].
    exfalso. apply (Qlt_not_le _ _ Hlt). exact Hle.
  - intros guild' now' db_now' Hid Hle.
    unfold upsert_guild at 1, _recent. cbv zeta. simpl.
    rewrite Hid, !lookup_insert_eq. simpl.
    destruct (Qlt_le_dec now' (now + _TTL)) as [Hlt|_];
      [exfalso; apply (Qlt_not_le _ _ Hlt); exact Hle|].
    simpl. rewrite lookup_insert_eq. reflexivity.
Qed.

Lemma guild_written_once_per_ttl_witness :
  upsert_guild (upsert_guild nothing_stored guild_1 1000 morning)
               guild_1_renamed 1299 morning
  = upsert_guild nothing_stored guild_1 1000 morning.
Proof.
  destruct (guild_written_once_per_ttl nothing_stored guild_1 1000 morning)
    as (_ & Hquiet & _).
  - vm_compute. discriminate.
  - apply Hquiet; [reflexivity|reflexivity].
Defined.

(** *** The join date of a user *)





(** *** The message log and the activity counters *)

Lemma upsert_guild_messages st guild now db_now :
  messages (upsert_guild st guild now db_now) = messages st.
Proof. unfold upsert_guild. cbv zeta. now destruct (_recent _ _ _).1. Qed.

Lemma upsert_user_messages st guild_id member now db_now :
  messages (upsert_user st guild_id member now db_now) = messages st.
Proof. unfold upsert_user. cbv zeta. now destruct (_recent _ _ _).1. Qed.

Lemma upsert_guild_users st guild now db_now :
  users (upsert_guild st guild now db_now) = users st
  /\ _USER_CACHE (upsert_guild st guild now db_now) = _USER_CACHE st.
Proof. unfold upsert_guild. cbv zeta. now destruct (_recent _ _ _).1. Qed.

Lemma logged_snoc st st' row user_id guild_id :
  messages st' = messages st ++ [row] ->
  logged st' user_id guild_id
  = logged st user_id guild_id
    ++ (if decide (msg_user_id row = user_id /\ msg_guild_id row = guild_id)
        then [row] else []).
Proof.
  intros Hm. unfold logged. rewrite Hm, filter_app. reflexivity.
Qed.

Lemma commit_adds_one st act a st' act' :
  commit st act a = Some (st', act') ->
  messages st' = messages st ++ [row_of a]
  /\ forall user_id guild_id,
       Activity.messages_of act' user_id guild_id
       = Activity.messages_of act user_id guild_id
         + (if decide ((msg_user_id (row_of a), msg_guild_id (row_of a))
                       = (user_id, guild_id)) then 1 else 0).
Proof.
  unfold commit, transaction. cbv zeta. intros H.
  destruct (user_insert_raises _ _ _ _); [discriminate|].
  destruct (Activity.process_new_message _ _ _ _ _ _ _) as [act1|] eqn:Hact;
    [|discriminate].
  destruct (_ || _); [discriminate|]. injection H as <- <-. split.
  - unfold add_message. simpl.
    now rewrite upsert_user_messages, upsert_guild_messages.
  - intros user_id guild_id.
    destruct (Activity.process_new_message_counts _ _ _ _ _ _ _ _ Hact user_id guild_id)
      as [Hm _].
    exact Hm.
Qed.

Lemma stored_agrees st act a st' act' :
  log_agrees st act -> stored st act a st' act' ->
  log_agrees st' act' /\ (length (messages st') <= S (length (messages st)))%nat.
Proof.
  intros Hagree [st1 act1 H|st1 _ _ Hm].
  - apply commit_adds_one in H as [Hm Hc]. split.
    + intros user_id guild_id.
      rewrite Hc, (logged_snoc st st1 _ user_id guild_id Hm), length_app,
        (Hagree user_id guild_id).
      destruct (decide (msg_user_id (row_of a) = user_id
                        /\ msg_guild_id (row_of a) = guild_id)) as [[<- <-]|Hne].
      * rewrite decide_True by reflexivity. simpl. lia.
      * rewrite decide_False; [simpl; lia|]. intros [= <- <-]. now apply Hne.
    + rewrite Hm, length_app. simpl. lia.
  - split; [|rewrite Hm; lia].
    intros user_id guild_id. unfold logged. rewrite Hm. apply Hagree.
Qed.

Lemma store_message_stored st act a :
  let r := store_message st act (ar_message a) (ar_time_guild a) (ar_time_user a)
             (ar_now a) (ar_db_now a) in
  stored st act a r.1 r.2.
Proof.
  cbv zeta. unfold store_message. fold (commit st act a).
  destruct (commit st act a) as [[st' act']|] eqn:H; simpl.
  - now apply stored_commit.
  - now apply stored_rollback.
Qed.

Lemma store_all_stored st act arrivals :
  stored_all st act arrivals (store_all st act arrivals).1 (store_all st act arrivals).2.
Proof.
  revert st act. induction arrivals as [|a arrivals IH]; intros st act; [constructor|].
  unfold store_all. simpl.
  pose proof (store_message_stored st act a) as H. cbv zeta in H.
  destruct (store_message st act _ _ _ _ _) as [st1 act1].
  eapply stored_cons; [exact H|]. apply IH.
Qed.

Lemma not_stored_while_recent st act a :
  let user_id := m_id (in_author (ar_message a)) in
  let guild_id := g_id (in_guild (ar_message a)) in
  users st !! (user_id, guild_id) = None ->
  (ar_time_user a < default 0 (_USER_CACHE st !! (guild_id, user_id)))%Q ->
  commit st act a = None.
Proof.
  cbv zeta. intros Hrow Hrecent. unfold commit, transaction. cbv zeta.
  set (st1 := upsert_guild st _ _ _).
  destruct (upsert_guild_users st (in_guild (ar_message a)) (ar_time_guild a)
              (ar_db_now a)) as [Hu Hc].
  fold st1 in Hu, Hc.
  assert (Hst2 : upsert_user st1 (g_id (in_guild (ar_message a)))
                   (in_author (ar_message a)) (ar_time_user a) (ar_db_now a) = st1).
  { unfold upsert_user, _recent. cbv zeta. rewrite Hc.
    destruct (Qlt_le_dec _ _) as [_|Hle]; [reflexivity|].
    exfalso. apply (Qlt_not_le _ _ Hrecent). exact Hle. }
  rewrite Hst2.
  destruct (user_insert_raises _ _ _ _); [reflexivity|].
  destruct (Activity.process_new_message _ _ _ _ _ _ _); [|reflexivity].
  unfold missing at 1. rewrite Hu, Hrow. reflexivity.
Qed.

(** X12.  From tables in which every user has as many rows in [messages]
    as [message_count] says, any list of messages, the transaction of each
    committed or rolled back, leaves tables in which the log and the
    counters still agree, with at most one more row per message.  A
    committed transaction adds the row of its message at the end of the
    log and one to the author's [message_count].  While the cache holds as
    recent a user who has no row in [users], no message of the user can be
    stored: [upsert_user] is skipped and the transaction is rolled
    back. *)
Theorem log_and_counters_agree
    (st : State) (act : Activity.DB) (arrivals : list Arrival) :
  log_agrees st act ->
  (forall st' act',
     stored_all st act arrivals st' act' ->
     log_agrees st' act'
     /\ (length (messages st') <= length (messages st) + length arrivals)%nat)
  /\ log_agrees (store_all st act arrivals).1 (store_all st act arrivals).2
  /\ (forall a st' act',
        commit st act a = Some (st', act') ->
        messages st' = messages st ++ [row_of a]
        /\ Activity.messages_of act' (msg_user_id (row_of a)) (msg_guild_id (row_of a))
           = Activity.messages_of act (msg_user_id (row_of a)) (msg_guild_id (row_of a))
             + 1)
  /\ (forall a,
        users st !! (msg_user_id (row_of a), msg_guild_id (row_of a)) = None ->
        (ar_time_user a
         < default 0 (_USER_CACHE st !! (msg_guild_id (row_of a), msg_user_id (row_of a))))%Q ->
        commit st act a = None
        /\ messages (store_message st act (ar_message a) (ar_time_guild a)
                       (ar_time_user a) (ar_now a) (ar_db_now a)).1
           = messages st).
Proof.
  intros Hagree.
  assert (Hall : forall st' act',
             stored_all st act arrivals st' act' ->
             log_agrees st' act'
             /\ (length (messages st') <= length (messages st) + length arrivals)%nat).
  { intros st' act' H.
    induction H as [|st act a st1 act1 arrivals st' act' H1 _ IH];
      [split; [exact Hagree|lia]|].
    destruct (stored_agrees _ _ _ _ _ Hagree H1) as [Hagree1 Hlen1].
    destruct (IH Hagree1) as [Hagree' Hlen']. split; [exact Hagree'|].
    simpl length. lia. }
  split; [exact Hall|]. split; [apply Hall, store_all_stored|]. split.
  - intros a st' act' H. apply commit_adds_one in H as [Hm Hc].
    split; [exact Hm|]. rewrite Hc, decide_True by reflexivity. reflexivity.
  - intros a Hrow Hrecent.
    pose proof (not_stored_while_recent st act a Hrow Hrecent) as H.
    split; [exact H|]. unfold store_message. fold (commit st act a).
    rewrite H. reflexivity.
Qed.

Definition hello : Arrival :=
  mkArrival (mkIncoming alice guild_1 (Some 5) "general" "hello" morning)
            1000 1000 morning morning.

Definition again : Arrival :=
  mkArrival (mkIncoming alice guild_1 None "general" "" morning)
            1001 1001 morning morning.

Lemma nothing_stored_agrees : log_agrees nothing_stored Activity.empty_db.
Proof. intros user_id guild_id. reflexivity. Qed.

Lemma log_and_counters_agree_witness :
  let r := store_all nothing_stored Activity.empty_db [hello; again] in
  length (messages r.1) = 2%nat
  /\ Activity.messages_of r.2 7 1 = 2
  /\ Activity.messages_of r.2 7 1 = Z.of_nat (length (logged r.1 7 1))
  /\ commit (rolled_back nothing_stored (ar_message hello) 1000 1000 morning)
            Activity.empty_db again = None.
Proof.
  cbv zeta. split; [vm_compute; reflexivity|]. split; [vm_compute; reflexivity|].
  split.
  - apply (log_and_counters_agree nothing_stored Activity.empty_db [hello; again]
             nothing_stored_agrees).
  - apply (log_and_counters_agree
             (rolled_back nothing_stored (ar_message hello) 1000 1000 morning)
             Activity.empty_db [] nothing_stored_agrees).
    + reflexivity.
    + vm_compute. reflexivity.
Defined.

End MessageLog.

(** ** [rank_system.py]: the position and the progress bar of [!rank] *)

Module Ranking.

Import RankSystem.

Local Open Scope Q_scope.

(** [_progress_bar]: the bar as the list of its cells, [true] for a full
    one.  A string repeated a negative number of times is empty. *)
Definition _progress_bar (score_0_100 : Q) (width : Z) : list bool :=
  let filled := UserProfile.round_half_even (score_0_100 / 100.0 * inject_Z width) in
  repeat true (Z.to_nat filled) ++ repeat false (Z.to_nat (width - filled)).

(** The description of the embed of [cmd_rank]. *)
Definition embed_description (r : RankEmbed) : list bool :=
  _progress_bar (embed_score r) 20.

(** *** Vocabulary of the statements *)

(** The list [combined_all] of [cmd_rank] before it is sorted. *)
Definition combined (profiles : list (Z * Q * Q)) : list (Z * Q) :=
  let eng_values := map (fun p => snd (fst p)) profiles in
  map (fun p => (fst (fst p),
                 _score_combined (_minmax_norm eng_values (snd (fst p))) (snd p)))
      profiles.

(** How many entries have a score above [s], and how many at least [s]. *)
Fixpoint count_above (s : Q) (l : list (Z * Q)) : nat :=
  match l with
  | [] => 0
  | p :: l' => ((if Qle_bool (snd p) s then 0 else 1) + count_above s l')%nat
  end.

Fixpoint count_at_least (s : Q) (l : list (Z * Q)) : nat :=
  match l with
  | [] => 0
  | p :: l' => ((if Qle_bool s (snd p) then 1 else 0) + count_at_least s l')%nat
  end.

(** Every entry has a score at most the ones before it. *)
Fixpoint descending (l : list (Z * Q)) : Prop :=
  match l with
  | [] => True
  | p :: l' => Forall (fun q => snd q <= snd p) l' /\ descending l'
  end.

(** *** Example data *)

Definition three_profiles : list (Z * Q * Q) :=
  [ (1%Z, 10, 0); (2%Z, 20, 0.5); (3%Z, 0, 0) ].

(** *** The sort *)

Lemma insert_desc_perm p l : insert_desc p l ≡ₚ p :: l.
Proof.
  induction l as [|q l IH]; simpl; [reflexivity|].
  destruct (Qle_bool (snd q) (snd p)); [reflexivity|].
  rewrite IH. apply Permutation_swap.
Qed.

Lemma sort_desc_perm l : sort_desc l ≡ₚ l.
Proof.
  induction l as [|p l IH]; simpl; [reflexivity|].
  unfold sort_desc in *. simpl. rewrite insert_desc_perm. now rewrite IH.
Qed.

Lemma insert_desc_descending p l : descending l -> descending (insert_desc p l).
Proof.
  induction l as [|q l IH]; simpl; intros Hd.
  - split; [constructor|exact I].
  - destruct Hd as [Hq Hd].
    destruct (Qle_bool (snd q) (snd p)) eqn:Hle; simpl.
    + apply Qle_bool_iff in Hle. split; [|split; assumption].
      constructor; [exact Hle|].
      eapply Forall_impl; [exact Hq|]. simpl. intros x Hx. lra.
    + apply Qle_bool_false in Hle. split; [|now apply IH].
      rewrite insert_desc_perm. constructor; [lra|exact Hq].
Qed.

Lemma sort_desc_descending l : descending (sort_desc l).
Proof.
  induction l as [|p l IH]; [exact I|].
  unfold sort_desc in *. simpl. now apply insert_desc_descending.
Qed.

Lemma count_above_perm s l k : l ≡ₚ k -> count_above s l = count_above s k.
Proof. induction 1; simpl; lia. Qed.

Lemma count_at_least_perm s l k : l ≡ₚ k -> count_at_least s l = count_at_least s k.
Proof. induction 1; simpl; lia. Qed.

Lemma descending_app l k :
  descending (l ++ k) ->
  descending k /\ Forall (fun a => Forall (fun b => snd b <= snd a) k) l.
Proof.
  induction l as [|a l IH]; simpl; intros Hd; [split; [exact Hd|constructor]|].
  destruct Hd as [Ha Hd]. destruct (IH Hd) as [Hk Hl].
  split; [exact Hk|]. constructor; [|exact Hl].
  apply Forall_app in Ha. tauto.
Qed.

Lemma count_above_app s l k :
  count_above s (l ++ k) = (count_above s l + count_above s k)%nat.
Proof. induction l as [|p l IH]; simpl; lia. Qed.

Lemma count_at_least_app s l k :
  count_at_least s (l ++ k) = (count_at_least s l + count_at_least s k)%nat.
Proof. induction l as [|p l IH]; simpl; lia. Qed.

Lemma count_above_le s l : (count_above s l <= length l)%nat.
Proof. induction l as [|p l IH]; simpl; [lia|]. destruct (Qle_bool _ _); lia. Qed.

Lemma count_above_none s l :
  Forall (fun q => snd q <= s) l -> count_above s l = 0%nat.
Proof.
  induction 1 as [|q l Hq _ IH]; simpl; [reflexivity|].
  apply Qle_bool_iff in Hq. now rewrite Hq, IH.
Qed.

Lemma count_at_least_all s l :
  Forall (fun q => s <= snd q) l -> count_at_least s l = length l.
Proof.
  induction 1 as [|q l Hq _ IH]; simpl; [reflexivity|].
  apply Qle_bool_iff in Hq. now rewrite Hq, IH.
Qed.

(** In a descending list, the entries above the score of an entry all come
    before it, and the entries before it all have at least its score. *)
Lemma descending_counts pre u s post :
  descending (pre ++ (u, s) :: post) ->
  (count_above s (pre ++ (u, s) :: post) <= length pre)%nat
  /\ (length pre < count_at_least s (pre ++ (u, s) :: post))%nat.
Proof.
  intros Hd. destruct (descending_app _ _ Hd) as [[Hpost _] Hpre].
  rewrite count_above_app, count_at_least_app. split.
  - rewrite (count_above_none s ((u, s) :: post)).
    + pose proof (count_above_le s pre). lia.
    + constructor; [simpl; lra|exact Hpost].
  - rewrite (count_at_least_all s pre).
    + simpl. assert (Hs : Qle_bool s s = true) by (apply Qle_bool_iff; lra).
      rewrite Hs. lia.
    + eapply Forall_impl; [exact Hpre|]. intros a Ha.
      apply Forall_inv in Ha. exact Ha.
Qed.

(** *** The index of the member *)

Lemma index_of_first u l : forall i n,
  index_of u l i = Some n ->
  exists pre s post,
    l = pre ++ (u, s) :: post /\ n = (i + length pre)%nat
    /\ ~ In u (map fst pre).
Proof.
  induction l as [|[uid s] l IH]; intros i n; simpl; [discriminate|].
  destruct (decide (uid = u)) as [->|Hne].
  - intros [= <-]. exists [], s, l. repeat split; [simpl; lia|intros []].
  - intros H. destruct (IH _ _ H) as (pre & s' & post & -> & -> & Hnot).
    exists ((uid, s) :: pre), s', post. repeat split; [simpl; lia|].
    simpl. intros [Heq|Hin]; [now apply Hne|now apply Hnot].
Qed.

Lemma index_of_in u l : forall i,
  In u (map fst l) -> exists n, index_of u l i = Some n.
Proof.
  induction l as [|[uid s] l IH]; intros i; simpl; [intros []|].
  destruct (decide (uid = u)) as [->|Hne]; [eauto|].
  intros [Heq|Hin]; [contradiction|now apply IH].
Qed.

Lemma index_of_not_in u l : forall i,
  ~ In u (map fst l) -> index_of u l i = None.
Proof.
  induction l as [|[uid s] l IH]; intros i; simpl; [reflexivity|].
  destruct (decide (uid = u)) as [->|Hne]; [intros H; exfalso; apply H; now left|].
  intros H. apply IH. intros Hin. apply H. now right.
Qed.

(** *** The dictionaries *)

Lemma dict_fold_not_in k l : forall m : gmap Z Q,
  ~ In k (map fst l) ->
  fold_left (fun m p => <[fst p := snd p]> m) l m !! k = m !! k.
Proof.
  induction l as [|[k' v'] l IH]; intros m Hnot; simpl; [reflexivity|].
  rewrite IH by (intros Hin; apply Hnot; now right).
  apply lookup_insert_ne. intros ->. apply Hnot. now left.
Qed.

Lemma dict_fold_in k v l : forall m : gmap Z Q,
  List.NoDup (map fst l) -> In (k, v) l ->
  fold_left (fun m p => <[fst p := snd p]> m) l m !! k = Some v.
Proof.
  induction l as [|[k' v'] l IH]; intros m Hnd Hin; simpl in *; [contradiction|].
  inversion Hnd as [|? ? Hk' Hnd']; subst.
  destruct Hin as [[= -> ->]|Hin].
  - rewrite dict_fold_not_in by exact Hk'. apply lookup_insert_eq.
  - now apply IH.
Qed.

Lemma combined_ids profiles :
  map fst (combined profiles) = map (fun p => fst (fst p)) profiles.
Proof. unfold combined. cbv zeta. now rewrite map_map. Qed.

Lemma cmd_rank_nonempty profiles user_id :
  profiles <> [] ->
  cmd_rank profiles user_id
  = let eng_map := dict_of (map (fun p => (fst (fst p), snd (fst p))) profiles) in
    let tox_map := dict_of (map (fun p => (fst (fst p), snd p)) profiles) in
    let eng_user := default 0 (eng_map !! user_id) in
    let tox_user := default 0 (tox_map !! user_id) in
    let eng_norm := _minmax_norm (map (fun p => snd (fst p)) profiles) eng_user in
    let score_user := _score_combined eng_norm tox_user in
    let combined_all := sort_desc (combined profiles) in
    Some {| embed_score := score_user;
            embed_tier := pick_tier score_user;
            embed_position :=
              (1 + default (length combined_all - 1)
                           (index_of user_id combined_all 0))%nat;
            embed_total := length combined_all;
            embed_eng_norm := eng_norm;
            embed_positivity_pct := Py.max 0 (Py.min 100 ((1 - tox_user) * 100));
            embed_next := next_hint score_user |}.
Proof. destruct profiles; [contradiction|reflexivity]. Qed.

(** X13.  In the embed of [cmd_rank]: the total is the number of rows, and
    the position lies between 1 and the total.  A member without a row is
    given the last position, whatever the score shown.  When every member
    has one row, the position of a member with a row is consistent with
    the score shown: it is above the number of members with a higher
    score, and at most the number of members with at least that score. *)
Theorem rank_position (profiles : list (Z * Q * Q)) (user_id : Z) (r : RankEmbed) :
  cmd_rank profiles user_id = Some r ->
  let ids := map (fun p => fst (fst p)) profiles in
  embed_total r = length profiles
  /\ (1 <= embed_position r <= embed_total r)%nat
  /\ (~ In user_id ids -> embed_position r = embed_total r)
  /\ (List.NoDup ids -> In user_id ids ->
      (count_above (embed_score r) (combined profiles) < embed_position r
       <= count_at_least (embed_score r) (combined profiles))%nat).
Proof.
  intros Hr. cbv zeta.
  pose proof (sort_desc_perm (combined profiles)) as Hperm.
  pose proof (sort_desc_descending (combined profiles)) as Hdesc.
  assert (Hlen : length (sort_desc (combined profiles)) = length profiles).
  { rewrite (Permutation_length Hperm). unfold combined. cbv zeta.
    apply length_map. }
  assert (Hids : forall u, In u (map fst (sort_desc (combined profiles)))
                           <-> In u (map (fun p => fst (fst p)) profiles)).
  { intros u. rewrite <- combined_ids. split; apply Permutation_in;
      [apply Permutation_map; exact Hperm
      |apply Permutation_map; symmetry; exact Hperm]. }
  assert (Hne : profiles <> []) by (intros ->; discriminate).
  rewrite (cmd_rank_nonempty _ _ Hne) in Hr. cbv zeta in Hr.
  injection Hr as <-. cbn [embed_total embed_position embed_score].
  assert (Hpos : (0 < length profiles)%nat).
  { destruct profiles; [contradiction|simpl; lia]. }
  set (ps := profiles) in *.
  destruct (index_of user_id (sort_desc (combined ps)) 0) as [n|] eqn:Hidx; simpl default.
  - destruct (index_of_first _ _ _ _ Hidx) as (pre & s & post & Hsorted & -> & Hfirst).
    simpl plus.
    assert (Hn : (length pre < length ps)%nat).
    { rewrite <- Hlen, Hsorted, length_app. simpl. lia. }
    split; [exact Hlen|]. split; [lia|]. split.
    + intros Hnot. exfalso. apply Hnot. apply Hids.
      rewrite Hsorted, map_app. apply in_or_app. right. now left.
    + intros Hnd _.
      assert (Hin : In (user_id, s) (combined ps)).
      { apply (Permutation_in _ Hperm). rewrite Hsorted.
        apply in_or_app. right. now left. }
      unfold combined in Hin. cbv zeta in Hin.
      apply in_map_iff in Hin as ([[u e] t] & [= -> <-] & Hp). simpl in *.
      assert (He : dict_of (map (fun p => (fst (fst p), snd (fst p))) ps) !! user_id
                   = Some e).
      { unfold dict_of. apply dict_fold_in.
        - rewrite map_map. exact Hnd.
        - apply in_map_iff. exists (user_id, e, t). now split. }
      assert (Ht : dict_of (map (fun p => (fst (fst p), snd p)) ps) !! user_id = Some t).
      { unfold dict_of. apply dict_fold_in.
        - rewrite map_map. exact Hnd.
        - apply in_map_iff. exists (user_id, e, t). now split. }
      rewrite He, Ht. simpl default.
      rewrite Hsorted in Hdesc.
      destruct (descending_counts _ _ _ _ Hdesc) as [Ha Hb].
      rewrite <- Hsorted in Ha, Hb.
      rewrite (count_above_perm _ _ _ Hperm) in Ha.
      rewrite (count_at_least_perm _ _ _ Hperm) in Hb.
      lia.
  - rewrite Hlen. split; [reflexivity|]. split; [lia|]. split; [intros _; lia|].
    intros _ Hin. apply Hids in Hin.
    destruct (index_of_in user_id _ 0%nat Hin) as [n Hn]. congruence.
Qed.

Lemma rank_position_witness :
  exists r,
    cmd_rank three_profiles 2 = Some r
    /\ embed_total r = 3%nat
    /\ (1 <= embed_position r <= 3)%nat.
Proof.
  eexists. split; [reflexivity|].
  destruct (rank_position three_profiles 2 _ eq_refl) as (Htotal & Hpos & _).
  split; [exact Htotal|]. rewrite Htotal in Hpos. exact Hpos.
Defined.

(** *** The progress bar *)

Lemma progress_bar_cells score width :
  0 <= score <= 100 -> (0 <= width)%Z ->
  exists filled : Z,
    (0 <= filled <= width)%Z
    /\ _progress_bar score width
       = repeat true (Z.to_nat filled) ++ repeat false (Z.to_nat (width - filled))
    /\ -(1 # 2) <= inject_Z filled - score / 100 * inject_Z width <= 1 # 2.
Proof.
  intros [H0 H1] Hw.
  remember (score / 100.0 * inject_Z width) as x eqn:Hxdef.
  pose proof (UserProfile.round_half_even_near x) as [Hlo Hhi].
  assert (Hwq : 0 <= inject_Z width).
  { change 0 with (inject_Z 0). now rewrite <- Zle_Qle. }
  assert (Hx : 0 <= x <= inject_Z width).
  { assert (Hdiv : score / 100.0 == score * (1 # 100)) by field.
    rewrite Hxdef, Hdiv. split.
    - apply Qmult_le_0_compat; [lra|exact Hwq].
    - apply Qle_trans with (1 * inject_Z width);
        [apply Qmult_le_compat_r; [lra|exact Hwq]
        |rewrite Qmult_1_l; apply Qle_refl]. }
  destruct Hx as [Hx0 Hx1].
  exists (UserProfile.round_half_even x). split; [|split].
  - split.
    + assert (H : inject_Z (-1) < inject_Z (UserProfile.round_half_even x)).
      { change (inject_Z (-1)) with (-1). lra. }
      rewrite <- Zlt_Qlt in H. lia.
    + assert (H : inject_Z (UserProfile.round_half_even x) < inject_Z (width + 1)).
      { rewrite inject_Z_plus. change (inject_Z 1) with 1. lra. }
      rewrite <- Zlt_Qlt in H. lia.
  - unfold _progress_bar. cbv zeta. now rewrite <- Hxdef.
  - setoid_replace (score / 100 * inject_Z width) with x using relation Qeq
      by (rewrite Hxdef; field).
    split; assumption.
Qed.

(** X14.  The description of the embed of [cmd_rank] is a bar of exactly 20
    cells, the full ones first, and the number of full cells is within a
    half of the score divided by 5. *)
Theorem progress_bar_of_rank
    (profiles : list (Z * Q * Q)) (user_id : Z) (r : RankEmbed) :
  cmd_rank profiles user_id = Some r ->
  length (embed_description r) = 20%nat
  /\ exists filled : nat,
       (filled <= 20)%nat
       /\ embed_description r = repeat true filled ++ repeat false (20 - filled)
       /\ -(1 # 2) <= inject_Z (Z.of_nat filled) - embed_score r / 5 <= 1 # 2.
Proof.
  intros Hr.
  assert (Hscore : 0 <= embed_score r <= 100).
  { assert (Hne : profiles <> []) by (intros ->; discriminate).
    rewrite (cmd_rank_nonempty _ _ Hne) in Hr. cbv zeta in Hr.
    injection Hr as <-. cbn [embed_score].
    apply score_combined_range, minmax_norm_range. }
  destruct (progress_bar_cells (embed_score r) 20 Hscore) as (f & Hf & Hbar & Hnear);
    [lia|].
  unfold embed_description. rewrite Hbar.
  assert (Hsub : Z.to_nat (20 - f) = (20 - Z.to_nat f)%nat) by lia.
  rewrite Hsub. split.
  - rewrite length_app, !repeat_length. lia.
  - exists (Z.to_nat f). split; [lia|]. split; [reflexivity|].
    rewrite Z2Nat.id by lia.
    setoid_replace (embed_score r / 5) with (embed_score r / 100 * inject_Z 20)
      using relation Qeq by (change (inject_Z 20) with 20; field).
    exact Hnear.
Qed.

Lemma progress_bar_of_rank_witness :
  exists r,
    cmd_rank three_profiles 2 = Some r /\ length (embed_description r) = 20%nat.
Proof.
  eexists. split; [reflexivity|].
  exact (proj1 (progress_bar_of_rank three_profiles 2 _ eq_refl)).
Defined.

End Ranking.

(** ** [user_profile.py]: streak, message rank and durations *)

Module ProfileStats.

Import Dates.

Local Open Scope Z_scope.

(** *** The streak loop *)

(** The set [days] of [_streak_days]. *)
Definition recent_days (db : UserProfile.DB) (user_id guild_id : Z) (today : date)
    (max_lookback : nat) : gset date :=
  let since := minus_days today max_lookback in
  let days : gset date :=
    list_to_set
      ((fun r : Z * Z * date * Z => r.1.2) <$>
         filter (fun r : Z * Z * date * Z =>
                   r.1.1.1 = user_id /\ r.1.1.2 = guild_id
                   /\ date_leb since r.1.2 = true /\ 0 < r.2)
                (map_to_list (UserProfile.user_message_daily db))) in
  if decide (days = ∅)
  then list_to_set
         ((fun m : Z * Z * date => m.2) <$>
            filter (fun m : Z * Z * date =>
                      m.1.1 = user_id /\ m.1.2 = guild_id
                      /\ date_leb since m.2 = true)
                   (UserProfile.messages db))
  else days.

Lemma streak_days_recent db user_id guild_id today max_lookback :
  UserProfile._streak_days db user_id guild_id today max_lookback
  = streak_from (recent_days db user_id guild_id today max_lookback) today.
Proof. reflexivity. Qed.

Lemma recent_days_since db user_id guild_id today max_lookback d :
  d ∈ recent_days db user_id guild_id today max_lookback ->
  date_leb (minus_days today max_lookback) d = true.
Proof.
  unfold recent_days. cbv zeta.
  destruct (decide (_ = ∅)) as [_|_]; intros Hd;
    apply elem_of_list_to_set, list_elem_of_fmap in Hd as (x & -> & Hx);
    apply list_elem_of_filter in Hx as [Hx _]; tauto.
Qed.

Lemma minus_days_S d k : minus_days d (S k) = prev_day (minus_days d k).
Proof. reflexivity. Qed.

Lemma minus_days_prev d k : minus_days (prev_day d) k = minus_days d (S k).
Proof.
  induction k as [|k IH]; [reflexivity|].
  rewrite minus_days_S, IH. reflexivity.
Qed.

Lemma streak_loop_spec days : forall fuel d streak,
  exists n : nat,
    streak_loop fuel days d streak = streak + Z.of_nat n
    /\ (n <= fuel)%nat
    /\ (forall k, (k < n)%nat -> minus_days d k ∈ days)
    /\ ((n < fuel)%nat -> minus_days d n ∉ days).
Proof.
  induction fuel as [|fuel IH]; intros d streak; simpl.
  - exists 0%nat. repeat split; try lia; intros k Hk; lia.
  - destruct (decide (d ∈ days)) as [Hd|Hd].
    + destruct (IH (prev_day d) (streak + 1)) as (n & Heq & Hle & Hin & Hout).
      exists (S n). split; [rewrite Heq; lia|]. split; [lia|]. split.
      * intros [|k] Hk; [exact Hd|]. rewrite <- minus_days_prev. apply Hin. lia.
      * intros Hlt. rewrite <- minus_days_prev. apply Hout. lia.
    + exists 0%nat. split; [lia|]. split; [lia|]. split.
      * intros k Hk. lia.
      * intros _. exact Hd.
Qed.

Lemma streak_from_spec days d :
  exists n : nat,
    streak_from days d = Z.of_nat n
    /\ (forall k, (k < n)%nat -> minus_days d k ∈ days)
    /\ minus_days d n ∉ days.
Proof.
  destruct (streak_loop_spec days (S (S (size days))) d 0)
    as (n & Heq & Hle & Hin & Hout).
  rewrite (streak_from_total days d (S (S (size days)))) in Heq by lia.
  destruct (streak_loop_spec days (S (size days)) d 0)
    as (n' & Heq' & Hle' & _ & _).
  fold (streak_from days d) in Heq'.
  exists n. split; [rewrite Heq; lia|]. split; [exact Hin|].
  apply Hout. rewrite Heq in Heq'. lia.
Qed.

(** X15.  [_streak_days] returns a number [n] between 0 and
    [max_lookback + 1] such that each of the [n] days ending [today] is in
    the set of days read from the tables, and the day before them is not:
    the streak is the number of consecutive days ending today with a
    message, not cut at the start of a month. *)
Theorem streak_days_is_run_ending_today
    (db : UserProfile.DB) (user_id guild_id : Z) (today : date) (max_lookback : nat) :
  let days := recent_days db user_id guild_id today max_lookback in
  exists n : nat,
    UserProfile._streak_days db user_id guild_id today max_lookback = Z.of_nat n
    /\ (n <= max_lookback + 1)%nat
    /\ (forall k, (k < n)%nat -> minus_days today k ∈ days)
    /\ minus_days today n ∉ days.
Proof.
  cbv zeta. rewrite streak_days_recent.
  destruct (streak_from_spec (recent_days db user_id guild_id today max_lookback) today)
    as (n & Heq & Hin & Hout).
  exists n. split; [exact Heq|]. split; [|split; assumption].
  destruct (le_lt_dec n (max_lookback + 1)) as [Hle|Hgt]; [exact Hle|exfalso].
  assert (Hday : minus_days today (S max_lookback)
                 ∈ recent_days db user_id guild_id today max_lookback)
    by (apply Hin; lia).
  apply recent_days_since in Hday.
  rewrite minus_days_S, prev_day_not_leb in Hday. discriminate.
Qed.

(** *** Durations *)

(** What [format_seconds] prints: hours and minutes, minutes and seconds,
    or seconds. *)
Inductive Human :=
  | HoursMinutes (h m : Z)
  | MinutesSeconds (m s : Z)
  | Seconds (s : Z).

Definition format_seconds (seconds : Z) : Human :=
  let h := Z.max 0 seconds / 3600 in
  let rem := Z.max 0 seconds mod 3600 in
  let m := rem / 60 in
  let s := rem mod 60 in
  if negb (h =? 0) then HoursMinutes h m
  else if negb (m =? 0) then MinutesSeconds m s
  else Seconds s.

(** X16.  [format_seconds] never shows a negative number; what it shows
    determines the duration exactly below one hour, and to the minute from
    one hour on, where the seconds are dropped: a negative duration is
    shown as 0 seconds. *)
Theorem format_seconds_parts (seconds : Z) :
  match format_seconds seconds with
  | HoursMinutes h m =>
      1 <= h /\ 0 <= m < 60
      /\ 3600 * h + 60 * m <= seconds < 3600 * h + 60 * m + 60
  | MinutesSeconds m s =>
      1 <= m < 60 /\ 0 <= s < 60 /\ seconds = 60 * m + s
  | Seconds s =>
      0 <= s < 60 /\ s = Z.max 0 seconds
  end.
Proof.
  unfold format_seconds. cbv zeta.
  set (x := Z.max 0 seconds).
  assert (Hx : 0 <= x) by (unfold x; lia).
  pose proof (Z.div_mod x 3600 ltac:(lia)) as Hdm.
  pose proof (Z.mod_pos_bound x 3600 ltac:(lia)) as Hrem.
  pose proof (Z.div_mod (x mod 3600) 60 ltac:(lia)) as Hdm'.
  pose proof (Z.mod_pos_bound (x mod 3600) 60 ltac:(lia)) as Hs.
  assert (Hh : 0 <= x / 3600) by (apply Z.div_pos; lia).
  assert (Hm : 0 <= x mod 3600 / 60 < 60).
  { split; [apply Z.div_pos; lia|apply Z.div_lt_upper_bound; lia]. }
  destruct (x / 3600 =? 0) eqn:Eh; simpl.
  - apply Z.eqb_eq in Eh.
    destruct (x mod 3600 / 60 =? 0) eqn:Em; simpl.
    + apply Z.eqb_eq in Em. unfold x in *. lia.
    + apply Z.eqb_neq in Em. unfold x in *. lia.
  - apply Z.eqb_neq in Eh. unfold x in *. lia.
Qed.

(** *** The rank by number of messages *)

(** The rows of [user_activity] of a guild. *)
Definition guild_rows (t : gmap (Z * Z) Activity.UserActivity) (guild_id : Z)
    : list (Z * Z * Activity.UserActivity) :=
  filter (fun kv => kv.1.2 = guild_id) (map_to_list t).

(** [_rank_and_total_messages]. *)
Definition _rank_and_total_messages (t : gmap (Z * Z) Activity.UserActivity)
    (guild_id user_id : Z) : option Z * Z :=
  let ua := t !! (user_id, guild_id) in
  let total_users := Z.of_nat (length (guild_rows t guild_id)) in
  match ua with
  | None => (None, total_users)
  | Some r =>
      if total_users =? 0 then (None, total_users)
      else
        let my_count := Activity.message_count r in
        let above :=
          Z.of_nat (length (filter (fun kv => my_count < Activity.message_count kv.2)
                                   (guild_rows t guild_id))) in
        (Some (above + 1), total_users)
  end.

Lemma filter_length_le {A} (P Q : A -> Prop)
    `{forall x, Decision (P x)} `{forall x, Decision (Q x)} (l : list A) :
  (forall x, x ∈ l -> P x -> Q x) ->
  (length (filter P l) <= length (filter Q l))%nat.
Proof.
  induction l as [|a l IH]; intros Himp; [reflexivity|].
  rewrite !filter_cons.
  assert (IH' : (length (filter P l) <= length (filter Q l))%nat).
  { apply IH. intros x Hx. apply Himp. now right. }
  destruct (decide (P a)) as [Hp|Hp]; destruct (decide (Q a)) as [Hq|Hq]; simpl; try lia.
  exfalso. apply Hq. apply Himp; [now left|exact Hp].
Qed.

Lemma filter_length_lt {A} (P Q : A -> Prop)
    `{forall x, Decision (P x)} `{forall x, Decision (Q x)} (l : list A) a :
  (forall x, x ∈ l -> P x -> Q x) ->
  a ∈ l -> Q a -> ~ P a ->
  (length (filter P l) < length (filter Q l))%nat.
Proof.
  induction l as [|b l IH]; intros Himp Ha Hq Hp; [inversion Ha|].
  rewrite !filter_cons.
  assert (Hle : (length (filter P l) <= length (filter Q l))%nat).
  { apply filter_length_le. intros x Hx. apply Himp. now right. }
  apply elem_of_cons in Ha as [<-|Ha].
  - destruct (decide (P a)) as [Hp'|_]; [contradiction|].
    destruct (decide (Q a)) as [_|Hq']; [|contradiction]. simpl. lia.
  - assert (IH' : (length (filter P l) < length (filter Q l))%nat).
    { apply IH; auto. intros x Hx. apply Himp. now right. }
    destruct (decide (P b)) as [Hpb|Hpb]; destruct (decide (Q b)) as [Hqb|Hqb];
      simpl; try lia.
    exfalso. apply Hqb. apply Himp; [now left|exact Hpb].
Qed.

Lemma guild_rows_elem t guild_id user_id r :
  t !! (user_id, guild_id) = Some r ->
  (user_id, guild_id, r) ∈ guild_rows t guild_id.
Proof.
  intros Hrow. unfold guild_rows. apply list_elem_of_filter. split; [reflexivity|].
  now apply elem_of_map_to_list.
Qed.

Lemma rank_of_row t guild_id user_id r :
  t !! (user_id, guild_id) = Some r ->
  _rank_and_total_messages t guild_id user_id
  = (Some (Z.of_nat (length (filter (fun kv => Activity.message_count r
                                               < Activity.message_count kv.2)
                                    (guild_rows t guild_id))) + 1),
     Z.of_nat (length (guild_rows t guild_id))).
Proof.
  intros Hrow. unfold _rank_and_total_messages. cbv zeta. rewrite Hrow.
  pose proof (guild_rows_elem _ _ _ _ Hrow) as Hin.
  destruct (guild_rows t guild_id) as [|x l] eqn:Hl; [inversion Hin|].
  reflexivity.
Qed.

(** X17.  [_rank_and_total_messages] gives no rank to a user without a
    row, and to a user with a row a rank between 1 and the number of rows
    of the guild.  Of two users of the guild, the one with more messages
    has the strictly better rank, and users with as many messages share
    their rank. *)
Theorem message_rank_order
    (t : gmap (Z * Z) Activity.UserActivity) (guild_id : Z) :
  (forall user_id,
      t !! (user_id, guild_id) = None ->
      (_rank_and_total_messages t guild_id user_id).1 = None)
  /\ (forall user_id r,
        t !! (user_id, guild_id) = Some r ->
        exists rank,
          _rank_and_total_messages t guild_id user_id
          = (Some rank, Z.of_nat (length (guild_rows t guild_id)))
          /\ 1 <= rank <= Z.of_nat (length (guild_rows t guild_id)))
  /\ (forall u1 u2 r1 r2 rank1 rank2,
        t !! (u1, guild_id) = Some r1 ->
        t !! (u2, guild_id) = Some r2 ->
        (_rank_and_total_messages t guild_id u1).1 = Some rank1 ->
        (_rank_and_total_messages t guild_id u2).1 = Some rank2 ->
        (Activity.message_count r2 < Activity.message_count r1 -> rank1 < rank2)
        /\ (Activity.message_count r2 = Activity.message_count r1 -> rank1 = rank2)).
Proof.
  split; [|split].
  - intros user_id Hnone. unfold _rank_and_total_messages. cbv zeta.
    now rewrite Hnone.
  - intros user_id r Hrow. rewrite (rank_of_row _ _ _ _ Hrow).
    eexists. split; [reflexivity|].
    pose proof (guild_rows_elem _ _ _ _ Hrow) as Hin.
    assert (Hlt : (length (filter (fun kv => (Activity.message_count r
            < Activity.message_count kv.2)%Z)
                                  (guild_rows t guild_id))
                   < length (filter (fun _ => True) (guild_rows t guild_id)))%nat).
    { apply (filter_length_lt _ _ _ (user_id, guild_id, r)); auto.
      simpl. lia. }
    assert (Hall : (length (filter (fun _ : Z * Z * Activity.UserActivity => True)
                                   (guild_rows t guild_id))
                    <= length (guild_rows t guild_id))%nat)
      by apply length_filter.
    lia.
  - intros u1 u2 r1 r2 rank1 rank2 Hrow1 Hrow2.
    rewrite (rank_of_row _ _ _ _ Hrow1), (rank_of_row _ _ _ _ Hrow2). simpl.
    intros [= <-] [= <-]. split.
    + intros Hlt.
      assert (H : (length (filter (fun kv => (Activity.message_count r1
            < Activity.message_count kv.2)%Z)
                                  (guild_rows t guild_id))
                   < length (filter (fun kv => (Activity.message_count r2
            < Activity.message_count kv.2)%Z)
                                    (guild_rows t guild_id)))%nat).
      { apply (filter_length_lt _ _ _ (u1, guild_id, r1)).
        - intros x _ Hx. lia.
        - now apply guild_rows_elem.
        - simpl. lia.
        - simpl. lia. }
      lia.
    + intros Heq. now rewrite Heq.
Qed.

End ProfileStats.

(** ** [main.py] and [ai_analysis.py]: from a message to an alert *)

Module Pipeline.

Local Open Scope Q_scope.

Section WithClassifier.

Variable analyze_text : string -> AiAnalysis.Analysis.

(** Lines 112-119 of [on_message], once the cooldown test has passed:
    [analyze_and_update], run at [now_ai], then [check_toxicity_and_alert],
    run at [now].  The result: the tables of the analysis, the table
    [monitored_users], and the effects of the check. *)
Definition analyse_and_alert (bot : AdminCommands.Bot) (db : AiAnalysis.DB)
    (monitored : gmap (Z * Z) AdminCommands.MonitoredUser)
    (guild_id user_id : Z) (content : string) (now_ai now : Z)
    : AiAnalysis.DB * gmap (Z * Z) AdminCommands.MonitoredUser
      * list AdminCommands.Event :=
  let db' := AiAnalysis.analyze_and_update analyze_text db user_id guild_id
               content now_ai in
  let r := AdminCommands.check_toxicity_and_alert bot
             {| AdminCommands.monitored_users := monitored;
                AdminCommands.user_ai_analysis := AiAnalysis.user_ai_analysis db' |}
             guild_id user_id now in
  (db', AdminCommands.monitored_users r.1, r.2).

End WithClassifier.

(** *** Example data *)

(** A classifier that finds nothing toxic. *)
Definition calm_classifier (_ : string) : AiAnalysis.Analysis :=
  {| AiAnalysis.sent_score := 0; AiAnalysis.sent_label := "neutral";
     AiAnalysis.tox := 0; AiAnalysis.topics_add := ∅;
     AiAnalysis.style := "concise" |}.

Definition watched : gmap (Z * Z) AdminCommands.MonitoredUser :=
  {[ (7%Z, 1%Z) := AdminCommands.mkMonitoredUser (Some 0.8) None ]}.

(** *** The fused level and the reading *)

Lemma fuse_above_reading prev reading :
  0 <= prev <= 1 -> reading <= 1 ->
  reading <= AiAnalysis.fuse_toxicity prev reading
  /\ (reading <= prev -> AiAnalysis.fuse_toxicity prev reading <= prev)
  /\ (prev < reading -> prev < AiAnalysis.fuse_toxicity prev reading).
Proof.
  intros [Hp0 Hp1] Hr. unfold AiAnalysis.fuse_toxicity. cbv zeta.
  destruct (Qlt_le_dec 0 (reading - prev)) as [Hd|Hd].
  - destruct (Py.min_cases 1 (prev + (reading - prev) * 1.8)) as [E|E];
      rewrite E; repeat split; intros; lra.
  - pose proof (Py.max_ge_r 0 (prev + (reading - prev) * 0.3)) as Hge.
    destruct (Py.max_cases 0 (prev + (reading - prev) * 0.3)) as [E|E];
      rewrite E in *; repeat split; intros; lra.
Qed.

Lemma fuse_calm prev :
  0 <= prev -> AiAnalysis.fuse_toxicity prev 0 == prev * 0.7.
Proof.
  intros Hp. unfold AiAnalysis.fuse_toxicity. cbv zeta.
  destruct (Qlt_le_dec 0 (0 - prev)) as [Hd|Hd]; [lra|].
  pose proof (Py.max_ge_l 0 (prev + (0 - prev) * 0.3)) as H0.
  pose proof (Py.max_ge_r 0 (prev + (0 - prev) * 0.3)) as H1.
  destruct (Py.max_cases 0 (prev + (0 - prev) * 0.3)) as [E|E]; rewrite E in *; lra.
Qed.

Lemma fuse_proper p p' r r' :
  p == p' -> r == r' ->
  AiAnalysis.fuse_toxicity p r == AiAnalysis.fuse_toxicity p' r'.
Proof.
  intros Hp Hr. unfold AiAnalysis.fuse_toxicity, Py.min, Py.max. cbv zeta.
  repeat match goal with
         | |- context [Qlt_le_dec ?a ?b] => destruct (Qlt_le_dec a b)
         end; lra.
Qed.

Lemma stored_previous db user_id guild_id t :
  AiAnalysis.stored_toxicity db user_id guild_id = Some t ->
  AiAnalysis.previous_toxicity db user_id guild_id = t.
Proof.
  unfold AiAnalysis.stored_toxicity, AiAnalysis.previous_toxicity.
  destruct (AiAnalysis.user_ai_analysis db !! (user_id, guild_id)) as [ai|];
    simpl; [|discriminate].
  now intros ->.
Qed.

(** X18.  For a watched member whose cooldown is over: a message whose
    reading reaches the member's threshold always fires the alert, whatever
    level was stored before, because the stored level is never left below
    the reading.  The alert carries the level just stored, [last_alert]
    becomes the time of the check, and one notification is sent when one
    can be delivered. *)
Theorem toxic_reading_alerts
    (analyze_text : string -> AiAnalysis.Analysis) (bot : AdminCommands.Bot)
    (db : AiAnalysis.DB) (monitored : gmap (Z * Z) AdminCommands.MonitoredUser)
    (guild_id user_id : Z) (content : string) (now_ai now : Z)
    (row : AdminCommands.MonitoredUser) :
  AiAnalysis.too_short content = false ->
  monitored !! (user_id, guild_id) = Some row ->
  0 <= AiAnalysis.previous_toxicity db user_id guild_id <= 1 ->
  AdminCommands.threshold_of row <= AiAnalysis.tox (analyze_text content) <= 1 ->
  AdminCommands.cooldown_over (AdminCommands.last_alert row) now ->
  let r := analyse_and_alert analyze_text bot db monitored guild_id user_id
             content now_ai now in
  exists level,
    AiAnalysis.stored_toxicity r.1.1 user_id guild_id = Some level
    /\ AiAnalysis.tox (analyze_text content) <= level
    /\ r.2 = AdminCommands.CommitLastAlert now
             :: AdminCommands.send_alert bot guild_id
                  (AdminCommands.mkAlert user_id level (AdminCommands.threshold_of row))
    /\ r.1.2 !! (user_id, guild_id) ≫= AdminCommands.last_alert = Some now
    /\ length (AdminCommands.notifications r.2)
       = if AdminCommands.deliverable bot guild_id then 1%nat else 0%nat.
Proof.
  intros Hshort Hrow Hprev [Hthr Hone] Hcool. cbv zeta.
  destruct (AiAnalysis.analyze_and_update_toxicity analyze_text db user_id guild_id
              content now_ai Hshort) as (level & Hstored & Hlevel).
  destruct (fuse_above_reading _ (AiAnalysis.tox (analyze_text content)) Hprev Hone)
    as (Habove & _).
  rewrite <- Hlevel in Habove.
  unfold analyse_and_alert. cbv zeta.
  set (db' := AiAnalysis.analyze_and_update analyze_text db user_id guild_id
                content now_ai) in *.
  rewrite (AdminCommands.check_fires bot _ guild_id user_id now row level);
    [|exact Hrow|exact Hstored|lra|now apply AdminCommands.cooldown_active_false].
  exists level. cbn [fst snd]. split; [exact Hstored|]. split; [exact Habove|].
  split; [reflexivity|]. split.
  - simpl. rewrite lookup_alter_eq, Hrow. reflexivity.
  - simpl. rewrite AdminCommands.notifications_send_alert.
    apply AdminCommands.send_alert_length.
Qed.

Lemma toxic_reading_alerts_witness :
  (analyse_and_alert AiAnalysis.insult_classifier AdminCommands.bot_with_channel
     AiAnalysis.calm_db watched 1 7 "merde" 11 12).2
  = [ AdminCommands.CommitLastAlert 12;
      AdminCommands.ChannelSend 500 (AdminCommands.mkAlert 7 1 0.8) ].
Proof.
  destruct (toxic_reading_alerts AiAnalysis.insult_classifier
              AdminCommands.bot_with_channel AiAnalysis.calm_db watched 1 7
              "merde" 11 12 (AdminCommands.mkMonitoredUser (Some 0.8) None))
    as (level & Hstored & _ & Hevents & _).
  - reflexivity.
  - reflexivity.
  - vm_compute. split; discriminate.
  - vm_compute. split; discriminate.
  - exact I.
  - rewrite Hevents. vm_compute in Hstored. injection Hstored as <-. reflexivity.
Defined.

(** X19.  While the readings are 0, no analysed message raises the stored
    level and none takes it below 0: after any number of such messages the
    level lies between 0 and the level before.  In binary64 the levels
    after one, two and three calm messages, from 1.0, are 0.7, 0.49 and
    0.34299999999999997. *)
Theorem calm_messages_decay
    (analyze_text : string -> AiAnalysis.Analysis) (user_id guild_id : Z)
    (msgs : list AiAnalysis.Message) (clock : nat -> Z) :
  (forall (db : AiAnalysis.DB) (i : nat),
     0 <= AiAnalysis.previous_toxicity db user_id guild_id ->
     Forall (fun m =>
               let c := default EmptyString (AiAnalysis.message_content m) in
               AiAnalysis.too_short c = false
               /\ AiAnalysis.tox (analyze_text c) == 0) msgs ->
     0 <= AiAnalysis.previous_toxicity
            (AiAnalysis.replay analyze_text db user_id guild_id msgs clock i)
            user_id guild_id
       <= AiAnalysis.previous_toxicity db user_id guild_id)
  /\ AiAnalysis.fuse_toxicity_f64 1.0 0.0 = 0.7%float
  /\ AiAnalysis.fuse_toxicity_f64 0.7 0.0 = 0.49%float
  /\ AiAnalysis.fuse_toxicity_f64 0.49 0.0 = 0.34299999999999997%float
  /\ (0.34299999999999997 <? 0.343)%float = true.
Proof.
  split; [|vm_compute; repeat apply conj; reflexivity].
  induction msgs as [|m msgs IH]; intros db i Hpos Hall.
  - simpl. lra.
  - apply Forall_cons in Hall as [[Hshort Hzero] Hall]. cbv zeta in Hshort, Hzero.
    simpl AiAnalysis.replay.
    destruct (AiAnalysis.analyze_and_update_toxicity analyze_text db user_id guild_id
                (default EmptyString (AiAnalysis.message_content m)) (clock i) Hshort)
      as (t & Hstored & Ht).
    apply stored_previous in Hstored.
    assert (Hstep : t == AiAnalysis.previous_toxicity db user_id guild_id * 0.7).
    { rewrite Ht, (fuse_proper _ _ _ 0 (Qeq_refl _) Hzero). now apply fuse_calm. }
    match goal with
    | |- 0 <= AiAnalysis.previous_toxicity ?db1 _ _ <= _ =>
        assert (H1 : 0 <= AiAnalysis.previous_toxicity db1 user_id guild_id
                     <= AiAnalysis.previous_toxicity
                          (AiAnalysis.analyze_and_update analyze_text db user_id
                             guild_id
                             (default EmptyString (AiAnalysis.message_content m))
                             (clock i)) user_id guild_id)
    end.
    { apply IH; [rewrite Hstored, Hstep; lra|exact Hall]. }
    rewrite Hstored, Hstep in H1. lra.
Qed.

Lemma calm_messages_decay_witness :
  AiAnalysis.previous_toxicity
    (AiAnalysis.replay calm_classifier AiAnalysis.calm_db 7 1
       [ AiAnalysis.mkMessage 7 1 (Some "hello") 20;
         AiAnalysis.mkMessage 7 1 (Some "thanks") 21 ] (fun _ => 30%Z) 0)
    7 1
  <= 0.2.
Proof.
  apply (proj1 (calm_messages_decay calm_classifier 7 1
           [ AiAnalysis.mkMessage 7 1 (Some "hello") 20;
             AiAnalysis.mkMessage 7 1 (Some "thanks") 21 ] (fun _ => 30%Z))
           AiAnalysis.calm_db 0%nat).
  - vm_compute. discriminate.
  - repeat constructor.
Defined.

End Pipeline.

(** ** [ai_analysis.py]: the arithmetic of the local analysers *)

Module LocalAnalysers.

Local Open Scope Q_scope.

(** [sentiment_local] without VADER, from the numbers [pos] and [neg] of
    tokens found in the two lexicons (lines 105-109). *)
Definition sentiment_from_counts (pos neg : Z) : Q * string :=
  let score :=
    if negb (pos =? 0)%Z || negb (neg =? 0)%Z
    then inject_Z (pos - neg) / inject_Z (Z.max 1 (pos + neg))
    else 0.0 in
  let label :=
    if Qlt_le_dec 0.25 score then "positive"%string
    else if Qlt_le_dec score (-0.25) then "negative"%string
    else "neutral"%string in
  (score, label).

(** [toxicity_local], from the number [hits] of lexicon entries found in
    the text and the number [words] of its words (lines 125-138). *)
Definition toxicity_from_counts (hits words : Z) : Q :=
  let length := Z.max 1 words in
  let base_score := Py.min 1.0 (inject_Z hits / (inject_Z length / 3)) in
  let base_score :=
    if (3 <=? hits)%Z then base_score + 0.4
    else if (hits =? 2)%Z then base_score + 0.25
    else if (hits =? 1)%Z then base_score + 0.1
    else base_score in
  Py.min 1.0 base_score.

(** *** The sentiment *)

Lemma ratio_bounds (a b : Z) (q : Q) :
  (0 < b)%Z ->
  (q < inject_Z a / inject_Z b <-> q * inject_Z b < inject_Z a)
  /\ (inject_Z a / inject_Z b < q <-> inject_Z a < q * inject_Z b)
  /\ (inject_Z a / inject_Z b <= q <-> inject_Z a <= q * inject_Z b)
  /\ (q <= inject_Z a / inject_Z b <-> q * inject_Z b <= inject_Z a).
Proof.
  intros Hb.
  assert (Hbq : 0 < inject_Z b).
  { change 0 with (inject_Z 0). now rewrite <- Zlt_Qlt. }
  assert (Heq : inject_Z a / inject_Z b * inject_Z b == inject_Z a).
  { field. lra. }
  repeat split; intros H.
  - rewrite <- Heq. apply Qmult_lt_compat_r; assumption.
  - apply Qlt_shift_div_l; assumption.
  - rewrite <- Heq. apply Qmult_lt_compat_r; assumption.
  - apply Qlt_shift_div_r; assumption.
  - rewrite <- Heq. apply Qmult_le_compat_r; [assumption|lra].
  - apply Qle_shift_div_r; assumption.
  - rewrite <- Heq. apply Qmult_le_compat_r; [assumption|lra].
  - apply Qle_shift_div_l; assumption.
Qed.

Lemma quarter_lt (a b : Z) :
  (0.25 * inject_Z b < inject_Z a <-> (b < 4 * a)%Z)
  /\ (inject_Z a < -0.25 * inject_Z b <-> (4 * a < - b)%Z).
Proof.
  rewrite !Zlt_Qlt, inject_Z_opp, !inject_Z_mult.
  change (inject_Z 4) with 4. repeat split; intros; lra.
Qed.

(** X20.  Without VADER, the sentiment of a text with [pos] tokens of the
    positive lexicon and [neg] of the negative one has a score between -1
    and 1, and its label is decided by the two counts alone: positive
    exactly when [3 * pos > 5 * neg], negative exactly when
    [3 * neg > 5 * pos], neutral otherwise. *)
Theorem sentiment_label_by_counts (pos neg : Z) :
  (0 <= pos)%Z -> (0 <= neg)%Z ->
  let r := sentiment_from_counts pos neg in
  -1 <= r.1 <= 1
  /\ (r.2 = "positive"%string <-> (5 * neg < 3 * pos)%Z)
  /\ (r.2 = "negative"%string <-> (5 * pos < 3 * neg)%Z)
  /\ (r.2 = "neutral"%string <-> (3 * pos <= 5 * neg /\ 3 * neg <= 5 * pos)%Z).
Proof.
  intros Hpos Hneg. unfold sentiment_from_counts. cbv zeta.
  destruct (negb (pos =? 0)%Z || negb (neg =? 0)%Z) eqn:Hany.
  - assert (Hsum : (0 < pos + neg)%Z).
    { apply orb_true_iff in Hany as [H|H]; apply negb_true_iff, Z.eqb_neq in H; lia. }
    replace (Z.max 1 (pos + neg)) with (pos + neg)%Z by lia.
    destruct (ratio_bounds (pos - neg) (pos + neg) 0.25 Hsum) as (Hgt & _ & Hle & _).
    destruct (ratio_bounds (pos - neg) (pos + neg) (-0.25) Hsum) as (_ & Hlt & _ & Hge).
    destruct (ratio_bounds (pos - neg) (pos + neg) 1 Hsum) as (_ & _ & Hle1 & _).
    destruct (ratio_bounds (pos - neg) (pos + neg) (-1) Hsum) as (_ & _ & _ & Hge1).
    destruct (quarter_lt (pos - neg) (pos + neg)) as [Hq1 Hq2].
    set (score := inject_Z (pos - neg) / inject_Z (pos + neg)) in *.
    cbn [fst snd]. split.
    + split.
      * apply Hge1. change (-1) with (inject_Z (-1)). rewrite <- inject_Z_mult, <- Zle_Qle. lia.
      * apply Hle1. change 1 with (inject_Z 1). rewrite <- inject_Z_mult, <- Zle_Qle. lia.
    + destruct (Qlt_le_dec 0.25 score) as [H1|H1].
      * apply Hgt, Hq1 in H1.
        repeat split; intros; try discriminate; try reflexivity; lia.
      * destruct (Qlt_le_dec score (-0.25)) as [H2|H2].
        -- apply Hlt, Hq2 in H2.
           repeat split; intros; try discriminate; try reflexivity; lia.
        -- assert (H1' : ~ (pos + neg < 4 * (pos - neg))%Z).
           { intros H. apply Hq1, Hgt in H. lra. }
           assert (H2' : ~ (4 * (pos - neg) < - (pos + neg))%Z).
           { intros H. apply Hq2, Hlt in H. lra. }
           repeat split; intros; try discriminate; try reflexivity; lia.
  - apply orb_false_iff in Hany as [H1 H2].
    apply negb_false_iff, Z.eqb_eq in H1. apply negb_false_iff, Z.eqb_eq in H2.
    subst pos neg. cbn [fst snd].
    destruct (Qlt_le_dec 0.25 0.0) as [H|_]; [exfalso; revert H; apply Qle_not_lt; discriminate|].
    destruct (Qlt_le_dec 0.0 (-0.25)) as [H|_]; [exfalso; revert H; apply Qle_not_lt; discriminate|].
    repeat split; intros; try discriminate; try reflexivity; lia.
Qed.

Lemma sentiment_label_by_counts_witness :
  (sentiment_from_counts 5 3).2 = "neutral"%string
  /\ (sentiment_from_counts 2 1).2 = "positive"%string.
Proof.
  destruct (sentiment_label_by_counts 5 3) as (_ & _ & _ & H53); [lia|lia|].
  destruct (sentiment_label_by_counts 2 1) as (_ & H21 & _); [lia|lia|].
  split; [apply H53; lia|apply H21; lia].
Defined.

(** *** The toxicity *)

Lemma hits_ratio (hits words : Z) :
  (0 <= hits)%Z ->
  let x := inject_Z hits / (inject_Z (Z.max 1 words) / 3) in
  0 <= x
  /\ ((Z.max 1 words <= 3 * hits)%Z -> 1 <= x)
  /\ (forall hits', (hits <= hits')%Z ->
        x <= inject_Z hits' / (inject_Z (Z.max 1 words) / 3)).
Proof.
  intros Hh. cbv zeta.
  set (L := Z.max 1 words).
  assert (HL : 0 < inject_Z L).
  { change 0 with (inject_Z 0). rewrite <- Zlt_Qlt. unfold L. lia. }
  assert (Hform : forall h, inject_Z h / (inject_Z L / 3)
                            == inject_Z (3 * h) / inject_Z L).
  { intros h. rewrite inject_Z_mult. change (inject_Z 3) with 3. field. lra. }
  assert (HLz : (0 < L)%Z) by (unfold L; lia).
  split; [|split].
  - rewrite Hform. apply (ratio_bounds (3 * hits) L 0 HLz).
    rewrite Qmult_0_l. change 0 with (inject_Z 0). rewrite <- Zle_Qle. lia.
  - intros Hshort. rewrite Hform. apply (ratio_bounds (3 * hits) L 1 HLz).
    rewrite Qmult_1_l, <- Zle_Qle. exact Hshort.
  - intros hits' Hle. rewrite !Hform.
    apply (ratio_bounds (3 * hits) L _ HLz).
    assert (Heq : inject_Z (3 * hits') / inject_Z L * inject_Z L == inject_Z (3 * hits')).
    { field. lra. }
    rewrite Heq, <- Zle_Qle. lia.
Qed.

(** X21.  The local toxicity of a text with [hits] lexicon entries among
    [words] words lies between 0 and 1; it is 0 without a hit and at least
    0.1 with one; it is 1 whenever there are at most three words per hit;
    and for the same number of words it never decreases with the number of
    hits. *)
Theorem toxicity_by_counts (hits words : Z) :
  (0 <= hits)%Z ->
  0 <= toxicity_from_counts hits words <= 1
  /\ (hits = 0%Z -> toxicity_from_counts hits words == 0)
  /\ ((1 <= hits)%Z -> 0.1 <= toxicity_from_counts hits words)
  /\ ((1 <= hits)%Z -> (Z.max 1 words <= 3 * hits)%Z ->
      toxicity_from_counts hits words == 1)
  /\ (forall hits', (hits <= hits')%Z ->
        toxicity_from_counts hits words <= toxicity_from_counts hits' words).
Proof.
  intros Hh.
  destruct (hits_ratio hits words Hh) as (Hx0 & Hx1 & Hmono).
  assert (Hgen : forall h, (0 <= h)%Z ->
             let x := inject_Z h / (inject_Z (Z.max 1 words) / 3) in
             0 <= x ->
             0 <= toxicity_from_counts h words <= 1
             /\ Py.min 1.0 x <= toxicity_from_counts h words
             /\ ((1 <= h)%Z -> 0.1 <= toxicity_from_counts h words)
             /\ ((h <= 2)%Z -> toxicity_from_counts h words <= Py.min 1.0 x + 0.25)
             /\ ((h <= 1)%Z -> toxicity_from_counts h words <= Py.min 1.0 x + 0.1)
             /\ (h = 0%Z -> toxicity_from_counts h words == Py.min 1.0 x)
             /\ ((3 <= h)%Z -> toxicity_from_counts h words == Py.min 1.0 (Py.min 1.0 x + 0.4))
             /\ ((h = 2)%Z -> toxicity_from_counts h words == Py.min 1.0 (Py.min 1.0 x + 0.25))
             /\ ((h = 1)%Z -> toxicity_from_counts h words == Py.min 1.0 (Py.min 1.0 x + 0.1))).
  { intros h Hh0. cbv zeta. intros Hx.
    unfold toxicity_from_counts. cbv zeta.
    set (x := inject_Z h / (inject_Z (Z.max 1 words) / 3)) in *.
    destruct (Py.min_cases 1.0 x) as [E|E]; rewrite E;
      destruct (3 <=? h)%Z eqn:E3; [apply Z.leb_le in E3|apply Z.leb_gt in E3
                                   |apply Z.leb_le in E3|apply Z.leb_gt in E3];
      try (destruct (h =? 2)%Z eqn:E2; [apply Z.eqb_eq in E2|apply Z.eqb_neq in E2]);
      try (destruct (h =? 1)%Z eqn:E1; [apply Z.eqb_eq in E1|apply Z.eqb_neq in E1]);
      pose proof (Py.min_le_l 1.0 x) as Hm1; pose proof (Py.min_le_r 1.0 x) as Hm2;
      rewrite ?E in Hm1, Hm2;
      unfold Py.min;
      repeat match goal with
             | |- context [Qlt_le_dec ?a ?b] => destruct (Qlt_le_dec a b)
             end;
      repeat split; intros; try lia; try lra. }
  destruct (Hgen hits Hh Hx0) as (Hrange & Hlow & Hone & H2 & H1 & H0 & H3 & H2e & H1e).
  split; [exact Hrange|]. split; [|split; [exact Hone|split]].
  - intros ->. rewrite (H0 eq_refl).
    assert (Hz : inject_Z 0 / (inject_Z (Z.max 1 words) / 3) == 0).
    { unfold Qdiv. change (inject_Z 0) with 0. apply Qmult_0_l. }
    unfold Py.min. destruct (Qlt_le_dec _ _); lra.
  - intros Hge Hshort. specialize (Hx1 Hshort).
    pose proof (Py.min_glb 1.0 (inject_Z hits / (inject_Z (Z.max 1 words) / 3)) 1
                  ltac:(lra) Hx1) as Hmin.
    lra.
  - intros hits' Hle.
    assert (Hh' : (0 <= hits')%Z) by lia.
    destruct (hits_ratio hits' words Hh') as (Hx0' & _ & _).
    destruct (Hgen hits' Hh' Hx0')
      as (Hrange' & Hlow' & Hone' & H2' & H1' & H0' & H3' & H2e' & H1e').
    specialize (Hmono hits' Hle).
    set (x := inject_Z hits / (inject_Z (Z.max 1 words) / 3)) in *.
    set (x' := inject_Z hits' / (inject_Z (Z.max 1 words) / 3)) in *.
    assert (Hmin : Py.min 1.0 x <= Py.min 1.0 x').
    { apply Py.min_glb; [apply Py.min_le_l|].
      eapply Qle_trans; [apply Py.min_le_r|exact Hmono]. }
    assert (Hcap : forall a b c, a <= b -> Py.min 1.0 (a + c) <= Py.min 1.0 (b + c)).
    { intros a b c Hab. apply Py.min_glb; [apply Py.min_le_l|].
      eapply Qle_trans; [apply Py.min_le_r|lra]. }
    assert (Hcap' : forall a c d, c <= d -> Py.min 1.0 (a + c) <= Py.min 1.0 (a + d)).
    { intros a c d Hcd. apply Py.min_glb; [apply Py.min_le_l|].
      eapply Qle_trans; [apply Py.min_le_r|lra]. }
    destruct (Z_le_gt_dec 3%Z hits) as [Ha|Ha].
    + rewrite (H3 Ha), (H3' ltac:(lia)). now apply Hcap.
    + destruct (Z.eq_dec hits 2%Z) as [Hb|Hb].
      * rewrite (H2e Hb).
        destruct (Z_le_gt_dec 3%Z hits') as [Ha'|Ha'].
        -- rewrite (H3' Ha').
           eapply Qle_trans; [apply (Hcap _ _ _ Hmin)|apply Hcap'; lra].
        -- rewrite (H2e' ltac:(lia)). now apply Hcap.
      * destruct (Z.eq_dec hits 1%Z) as [Hc|Hc].
        -- rewrite (H1e Hc).
           destruct (Z_le_gt_dec 3%Z hits') as [Ha'|Ha'].
           ++ rewrite (H3' Ha').
              eapply Qle_trans; [apply (Hcap _ _ _ Hmin)|apply Hcap'; lra].
           ++ destruct (Z.eq_dec hits' 2%Z) as [Hb'|Hb'].
              ** rewrite (H2e' Hb').
                 eapply Qle_trans; [apply (Hcap _ _ _ Hmin)|apply Hcap'; lra].
              ** rewrite (H1e' ltac:(lia)). now apply Hcap.
        -- rewrite (H0 ltac:(lia)).
           eapply Qle_trans; [exact Hmin|exact Hlow'].
Qed.

Lemma toxicity_by_counts_witness :
  toxicity_from_counts 1 1 == 1 /\ 0.1 <= toxicity_from_counts 1 40.
Proof.
  split.
  - apply (toxicity_by_counts 1 1); lia.
  - apply (toxicity_by_counts 1 40); lia.
Defined.

End LocalAnalysers.

(** ** [admin_commands.py]: watching a member, and the engagement summary *)

Module AdminPanel.

Local Open Scope Z_scope.

(** [MonitorSelect.callback] for the member [uid] of the guild: the upsert
    of [monitored_users], committed (the member has a row in [users], so
    that the insert goes through).  A new row has no [last_alert]; on
    conflict only the threshold is written. *)
Definition callback (db : AdminCommands.DB) (guild_id uid : Z) : AdminCommands.DB :=
  {| AdminCommands.monitored_users :=
       <[(uid, guild_id) :=
           match AdminCommands.monitored_users db !! (uid, guild_id) with
           | None => AdminCommands.mkMonitoredUser (Some 0.8%Q) None
           | Some row =>
               AdminCommands.mkMonitoredUser (Some 0.8%Q) (AdminCommands.last_alert row)
           end]> (AdminCommands.monitored_users db);
     AdminCommands.user_ai_analysis := AdminCommands.user_ai_analysis db |}.

(** What [cmd_admin_engagement] reads: the active flag of the rows of
    [users], and of each row of [messages] its user, its guild and its
    timestamp (microseconds). *)
Record Tables := mkTables {
  users : gmap (Z * Z) bool;
  messages : list (Z * Z * Z)
}.

Definition days (n : Z) : Z := n * 24 * 3600 * 1000000.

(** The numbers of the embed of [cmd_admin_engagement]. *)
Record Engagement := mkEngagement {
  total_users : Z;
  active_7d : Z;
  active_30d : Z;
  lurkers_30d : Z;
  total_msgs_7d : Z;
  avg_per_active : Q
}.

(** The users with a message in the guild since [since]. *)
Definition authors_since (t : Tables) (guild_id since : Z) : gset Z :=
  list_to_set
    ((fun m : Z * Z * Z => m.1.1) <$>
       filter (fun m : Z * Z * Z => m.1.2 = guild_id /\ since <= m.2) (messages t)).

(** [cmd_admin_engagement]; [now_7] and [now_30] are the two readings of
    [datetime.utcnow()]. *)
Definition cmd_admin_engagement (t : Tables) (guild_id now_7 now_30 : Z)
    : Engagement :=
  let total_users :=
    Z.of_nat (length (filter (fun kv : Z * Z * bool => kv.1.2 = guild_id /\ kv.2 = true)
                             (map_to_list (users t)))) in
  let since_7d := now_7 - days 7 in
  let since_30d := now_30 - days 30 in
  let active_7d := Z.of_nat (size (authors_since t guild_id since_7d)) in
  let active_30d := Z.of_nat (size (authors_since t guild_id since_30d)) in
  let lurkers_30d := Z.max (total_users - active_30d) 0 in
  let total_msgs_7d :=
    Z.of_nat (length (filter (fun m : Z * Z * Z => m.1.2 = guild_id /\ since_7d <= m.2)
                             (messages t))) in
  let avg_per_active :=
    if 0 <? active_7d then (inject_Z total_msgs_7d / inject_Z active_7d)%Q else 0.0%Q in
  {| total_users := total_users;
     active_7d := active_7d;
     active_30d := active_30d;
     lurkers_30d := lurkers_30d;
     total_msgs_7d := total_msgs_7d;
     avg_per_active := avg_per_active |}.

(** *** Watching a member *)

(** X22.  Selecting a member to watch sets the threshold to 0.8 and leaves
    [last_alert] as it was: for a member with a stored level, the next
    check fires exactly when the level is at least 0.8 and the cooldown of
    the alert sent before the selection, if any, is over.  Selecting a
    member again does not re-arm an alert. *)
Theorem watch_keeps_cooldown
    (bot : AdminCommands.Bot) (db : AdminCommands.DB) (guild_id uid now : Z) (tox : Q) :
  AdminCommands.toxicity_of db (uid, guild_id) = Some tox ->
  let db1 := callback db guild_id uid in
  let before := AdminCommands.last_alert_of db (uid, guild_id) in
  AdminCommands.last_alert_of db1 (uid, guild_id) = before
  /\ ((0.8 <= tox)%Q -> AdminCommands.cooldown_over before now ->
      AdminCommands.check_toxicity_and_alert bot db1 guild_id uid now
      = (AdminCommands.set_last_alert db1 (uid, guild_id) now,
         AdminCommands.CommitLastAlert now
           :: AdminCommands.send_alert bot guild_id (AdminCommands.mkAlert uid tox 0.8%Q)))
  /\ ((tox < 0.8)%Q \/ ~ AdminCommands.cooldown_over before now ->
      AdminCommands.check_toxicity_and_alert bot db1 guild_id uid now = (db1, [])).
Proof.
  intros Htox. cbv zeta.
  set (row1 := match AdminCommands.monitored_users db !! (uid, guild_id) with
               | None => AdminCommands.mkMonitoredUser (Some 0.8%Q) None
               | Some row =>
                   AdminCommands.mkMonitoredUser (Some 0.8%Q) (AdminCommands.last_alert row)
               end).
  assert (Hrow1 : AdminCommands.monitored_users (callback db guild_id uid) !! (uid, guild_id)
                  = Some row1).
  { unfold callback. simpl. apply lookup_insert_eq. }
  assert (Hla : AdminCommands.last_alert row1
                = AdminCommands.last_alert_of db (uid, guild_id)).
  { unfold row1, AdminCommands.last_alert_of.
    now destruct (AdminCommands.monitored_users db !! (uid, guild_id)). }
  assert (Hthr : AdminCommands.threshold_of row1 = 0.8%Q).
  { unfold row1. now destruct (AdminCommands.monitored_users db !! (uid, guild_id)). }
  assert (Htox1 : AdminCommands.toxicity_of (callback db guild_id uid) (uid, guild_id)
                  = Some tox) by exact Htox.
  split; [|split].
  - unfold AdminCommands.last_alert_of at 1. rewrite Hrow1. simpl. exact Hla.
  - intros Hge Hover.
    rewrite (AdminCommands.check_fires bot _ guild_id uid now row1 tox Hrow1 Htox1).
    + now rewrite Hthr.
    + now rewrite Hthr.
    + rewrite Hla. now apply AdminCommands.cooldown_active_false.
  - intros Hquiet.
    apply (AdminCommands.check_quiet bot _ guild_id uid now row1 tox Hrow1 Htox1).
    rewrite Hthr, Hla. destruct Hquiet as [Hlt|Hcool]; [now left|right].
    destruct (AdminCommands.cooldown_active _ now) eqn:E; [reflexivity|].
    apply AdminCommands.cooldown_active_false in E. contradiction.
Qed.

Lemma watch_keeps_cooldown_witness :
  AdminCommands.last_alert_of (callback AdminCommands.watched_db 1 7) (7, 1) = None
  /\ (AdminCommands.check_toxicity_and_alert AdminCommands.bot_with_channel
        (callback AdminCommands.watched_db 1 7) 1 7 50).2
     = [ AdminCommands.CommitLastAlert 50;
         AdminCommands.ChannelSend 500 (AdminCommands.mkAlert 7 0.9%Q 0.8%Q) ].
Proof.
  destruct (watch_keeps_cooldown AdminCommands.bot_with_channel AdminCommands.watched_db
              1 7 50 0.9%Q eq_refl) as (Hla & Hfire & _).
  split; [exact Hla|].
  rewrite Hfire; [reflexivity|vm_compute; discriminate|exact I].
Defined.

(** *** The engagement summary *)

Lemma size_list_to_set_le (l : list Z) :
  (size (list_to_set l : gset Z) <= length l)%nat.
Proof.
  induction l as [|x l IH].
  - change (size (∅ : gset Z) <= 0)%nat. rewrite size_empty. lia.
  - change (size ({[x]} ∪ list_to_set l : gset Z) <= S (length l))%nat.
    rewrite size_union_alt, size_singleton.
    assert (size (list_to_set l ∖ {[x]} : gset Z) <= size (list_to_set l : gset Z))%nat.
    { apply subseteq_size. intros y Hy. apply elem_of_difference in Hy. tauto. }
    lia.
Qed.

Lemma authors_since_mono t guild_id since since' :
  since' <= since ->
  authors_since t guild_id since ⊆ authors_since t guild_id since'.
Proof.
  intros Hle x. unfold authors_since. rewrite !elem_of_list_to_set, !list_elem_of_fmap.
  intros (m & -> & Hm). exists m. split; [reflexivity|].
  apply list_elem_of_filter in Hm as [[Hg Hs] Hin].
  apply list_elem_of_filter. split; [split; [exact Hg|lia]|exact Hin].
Qed.

(** X23.  In the summary of [cmd_admin_engagement], when the second
    reading of the clock is not before the first and less than 23 days
    after it: the members active over 7 days are at most those active over
    30 days, and at most the messages of the 7 days, so that the mean per
    active member is at least 1 when there is an active member; the
    lurkers are never negative, and together with the members active over
    30 days they are at least the active users of the guild, exactly so
    when the members active over 30 days are not more than those. *)
Theorem engagement_summary (t : Tables) (guild_id now_7 now_30 : Z) :
  now_7 <= now_30 <= now_7 + days 23 ->
  let e := cmd_admin_engagement t guild_id now_7 now_30 in
  active_7d e <= active_30d e
  /\ active_7d e <= total_msgs_7d e
  /\ (0 < active_7d e -> (1 <= avg_per_active e)%Q)
  /\ 0 <= lurkers_30d e
  /\ total_users e <= lurkers_30d e + active_30d e
  /\ (active_30d e <= total_users e ->
      lurkers_30d e + active_30d e = total_users e).
Proof.
  intros [Hlo Hhi]. unfold cmd_admin_engagement. cbv zeta.
  cbn [active_7d active_30d total_msgs_7d avg_per_active lurkers_30d total_users].
  set (a7 := authors_since t guild_id (now_7 - days 7)).
  set (a30 := authors_since t guild_id (now_30 - days 30)).
  set (msgs7 := filter (fun m : Z * Z * Z => m.1.2 = guild_id /\ now_7 - days 7 <= m.2)
                       (messages t)).
  assert (H730 : (size a7 <= size a30)%nat).
  { apply subseteq_size, authors_since_mono. unfold days in *. lia. }
  assert (H7m : (size a7 <= length msgs7)%nat).
  { unfold a7, authors_since. fold msgs7.
    etransitivity; [apply size_list_to_set_le|]. now rewrite length_fmap. }
  split; [lia|]. split; [lia|]. split; [|split; [lia|split; lia]].
  intros Hpos.
  destruct (0 <? Z.of_nat (size a7)) eqn:E; [|apply Z.ltb_ge in E; lia].
  apply Qle_shift_div_l.
  - change 0%Q with (inject_Z 0). rewrite <- Zlt_Qlt. exact Hpos.
  - rewrite Qmult_1_l, <- Zle_Qle. lia.
Qed.

Lemma engagement_summary_witness :
  let e := cmd_admin_engagement
             (mkTables {[ (7, 1) := true; (8, 1) := true ]}
                       [ (7, 1, days 40); (7, 1, days 41); (9, 1, days 20) ])
             1 (days 42) (days 42) in
  active_7d e <= active_30d e /\ (1 <= avg_per_active e)%Q.
Proof.
  destruct (engagement_summary
              (mkTables {[ (7, 1) := true; (8, 1) := true ]}
                        [ (7, 1, days 40); (7, 1, days 41); (9, 1, days 20) ])
              1 (days 42) (days 42)) as (H1 & _ & H3 & _).
  - unfold days. lia.
  - split; [exact H1|]. apply H3. vm_compute. reflexivity.
Defined.

End AdminPanel.

(** ** [ai_analysis.py]: the fusion of the topic counters *)

Module Topics.

Local Open Scope Z_scope.

(** The counters of a list of analyses merged one after the other, as the
    successive calls of [analyze_and_update] do. *)
Definition merge_all (old_topics : gmap string Z) (adds : list (gmap string Z))
    : gmap string Z :=
  fold_left AiAnalysis.merge_topics adds old_topics.

(** The number of times the analyses counted a topic. *)
Definition counted (adds : list (gmap string Z)) (topic : string) : Z :=
  foldr Z.add 0 ((fun add => default 0 (add !! topic)) <$> adds).

Definition mentioned (adds : list (gmap string Z)) (topic : string) : Prop :=
  Exists (fun add => is_Some (add !! topic)) adds.

Lemma counted_cons add adds topic :
  counted (add :: adds) topic = default 0 (add !! topic) + counted adds topic.
Proof. reflexivity. Qed.

Lemma merge_topics_lookup old_topics add topic :
  AiAnalysis.merge_topics old_topics add !! topic
  = match add !! topic with
    | None => old_topics !! topic
    | Some v => Some (default 0 (old_topics !! topic) + v)
    end.
Proof.
  unfold AiAnalysis.merge_topics. revert topic.
  apply (map_fold_weak_ind
           (fun r (m : gmap string Z) =>
              forall topic,
                r !! topic = match m !! topic with
                             | None => old_topics !! topic
                             | Some v => Some (default 0 (old_topics !! topic) + v)
                             end)).
  - intros topic. now rewrite lookup_empty.
  - intros i x m r Hnone IH topic.
    destruct (decide (topic = i)) as [->|Hne].
    + rewrite !lookup_insert_eq. rewrite (IH i), Hnone. reflexivity.
    + rewrite !lookup_insert_ne by congruence. apply IH.
Qed.

(** X24.  The topic counters are added up: after the counters of any list
    of analyses have been merged, a topic none of them mentions keeps its
    entry (or stays absent), and a topic one of them mentions holds its
    previous count (0 if absent) plus the counts of all the analyses; so
    the result does not depend on the order of the analyses. *)
Theorem topics_add_up (old_topics : gmap string Z) (adds : list (gmap string Z)) :
  (forall topic,
      merge_all old_topics adds !! topic
      = if decide (mentioned adds topic)
        then Some (default 0 (old_topics !! topic) + counted adds topic)
        else old_topics !! topic)
  /\ (forall adds', adds ≡ₚ adds' -> merge_all old_topics adds' = merge_all old_topics adds).
Proof.
  assert (Hlookup : forall adds old_topics topic,
             merge_all old_topics adds !! topic
             = if decide (mentioned adds topic)
               then Some (default 0 (old_topics !! topic) + counted adds topic)
               else old_topics !! topic).
  { clear. induction adds as [|add adds IH]; intros old_topics topic.
    - simpl. destruct (decide (mentioned [] topic)) as [H|_]; [|reflexivity].
      apply Exists_nil in H. contradiction.
    - change (merge_all old_topics (add :: adds))
        with (merge_all (AiAnalysis.merge_topics old_topics add) adds).
      rewrite IH, merge_topics_lookup.
      change (counted (add :: adds) topic)
        with (default 0 (add !! topic) + counted adds topic).
      unfold mentioned.
      destruct (decide (Exists (fun add => is_Some (add !! topic)) adds)) as [Hm|Hm].
      + rewrite decide_True by (now apply Exists_cons_tl).
        destruct (add !! topic) as [v|]; simpl; f_equal; ring.
      + destruct (add !! topic) as [v|] eqn:Hadd.
        * rewrite decide_True by (apply Exists_cons_hd; rewrite Hadd; eauto).
          simpl. f_equal.
          assert (Hzero : counted adds topic = 0).
          { clear -Hm. induction adds as [|a adds IH]; [reflexivity|].
            change (counted (a :: adds) topic)
              with (default 0 (a !! topic) + counted adds topic).
            rewrite IH by (intros H; apply Hm; now apply Exists_cons_tl).
            destruct (a !! topic) eqn:Ha; [|reflexivity].
            exfalso. apply Hm. apply Exists_cons_hd. rewrite Ha. eauto. }
          rewrite Hzero. ring.
        * rewrite decide_False; [reflexivity|].
          intros H. apply Exists_cons in H as [H|H]; [|contradiction].
          rewrite Hadd in H. now destruct H. }
  split; [apply Hlookup|].
  intros adds' Hperm. apply map_eq. intros topic. rewrite !Hlookup.
  assert (Hc : counted adds' topic = counted adds topic).
  { clear -Hperm.
    induction Hperm as [|x l l' _ IH|x y l|l l' l'' _ IH1 _ IH2];
      rewrite ?counted_cons; [reflexivity|now rewrite IH|ring|congruence]. }
  assert (Hm : mentioned adds' topic <-> mentioned adds topic).
  { unfold mentioned. now rewrite Hperm. }
  rewrite Hc. destruct (decide (mentioned adds topic)) as [H|H].
  - rewrite decide_True by (now apply Hm). reflexivity.
  - rewrite decide_False by (now rewrite Hm). reflexivity.
Qed.

End Topics.

(** ** [user_engagement.py]: the streak against the active days *)

Module EngagementBounds.

Import Dates.

Local Open Scope Z_scope.

Lemma size_days_le (l : list date) :
  (size (list_to_set l : gset date) <= length l)%nat.
Proof.
  induction l as [|x l IH].
  - change (size (∅ : gset date) <= 0)%nat. rewrite size_empty. lia.
  - change (size ({[x]} ∪ list_to_set l : gset date) <= S (length l))%nat.
    rewrite size_union_alt, size_singleton.
    assert (size (list_to_set l ∖ {[x]} : gset date)
            <= size (list_to_set l : gset date))%nat.
    { apply subseteq_size. intros y Hy. apply elem_of_difference in Hy. tauto. }
    lia.
Qed.

Lemma streak_loop_le_size days : forall fuel d streak,
  streak_loop fuel days d streak <= streak + Z.of_nat (size (up_to days d)).
Proof.
  induction fuel as [|fuel IH]; intros d streak; simpl; [lia|].
  destruct (decide (d ∈ days)) as [Hd|Hd]; [|lia].
  pose proof (up_to_prev_size days d Hd).
  specialize (IH (prev_day d) (streak + 1)). lia.
Qed.

(** X25.  The streak computed by [_compute_active_days_and_streak] is never
    negative and never more than the number of active days of the month
    computed with it. *)
Theorem streak_at_most_active_days
    (db : UserEngagement.DB) (user_id guild_id : Z) (today : date) :
  let r := UserEngagement._compute_active_days_and_streak db user_id guild_id today in
  0 <= r.2 <= r.1.
Proof.
  cbv zeta. unfold UserEngagement._compute_active_days_and_streak. cbv zeta.
  cbn [fst snd].
  set (rows := UserEngagement.month_rows db user_id guild_id today).
  set (days := list_to_set (fst <$> rows) : gset date).
  unfold streak_from. split.
  - apply (UserEngagement.streak_loop_ge (S (size days)) days today 0).
  - pose proof (streak_loop_le_size days (S (size days)) today 0) as Hle.
    assert (Hup : (size (up_to days today) <= size days)%nat).
    { apply subseteq_size. intros x. unfold up_to. rewrite elem_of_filter. tauto. }
    pose proof (size_days_le (fst <$> rows)) as Hsz. fold days in Hsz.
    rewrite length_fmap in Hsz. lia.
Qed.

End EngagementBounds.
